(** * Strava Leaderboard Enhanced: a shallow embedding of the scraping,
      pagination, aggregation and sorting code, with its specification.

    The development follows the TypeScript sources:
    - [DOMUtils]    (dom_utils.ts): row parsing, page counting, filter and
                    request building;
    - [TableSorter] (table_sorter.ts): cell coercion and [sortData];
    - [PageLoader]  (page_loader.ts): [loadPageData] and [loadAllPages];
    - [Schedule]    (page_loader.ts): the calls of [loadAllPages] between
                    the events of the page;
    - [CsvExport]   (page_loader.ts): the export to CSV;
    - [ColumnControl] (table_sorter.ts): the visibility of the columns.

    JavaScript strings are sequences of UTF-16 code units, regular
    expressions are run by a small backtracking matcher with the greedy
    semantics of ECMAScript, and the DOM is a finite tree queried with the
    selectors the sources use.  Services of the browser that are not code of
    the repository (URL parsing, collation, dates, Unicode case mapping, the
    values typed into the controls of a form) are the fields of the [Host]
    class. *)

From Stdlib Require Import ZArith NArith QArith List String Ascii Bool Lia.
From Stdlib Require Import Permutation DecimalString.
Import ListNotations.
Close Scope Q_scope.

Set Warnings "-register-all".

(* ===================================================================== *)
(** ** JavaScript strings and numbers *)
(* ===================================================================== *)

Module JS.

(** A string is its list of UTF-16 code units. *)
Definition jsstring := list N.

(** ASCII literals. *)
Fixpoint js (s : string) : jsstring :=
  match s with
  | EmptyString => []
  | String a s' => N_of_ascii a :: js s'
  end.

Fixpoint jseqb (a b : jsstring) : bool :=
  match a, b with
  | [], [] => true
  | x :: a', y :: b' => N.eqb x y && jseqb a' b'
  | _, _ => false
  end.

(** Truthiness of a string: [s || d]. *)
Definition orElse (s d : jsstring) : jsstring :=
  match s with [] => d | _ => s end.

Definition truthy (s : jsstring) : bool :=
  match s with [] => false | _ => true end.

(** WhiteSpace and LineTerminator code units: what [trim] strips and what
    the class [\s] matches. *)
Definition isWhiteSpace (c : N) : bool :=
  ((9 <=? c) && (c <=? 13) || (c =? 32) || (c =? 160) || (c =? 5760)
   || (8192 <=? c) && (c <=? 8202) || (c =? 8232) || (c =? 8233)
   || (c =? 8239) || (c =? 8287) || (c =? 12288) || (c =? 65279))%N.

Definition isDigit (c : N) : bool := ((48 <=? c) && (c <=? 57))%N.

(** Word characters of [\b]: [A-Za-z0-9_]. *)
Definition isWordChar (c : N) : bool :=
  (isDigit c || (65 <=? c) && (c <=? 90) || (97 <=? c) && (c <=? 122)
   || (c =? 95))%N.

Fixpoint trimStart (s : jsstring) : jsstring :=
  match s with
  | c :: s' => if isWhiteSpace c then trimStart s' else s
  | [] => []
  end.

Definition trimEnd (s : jsstring) : jsstring := rev (trimStart (rev s)).

Definition trim (s : jsstring) : jsstring := trimEnd (trimStart s).

Fixpoint startsWith (s p : jsstring) : bool :=
  match p, s with
  | [], _ => true
  | x :: p', y :: s' => N.eqb x y && startsWith s' p'
  | _ :: _, [] => false
  end.

(** [s.includes(sub)]. *)
Fixpoint includes (s sub : jsstring) : bool :=
  startsWith s sub ||
  match s with
  | [] => false
  | _ :: s' => includes s' sub
  end.

(** [s.replace(',', '')] with a string pattern: the first occurrence of the
    one code unit [c] is removed. *)
Fixpoint removeFirst (c : N) (s : jsstring) : jsstring :=
  match s with
  | [] => []
  | x :: s' => if N.eqb x c then s' else x :: removeFirst c s'
  end.

(** [s.replace(/,/g, '')]: every occurrence is removed. *)
Definition removeAll (c : N) (s : jsstring) : jsstring :=
  filter (fun x => negb (N.eqb x c)) s.

(** ASCII lower-casing, as in the comparisons the HTML standard calls
    ASCII case-insensitive. *)
Definition asciiLower (s : jsstring) : jsstring :=
  map (fun c => if ((65 <=? c) && (c <=? 90))%N then (c + 32)%N else c) s.

(** The conversion to a string of scalar values that [FormData] and
    [URLSearchParams] apply to what they are given: a surrogate that is not
    part of a pair is replaced by U+FFFD. *)
Definition isHighSurrogate (c : N) : bool := ((55296 <=? c) && (c <=? 56319))%N.
Definition isLowSurrogate (c : N) : bool := ((56320 <=? c) && (c <=? 57343))%N.

Fixpoint toUSV (s : jsstring) : jsstring :=
  match s with
  | [] => []
  | c :: s' =>
      if isHighSurrogate c then
        match s' with
        | d :: s'' =>
            if isLowSurrogate d then c :: d :: toUSV s''
            else 65533%N :: toUSV s'
        | [] => [65533%N]
        end
      else if isLowSurrogate c then 65533%N :: toUSV s'
      else c :: toUSV s'
  end.

(** The relational operators on two strings compare code units
    lexicographically. *)
Fixpoint compareUnits (a b : jsstring) : comparison :=
  match a, b with
  | [], [] => Eq
  | [], _ :: _ => Lt
  | _ :: _, [] => Gt
  | x :: a', y :: b' =>
      match N.compare x y with
      | Eq => compareUnits a' b'
      | c => c
      end
  end.

(** *** parseInt *)

Definition digitValue (radix : Z) (c : N) : option Z :=
  let v :=
    if isDigit c then Some (Z.of_N c - 48)%Z
    else if ((97 <=? c) && (c <=? 122))%N then Some (Z.of_N c - 87)%Z
    else if ((65 <=? c) && (c <=? 90))%N then Some (Z.of_N c - 55)%Z
    else None in
  match v with
  | Some d => if (d <? radix)%Z then Some d else None
  | None => None
  end.

(** The longest prefix of digits of the radix, read as a number; [None]
    when the prefix is empty. *)
Fixpoint readDigits (radix : Z) (acc : option Z) (s : jsstring) : option Z :=
  match s with
  | c :: s' =>
      match digitValue radix c with
      | Some d =>
          readDigits radix
            (Some (match acc with Some a => a * radix + d | None => d end)%Z)
            s'
      | None => acc
      end
  | [] => acc
  end.

(** [parseInt(s)] with no radix argument: leading white space, a sign, the
    prefix [0x] or [0X] of a hexadecimal number, then the digits; [None] is
    NaN.  Numbers are mathematical integers: the rounding of IEEE doubles
    beyond 2^53 is not modelled. *)
Definition signOf (s : jsstring) : bool * jsstring :=
  match s with
  | c :: t =>
      if (c =? 45)%N then (true, t)
      else if (c =? 43)%N then (false, t)
      else (false, s)
  | [] => (false, s)
  end.

Definition radixOf (s : jsstring) : Z * jsstring :=
  match s with
  | c1 :: c2 :: t =>
      if ((c1 =? 48) && ((c2 =? 120) || (c2 =? 88)))%N then (16%Z, t)
      else (10%Z, s)
  | _ => (10%Z, s)
  end.

Definition parseInt (s : jsstring) : option Z :=
  let '(neg, s2) := signOf (trimStart s) in
  let '(radix, s3) := radixOf s2 in
  match readDigits radix None s3 with
  | Some n => Some (if neg then (- n)%Z else n)
  | None => None
  end.

(** [parseInt(s) || d]: NaN and 0 are falsy. *)
Definition parseIntOr (s : jsstring) (d : Z) : Z :=
  match parseInt s with
  | Some 0%Z => d
  | Some n => n
  | None => d
  end.

(** *** parseFloat *)

(** Digits after the decimal point: numerator and number of digits read. *)
Fixpoint readFraction (num : Z) (len : nat) (s : jsstring) : Z * nat :=
  match s with
  | c :: s' =>
      if isDigit c then readFraction (num * 10 + (Z.of_N c - 48))%Z (S len) s'
      else (num, len)
  | [] => (num, len)
  end.

Fixpoint dropDigits (s : jsstring) : jsstring :=
  match s with
  | c :: s' => if isDigit c then dropDigits s' else s
  | [] => []
  end.

Fixpoint pow10 (n : nat) : positive :=
  match n with
  | 0 => 1%positive
  | S k => (10 * pow10 k)%positive
  end.

(** [parseFloat(s)] on decimal literals without exponent, the only ones
    the sources pass to it (they are cut out by patterns made of digits,
    commas and one dot); [None] is NaN.  The value is the exact decimal
    fraction, of which the IEEE double is the nearest neighbour. *)
Definition parseFloat (s : jsstring) : option Q :=
  let '(neg, s2) := signOf (trimStart s) in
  let ip := readDigits 10 None s2 in
  let after := dropDigits s2 in
  let '(fnum, flen) :=
    match after with
    | 46%N :: t => readFraction 0 0 t
    | _ => (0%Z, 0)
    end in
  match ip, flen with
  | None, 0 => None
  | _, _ =>
      let i := match ip with Some i => i | None => 0%Z end in
      let q := Qred (Qmake (i * Zpos (pow10 flen) + fnum) (pow10 flen)) in
      Some (if neg then Qopp q else q)
  end.

End JS.
Export JS.

(* ===================================================================== *)
(** ** Regular expressions *)
(* ===================================================================== *)

Module Regex.

(** The fragment of ECMAScript patterns used by the sources: literals,
    classes, sequence, alternation, greedy quantifiers over a class,
    capture groups, [^], [$] and [\b]. *)
Inductive re : Type :=
| Eps
| Lit (c : N)
| Cls (p : N -> bool)
| Cat (a b : re)
| Alt (a b : re)
| RepC (mn : nat) (mx : option nat) (p : N -> bool)
| Grp (i : nat) (r : re)
| Bol
| Eol
| Wb.

(** A position of the matcher: index, previous code unit, remaining input,
    captures closed so far (latest first). *)
Record mstate : Type := MState
  { pos : nat; prev : option N; rest : jsstring;
    caps : list (nat * jsstring) }.

Definition K := mstate -> option mstate.

(** Canonicalize of the [i] flag.  The patterns of the sources are made of
    ASCII letters and of characters without case, for which folding ASCII
    letters gives the same matches as the Unicode tables. *)
Definition fold (ci : bool) (c : N) : N :=
  if ci && (97 <=? c)%N && (c <=? 122)%N then (c - 32)%N else c.

Definition isWordOpt (o : option N) : bool :=
  match o with Some c => isWordChar c | None => false end.

(** Greedy [p{mn,mx}]: takes one more unit when it can, and gives it back
    when the continuation fails. *)
Fixpoint repc (p : N -> bool) (mn : nat) (mx : option nat) (k : K)
    (n : nat) (pv : option N) (cs : list (nat * jsstring))
    (s : jsstring) {struct s} : option mstate :=
  let stop :=
    match mn with
    | 0 => k (MState n pv s cs)
    | S _ => None
    end in
  match mx with
  | Some 0 => stop
  | _ =>
      match s with
      | c :: s' =>
          if p c then
            match repc p (Nat.pred mn) (option_map Nat.pred mx) k
                    (S n) (Some c) cs s' with
            | Some r => Some r
            | None => stop
            end
          else stop
      | [] => stop
      end
  end.

Fixpoint m (ci : bool) (r : re) (k : K) (st : mstate) : option mstate :=
  match r with
  | Eps => k st
  | Lit c =>
      match rest st with
      | x :: s' =>
          if N.eqb (fold ci x) (fold ci c)
          then k (MState (S (pos st)) (Some x) s' (caps st))
          else None
      | [] => None
      end
  | Cls p =>
      match rest st with
      | x :: s' =>
          if p x then k (MState (S (pos st)) (Some x) s' (caps st)) else None
      | [] => None
      end
  | Cat a b => m ci a (m ci b k) st
  | Alt a b =>
      match m ci a k st with
      | Some r => Some r
      | None => m ci b k st
      end
  | RepC mn mx p => repc p mn mx k (pos st) (prev st) (caps st) (rest st)
  | Grp i r' =>
      m ci r'
        (fun st' =>
           k (MState (pos st') (prev st') (rest st')
                ((i, firstn (pos st' - pos st) (rest st)) :: caps st')))
        st
  | Bol => match prev st with None => k st | Some _ => None end
  | Eol => match rest st with [] => k st | _ :: _ => None end
  | Wb =>
      if xorb (isWordOpt (prev st)) (isWordOpt (hd_error (rest st)))
      then k st else None
  end.

(** The result of a successful match: where it starts, the matched text
    [m[0]] and the captures. *)
Record result : Type := Result
  { index : nat; whole : jsstring; groups : list (nat * jsstring) }.

Fixpoint lookup (i : nat) (g : list (nat * jsstring)) : option jsstring :=
  match g with
  | [] => None
  | (j, s) :: g' => if Nat.eqb i j then Some s else lookup i g'
  end.

(** [m[i]] for a group that took part in the match. *)
Definition group (i : nat) (r : result) : jsstring :=
  match lookup i (groups r) with Some s => s | None => [] end.

Definition matchAt (ci : bool) (r : re) (n : nat) (pv : option N)
    (s : jsstring) : option result :=
  match m ci r Some (MState n pv s []) with
  | Some st => Some (Result n (firstn (pos st - n) s) (caps st))
  | None => None
  end.

(** Leftmost match from position [n] on. *)
Fixpoint search (ci : bool) (r : re) (n : nat) (pv : option N)
    (s : jsstring) {struct s} : option result :=
  match matchAt ci r n pv s with
  | Some res => Some res
  | None =>
      match s with
      | [] => None
      | c :: s' => search ci r (S n) (Some c) s'
      end
  end.

(** [str.match(re)] without the [g] flag. *)
Definition exec (ci : bool) (r : re) (s : jsstring) : option result :=
  search ci r 0 None s.

(** [str.match(re)] with the [g] flag: every match, left to right, each
    search resuming where the previous match ended ([skip] counts the units
    of the last match still to pass; an empty match advances by one). *)
Fixpoint scanAll (ci : bool) (r : re) (skip : nat) (n : nat)
    (pv : option N) (s : jsstring) {struct s} : list jsstring :=
  match skip with
  | S k =>
      match s with
      | [] => []
      | c :: s' => scanAll ci r k (S n) (Some c) s'
      end
  | 0 =>
      match matchAt ci r n pv s with
      | Some res =>
          whole res ::
          match s with
          | [] => []
          | c :: s' =>
              scanAll ci r (Nat.pred (List.length (whole res))) (S n) (Some c) s'
          end
      | None =>
          match s with
          | [] => []
          | c :: s' => scanAll ci r 0 (S n) (Some c) s'
          end
      end
  end.

Definition matchAll (ci : bool) (r : re) (s : jsstring) : list jsstring :=
  scanAll ci r 0 0 None s.

(** Pattern syntax. *)
Definition plus (p : N -> bool) : re := RepC 1 None p.
Definition star (p : N -> bool) : re := RepC 0 None p.
Definition opt (p : N -> bool) : re := RepC 0 (Some 1) p.
Definition times (a b : nat) (p : N -> bool) : re := RepC a (Some b) p.
Definition ch (c : string) (x : N) : bool :=
  match js c with y :: _ => N.eqb x y | [] => false end.
Definition oneOf (ps : list (N -> bool)) (x : N) : bool :=
  existsb (fun p => p x) ps.

(** A literal word. *)
Fixpoint lits (s : jsstring) : re :=
  match s with
  | [] => Eps
  | [c] => Lit c
  | c :: s' => Cat (Lit c) (lits s')
  end.

Fixpoint cats (rs : list re) : re :=
  match rs with
  | [] => Eps
  | [r] => r
  | r :: rs' => Cat r (cats rs')
  end.

End Regex.
Export Regex.

(* ===================================================================== *)
(** ** The DOM *)
(* ===================================================================== *)

Module DOM.

(** A document tree: text nodes and elements with a tag, attributes and
    children.  Tag and attribute names are lower-case ASCII. *)
Inductive node : Type :=
| Text (s : jsstring)
| Elem (tag : string) (attrs : list (string * jsstring)) (kids : list node).

Fixpoint textContent (n : node) : jsstring :=
  match n with
  | Text s => s
  | Elem _ _ ks =>
      (fix go (l : list node) : jsstring :=
         match l with
         | [] => []
         | k :: l' => textContent k ++ go l'
         end) ks
  end.

Definition isElement (n : node) : bool :=
  match n with Elem _ _ _ => true | Text _ => false end.

Definition children (n : node) : list node :=
  match n with Elem _ _ ks => ks | Text _ => [] end.

Definition attributes (n : node) : list (string * jsstring) :=
  match n with Elem _ a _ => a | Text _ => [] end.

Fixpoint assoc (k : string) (l : list (string * jsstring)) : option jsstring :=
  match l with
  | [] => None
  | (k', v) :: l' => if String.eqb k k' then Some v else assoc k l'
  end.

Definition getAttribute (a : string) (n : node) : option jsstring :=
  assoc a (attributes n).

Definition hasTag (t : string) (n : node) : bool :=
  match n with Elem t' _ _ => String.eqb t t' | Text _ => false end.

(** The tokens of a [class] attribute, separated by ASCII white space. *)
Definition isAsciiSpace (c : N) : bool :=
  ((c =? 9) || (c =? 10) || (c =? 12) || (c =? 13) || (c =? 32))%N.

Fixpoint tokens (cur : jsstring) (s : jsstring) : list jsstring :=
  match s with
  | [] => match cur with [] => [] | _ => [rev cur] end
  | c :: s' =>
      if isAsciiSpace c
      then match cur with [] => tokens [] s' | _ => rev cur :: tokens [] s' end
      else tokens (c :: cur) s'
  end.

Definition classList (n : node) : list jsstring :=
  match getAttribute "class" n with
  | Some v => tokens [] v
  | None => []
  end.

(** *** Selectors *)

(** The simple selectors of the sources: [tag], [.class], [[a]],
    [[a="v"]] and [[a*="v"]]. *)
Inductive simple : Type :=
| Tag (t : string)
| Class (c : string)
| HasAttr (a : string)
| AttrEq (a : string) (v : string)
| AttrHas (a : string) (v : string).

(** [a.b[c]]: all of the simple selectors hold of one element. *)
Definition compound := list simple.
(** [x y z]: descendant combinators, outermost compound first. *)
Definition complex := list compound.
(** [s1, s2]: a selector list. *)
Definition selector := list complex.

(** The attributes whose values a selector compares without regard to
    ASCII case on the elements of an HTML document (the list of the HTML
    standard); the values of all the others are compared as they are. *)
Definition caseInsensitiveAttributes : list string :=
  [ "accept"; "accept-charset"; "align"; "alink"; "axis"; "bgcolor";
    "charset"; "checked"; "clear"; "codetype"; "color"; "compact";
    "declare"; "defer"; "dir"; "direction"; "disabled"; "enctype"; "face";
    "frame"; "hreflang"; "http-equiv"; "lang"; "language"; "link"; "media";
    "method"; "multiple"; "nohref"; "noresize"; "noshade"; "nowrap";
    "readonly"; "rel"; "rev"; "rules"; "scope"; "scrolling"; "selected";
    "shape"; "target"; "text"; "type"; "valign"; "valuetype"; "vlink"
  ]%string.

(** A value as an attribute selector on [a] compares it. *)
Definition compared (a : string) (x : jsstring) : jsstring :=
  if existsb (String.eqb a) caseInsensitiveAttributes then asciiLower x
  else x.

Definition matchesSimple (n : node) (s : simple) : bool :=
  isElement n &&
  match s with
  | Tag t => hasTag t n
  | Class c => existsb (jseqb (js c)) (classList n)
  | HasAttr a => match getAttribute a n with Some _ => true | None => false end
  | AttrEq a v =>
      match getAttribute a n with
      | Some x => jseqb (compared a x) (compared a (js v))
      | None => false
      end
  | AttrHas a v =>
      match getAttribute a n with
      | Some x => includes (compared a x) (compared a (js v))
      | None => false
      end
  end.

Definition matchesCompound (n : node) (c : compound) : bool :=
  isElement n && forallb (matchesSimple n) c.

(** The compounds still to be found, innermost first, along the chain of
    ancestors, nearest first. *)
Fixpoint matchesAncestors (anc : list node) (cs : list compound) : bool :=
  match cs with
  | [] => true
  | c :: cs' =>
      match anc with
      | [] => false
      | a :: anc' =>
          if matchesCompound a c then matchesAncestors anc' cs'
          else matchesAncestors anc' cs
      end
  end.

Definition matchesComplex (anc : list node) (n : node) (c : complex) : bool :=
  match rev c with
  | [] => false
  | subject :: outer => matchesCompound n subject && matchesAncestors anc outer
  end.

Definition matches (anc : list node) (n : node) (s : selector) : bool :=
  existsb (matchesComplex anc n) s.

(** The elements below [n] in document order, each with its chain of
    ancestors, nearest first. *)
Fixpoint descend (anc : list node) (n : node) : list (list node * node) :=
  match n with
  | Text _ => []
  | Elem _ _ ks =>
      (fix go (l : list node) : list (list node * node) :=
         match l with
         | [] => []
         | k :: l' =>
             (if isElement k then [(n :: anc, k)] else [])
             ++ descend (n :: anc) k ++ go l'
         end) ks
  end.

(** [el.querySelectorAll(sel)], with the ancestors of each result. *)
Definition queryAllCtx (n : node) (s : selector) : list (list node * node) :=
  filter (fun '(anc, e) => matches anc e s) (descend [] n).

Definition querySelectorAll (n : node) (s : selector) : list node :=
  map snd (queryAllCtx n s).

Definition querySelector (n : node) (s : selector) : option node :=
  hd_error (querySelectorAll n s).

Definition has (n : node) (s : selector) : bool :=
  match querySelector n s with Some _ => true | None => false end.

(** [el.closest(sel)] for an element given with its ancestors. *)
Fixpoint closest (anc : list node) (n : node) (s : selector) : option node :=
  if matches anc n s then Some n
  else match anc with
       | [] => None
       | a :: anc' => closest anc' a s
       end.

(** [document.querySelectorAll(sel)]: the root element is a candidate
    too. *)
Definition docAllCtx (root : node) (s : selector) : list (list node * node) :=
  filter (fun '(anc, e) => matches anc e s) (([], root) :: descend [] root).

Definition docQueryAll (root : node) (s : selector) : list node :=
  map snd (docAllCtx root s).

Definition docQuery (root : node) (s : selector) : option node :=
  hd_error (docQueryAll root s).

(** Selector syntax: a single compound. *)
Definition sel1 (c : compound) : selector := [[c]].

(** A row as the code holds it: the [tr] element and, for [TableSorter],
    what [row.closest('tbody')] followed by
    [Array.from(tbody.querySelectorAll('tr')).indexOf(row)] evaluates to at
    the time of the call ([None] for a row outside any [tbody], such as a
    detached clone). *)
Record element : Type := Element
  { self : node; bodyIndex : option Z }.

(** [cloneNode(true)]: a detached deep copy. *)
Definition cloneNode (e : element) : element := Element (self e) None.

(** [trim] of the text content, or [''] . *)
Definition text (n : node) : jsstring := trim (textContent n).

End DOM.
Export DOM.

(* ===================================================================== *)
(** ** models/leaderboard_record.ts *)
(* ===================================================================== *)

Record LeaderboardRecord : Type := mkRecord
  { rank : Z;
    name : jsstring;
    date : jsstring;
    speed : Q;
    heartRate : option Z;
    averageClimbingSpeed : Q;
    power : option Z;
    time : jsstring;
    timeInSeconds : Z;
    element : DOM.element }.

(** [SortConfig]. *)
Inductive direction : Type := asc | desc.
Record SortConfig : Type := mkSort { column : Z; dir : direction }.

(* ===================================================================== *)
(** ** utils/dom_utils.ts *)
(* ===================================================================== *)

Module DOMUtils.

(** Code units outside ASCII that occur in the patterns. *)
Definition heart : N := 9829.      (* U+2665 *)
Definition kanji_ji : N := 26178.  (* U+6642, hour *)

(** A number cut out by a pattern that starts with a digit is never NaN. *)
Definition intOf (s : jsstring) : Z :=
  match parseInt s with Some n => n | None => 0%Z end.
Definition floatOf (s : jsstring) : Q :=
  match parseFloat s with Some q => q | None => 0%Q end.

(** [/(\d+):(\d+)/] *)
Definition re_time : re :=
  cats [Grp 1 (plus isDigit); Lit 58; Grp 2 (plus isDigit)].

Definition parseTimeToSeconds (timeStr : jsstring) : Z :=
  match exec false re_time timeStr with
  | Some mt =>
      let minutes := intOf (group 1 mt) in
      let seconds := intOf (group 2 mt) in
      (minutes * 60 + seconds)%Z
  | None => 0%Z
  end.

(** [a || b] on match results. *)
Definition orMatch (a b : option result) : option result :=
  match a with Some _ => a | None => b end.

(** [\d+\.?\d*] and [\d+,?\d*\.?\d*] *)
Definition decimal : re := cats [plus isDigit; opt (ch "."); star isDigit].
Definition decimalComma : re :=
  cats [plus isDigit; opt (ch ","); star isDigit; opt (ch "."); star isDigit].
Definition ws : re := star isWhiteSpace.
Definition word (s : string) : re := lits (js s).

(** The three speed patterns, in order. *)
Definition speedMatch (cellText : jsstring) : option result :=
  orMatch
    (exec true
       (cats [Grp 1 decimal; ws;
              Grp 2 (Alt (word "km/h") (Alt (word "mph") (word "kph")))])
       cellText)
    (orMatch
       (exec false (cats [Grp 1 decimal; ws; word "km"]) cellText)
       (exec true (cats [Grp 1 decimal; ws; word "mph"]) cellText)).

Definition heartRateMatch (cellText : jsstring) : option result :=
  orMatch
    (exec true
       (cats [Grp 1 (plus isDigit); ws; Grp 2 (Alt (word "bpm") (Lit heart))])
       cellText)
    (orMatch
       (exec true (cats [Grp 1 (plus isDigit); ws; word "bpm"]) cellText)
       (exec true (cats [Lit heart; ws; Grp 1 (plus isDigit)]) cellText)).

Definition powerMatch (cellText : jsstring) : option result :=
  orMatch
    (exec true
       (cats [Grp 1 (plus isDigit); ws; Grp 2 (Alt (word "w") (word "watts"))])
       cellText)
    (orMatch
       (exec false (cats [Grp 1 (plus isDigit); ws; word "W"; Wb]) cellText)
       (exec true (cats [Grp 1 (plus isDigit); ws; word "watts"]) cellText)).

Definition climbingSpeedMatch (cellText : jsstring) : option result :=
  orMatch
    (exec true
       (cats [Grp 1 decimalComma; ws; Grp 2 (Alt (word "m/min") (word "vam"))])
       cellText)
    (orMatch
       (exec true (cats [Grp 1 decimalComma; ws; word "VAM"]) cellText)
       (orMatch
          (exec true (cats [Grp 1 decimalComma; ws; word "m/min"]) cellText)
          (exec true
             (cats [word "VAM"; star (oneOf [ch ":"; isWhiteSpace]);
                    Grp 1 decimalComma])
             cellText))).

(** [for (let i = a; i < b; i++)] over the cells: the cells visited. *)
Definition slice {A : Type} (a b : nat) (l : list A) : list A :=
  firstn (b - a) (skipn a l).

(** A scan with [break]: the first cell on which [f] answers. *)
Fixpoint firstSome {A B : Type} (f : A -> option B) (l : list A) : option B :=
  match l with
  | [] => None
  | x :: l' => match f x with Some y => Some y | None => firstSome f l' end
  end.

Definition avatarSelectors : list selector :=
  [ sel1 [Class "avatar"];
    sel1 [Tag "img"];
    sel1 [AttrHas "class" "avatar"];
    sel1 [AttrHas "src" "avatar"];
    sel1 [AttrHas "src" "profile"] ].

Definition hasAvatar (cell : node) : bool :=
  existsb (has cell) avatarSelectors.

Definition athleteLink : selector := sel1 [Tag "a"; AttrHas "href" "/athletes/"].

(** The rank: an avatar in the rank cell means first place. *)
Definition extractRank (cells : list node) (index : Z) : Z :=
  let rankCell := nth 0 cells (Text []) in
  let rankText := text rankCell in
  if negb (truthy rankText) || hasAvatar rankCell
  then (if hasAvatar rankCell then 1 else index + 1)%Z
  else parseIntOr rankText (index + 1).

(** The name: the first athlete link among the first three cells, else
    the text of the name cell. *)
Definition extractName (cells : list node) : jsstring :=
  let found :=
    firstSome
      (fun cell =>
         match querySelector cell athleteLink with
         | Some nameLink => Some (text nameLink, cell)
         | None => None
         end)
      (slice 0 (Nat.min (List.length cells) 3) cells) in
  let '(name0, nameCell) :=
    match found with
    | Some p => p
    | None => ([], nth 1 cells (Text []))
    end in
  if truthy name0 then name0 else text nameCell.

Definition extractDate (cells : list node) : jsstring :=
  let cell2 := nth 2 cells (Text []) in
  if Nat.ltb 2 (List.length cells)
  then orElse
         (match querySelector cell2 (sel1 [Tag "a"]) with
          | Some a => text a
          | None => []
          end)
         (text cell2)
  else [].

Definition extractSpeed (texts : list jsstring) : Q :=
  match firstSome speedMatch (slice 2 (Nat.min (List.length texts) 6) texts) with
  | Some mt => floatOf (group 1 mt)
  | None => 0%Q
  end.

Definition extractHeartRate (texts : list jsstring) : option Z :=
  match firstSome heartRateMatch
          (slice 2 (Nat.min (List.length texts) 6) texts) with
  | Some mt => Some (intOf (group 1 mt))
  | None => None
  end.

Definition extractPower (texts : list jsstring) : option Z :=
  match firstSome powerMatch (slice 2 (Nat.min (List.length texts) 6) texts) with
  | Some mt => Some (intOf (group 1 mt))
  | None => None
  end.

(** The time, looked for in the last three cells: the text of the cell and
    its seconds. *)
Definition extractTime (texts : list jsstring) : jsstring * Z :=
  match
    firstSome
      (fun cellText =>
         match exec false re_time cellText with
         | Some _ => Some (cellText, parseTimeToSeconds cellText)
         | None => None
         end)
      (slice (Nat.max 2 (List.length texts - 3)) (List.length texts) texts)
  with
  | Some p => p
  | None => ([], 0%Z)
  end.

Definition extractClimbingSpeed (texts : list jsstring) : Q :=
  let vam :=
    match firstSome climbingSpeedMatch
            (slice 2 (Nat.min (List.length texts) 8) texts) with
    | Some mt => floatOf (removeFirst 44 (group 1 mt))
    | None => 0%Q
    end in
  (* cell 6, a usual place of a bare VAM number *)
  if Qeq_bool vam 0 && Nat.ltb 6 (List.length texts) then
    let cell6Text := nth 6 texts [] in
    match exec false (Grp 1 decimalComma) cell6Text with
    | Some cell6Number =>
        if negb (includes cell6Text (js "km"))
           && negb (includes cell6Text [kanji_ji])
           && negb (includes cell6Text (js ":"))
        then
          let potentialVAM := floatOf (removeFirst 44 (group 1 cell6Number)) in
          if negb (Qle_bool potentialVAM 100)
             && negb (Qle_bool 5000 potentialVAM)
          then potentialVAM else vam
        else vam
    | None => vam
    end
  else vam.

(** [row.querySelectorAll('td')] *)
Definition cellsOfRow (row : DOM.element) : list node :=
  querySelectorAll (self row) (sel1 [Tag "td"]).

Definition parseTableRow (row : DOM.element) (index : Z)
  : option LeaderboardRecord :=
  let cells := cellsOfRow row in
  if Nat.ltb (List.length cells) 3 then None
  else
    let texts := map text cells in
    Some (mkRecord (extractRank cells index) (extractName cells)
            (extractDate cells) (extractSpeed texts) (extractHeartRate texts)
            (extractClimbingSpeed texts) (extractPower texts)
            (fst (extractTime texts)) (snd (extractTime texts)) row).

(** *** The page and the browser *)

(** [window.location]. *)
Record Location : Type := mkLocation
  { origin : jsstring; pathname : jsstring; href : jsstring }.

(** [document] and [window.location]. *)
Record Document : Type := mkDocument
  { root : node; location : Location }.

(** A JavaScript object used as a map from strings to strings, and the
    entries of a [URLSearchParams] or [FormData], in insertion order. *)
Definition entries := list (jsstring * jsstring).

Fixpoint get (k : jsstring) (o : entries) : option jsstring :=
  match o with
  | [] => None
  | (k', v) :: o' => if jseqb k k' then Some v else get k o'
  end.

(** [o[k] = v] and [searchParams.set(k, v)] on entries with distinct
    keys: the value is replaced in place, or the entry is added last. *)
Fixpoint set (k v : jsstring) (o : entries) : entries :=
  match o with
  | [] => [(k, v)]
  | (k', v') :: o' => if jseqb k k' then (k, v) :: o' else (k', v') :: set k v o'
  end.

(** [{ ...a, ...b }]. *)
Definition spread (a b : entries) : entries :=
  fold_left (fun o '(k, v) => set k v o) b a.

Definition getOr (k : jsstring) (o : entries) : jsstring :=
  match get k o with Some v => v | None => [] end.

Definition keys (o : entries) : list jsstring := map fst o.

(** *** Plain objects *)

(** The one name an assignment does not store on a plain object:
    [o['__proto__'] = v] runs the setter of [Object.prototype], which
    ignores a value that is neither an object nor null. *)
Definition proto : jsstring := js "__proto__".

(** [o[k] = v] on a plain object, for a name [k] taken from the page and a
    string [v]. *)
Definition setProperty (k v : jsstring) (o : entries) : entries :=
  if jseqb k proto then o else set k v o.

(** An array index: the canonical decimal form of an integer below
    2^32 - 1. *)
Definition indexValue (s : jsstring) : N :=
  fold_left (fun acc c => (acc * 10 + (c - 48))%N) s 0%N.

Definition arrayIndex (k : jsstring) : option N :=
  match k with
  | [] => None
  | c :: t =>
      if forallb isDigit k
         && (negb (c =? 48)%N || match t with [] => true | _ => false end)
         && (indexValue k <? 4294967295)%N
      then Some (indexValue k)
      else None
  end.

Definition isArrayIndex (k : jsstring) : bool :=
  match arrayIndex k with Some _ => true | None => false end.

Fixpoint insertIndex (i : N) (k : jsstring) (l : list (N * jsstring))
  : list (N * jsstring) :=
  match l with
  | [] => [(i, k)]
  | (j, k') :: l' =>
      if (i <? j)%N then (i, k) :: l else (j, k') :: insertIndex i k l'
  end.

Definition indexKeys (ks : list jsstring) : list (N * jsstring) :=
  fold_right
    (fun k acc =>
       match arrayIndex k with
       | Some i => insertIndex i k acc
       | None => acc
       end)
    [] ks.

(** [Object.keys(o)]: the names that are array indices come first, in
    ascending order, then the other names in the order of their
    creation. *)
Definition ownKeys (o : entries) : list jsstring :=
  map snd (indexKeys (keys o))
  ++ filter (fun k => negb (isArrayIndex k)) (keys o).

(** The services of the browser the code calls. *)
Class Host : Type := mkHost
  { (** [new URL(url, window.location.origin).searchParams], in order;
        [None] when the constructor throws. *)
    searchParamsOf : jsstring -> option entries;
    (** [String.prototype.toLowerCase]. *)
    toLowerCase : jsstring -> jsstring;
    (** [a.localeCompare(b)]. *)
    localeCompare : jsstring -> jsstring -> Z;
    (** The time value of [new Date(year, monthIndex, day)]. *)
    makeDate : Z -> Z -> Z -> Z;
    (** [String(x)] for a number and for a date. *)
    numberToString : Q -> jsstring;
    dateToString : Z -> jsstring;
    (** [input.value] for a control whose value is what the user typed or
        chose (a text field, a number, a date, a file, ...). *)
    controlValue : node -> jsstring;
    (** Lower-casing leaves no non-empty string empty. *)
    toLowerCase_empty : forall s, toLowerCase s = [] -> s = [] }.

(** [n.toString()] for an integer. *)
Definition toString (n : Z) : jsstring :=
  js (DecimalString.NilZero.string_of_int (Z.to_int n)).

Section WithHost.
Context {host : Host}.

(** *** getTotalPages *)

Definition paginationSelectors : list selector :=
  [ sel1 [Class "pagination"];
    sel1 [Tag "nav"; AttrEq "role" "navigation"];
    sel1 [Tag "ul"; AttrEq "role" "navigation"];
    sel1 [Class "pagination-wrapper"];
    sel1 [Class "leaderboard-pagination"];
    [[ [Tag "nav"]; [Tag "ul"] ]] ].

Definition pageLinkSelector : selector := sel1 [Tag "a"; AttrHas "href" "page="].

(** [/page=(\d+)/] *)
Definition re_page : re := cats [word "page="; Grp 1 (plus isDigit)].

(** The page number the code reads from one link, if any. *)
Definition hrefPage (link : node) : option Z :=
  match getAttribute "href" link with
  | Some href =>
      if truthy href then
        match exec false re_page href with
        | Some pageMatch => Some (intOf (group 1 pageMatch))
        | None => None
        end
      else None
  | None => None
  end.

(** [links.forEach(...)]: the largest page number so far. *)
Definition scanLinks (links : list node) (maxPage : Z) : Z :=
  fold_left
    (fun mx link =>
       match hrefPage link with
       | Some pageNum => if (mx <? pageNum)%Z then pageNum else mx
       | None => mx
       end)
    links maxPage.

(** [paginationText.match(/\d+/g)] and the loop over the numbers. *)
Definition scanText (paginationText : jsstring) (maxPage : Z) : Z :=
  fold_left
    (fun mx numStr =>
       let num := intOf numStr in
       if (mx <? num)%Z && (num <? 1000)%Z then num else mx)
    (matchAll false (plus isDigit) paginationText) maxPage.

Definition scanPagination (pagination : node) (maxPage : Z) : Z :=
  scanText (textContent pagination)
    (scanLinks (querySelectorAll pagination pageLinkSelector) maxPage).

(** The loop over the selectors, with its [continue] and [break]. *)
Fixpoint scanSelectors (doc : node) (sels : list selector) (maxPage : Z) : Z :=
  match sels with
  | [] => maxPage
  | s :: sels' =>
      match docQuery doc s with
      | None => scanSelectors doc sels' maxPage
      | Some pagination =>
          let maxPage' := scanPagination pagination maxPage in
          if (1 <? maxPage')%Z then maxPage'
          else scanSelectors doc sels' maxPage'
      end
  end.

Definition getTotalPages (d : Document) : Z :=
  let maxPage := scanSelectors (root d) paginationSelectors 1 in
  if (maxPage =? 1)%Z
  then scanLinks (docQueryAll (root d) pageLinkSelector) maxPage
  else maxPage.

(** *** Filters *)

Record Filter : Type := mkFilter
  { filterType : jsstring; filterValue : jsstring }.

Definition attrOr (a : string) (n : node) : jsstring :=
  match getAttribute a n with Some v => v | None => [] end.

Definition detectCurrentFilter (d : Document) : option Filter :=
  let viaActive :=
    match docQuery (root d) (sel1 [AttrEq "data-role" "active-filters"]) with
    | Some activeFiltersElement =>
        let filterText := text activeFiltersElement in
        if truthy filterText
        then Some (mkFilter (js "active-filters") filterText)
        else None
    | None => None
    end in
  match viaActive with
  | Some f => Some f
  | None =>
      firstSome
        (fun s =>
           match docQuery (root d) s with
           | Some activeButton =>
               let txt := text activeButton in
               let dataFilter := attrOr "data-filter" activeButton in
               let hrf := attrOr "href" activeButton in
               Some (mkFilter (orElse dataFilter (js "text"))
                       (orElse dataFilter (orElse txt hrf)))
           | None => None
           end)
        [ [[ [Class "btn-group"]; [Class "btn"; Class "active"] ]];
          [[ [Class "nav-pills"]; [Class "nav-link"; Class "active"] ]];
          [[ [Class "tab-content"]; [Class "active"] ]];
          [[ [Class "filter-buttons"]; [Class "active"] ]];
          sel1 [HasAttr "data-filter"; Class "active"];
          [[ [Class "leaderboard-filters"]; [Class "active"] ]] ]
  end.

(** The allow-list inside [parseUrlParams]. *)
Definition urlAllowedParams : list jsstring :=
  [js "club_id"; js "filter"; js "per_page"; js "partial"].

Definition member (k : jsstring) (l : list jsstring) : bool :=
  existsb (jseqb k) l.

Definition parseUrlParams (url : jsstring) : entries :=
  match searchParamsOf url with
  | Some searchParams =>
      fold_left
        (fun params '(key, value) =>
           if negb (jseqb key (js "page")) && member key urlAllowedParams
           then set key value params
           else params)
        searchParams []
  | None => []
  end.

Definition truthyAt (k : jsstring) (o : entries) : bool :=
  match get k o with Some v => truthy v | None => false end.

(** First source: the parameters of the first pagination link, compared
    with those of the current URL.  ([firstLink.href] is the [href]
    attribute made absolute; the host's parser takes either form.) *)
Definition paramsFromPagination (d : Document) : option entries :=
  match docQuery (root d) (sel1 [Class "pagination"]) with
  | Some pagination =>
      match querySelectorAll pagination
              (sel1 [Tag "a"; AttrHas "href" "leaderboard"]) with
      | firstLink :: _ =>
          let paginationParams := parseUrlParams (attrOr "href" firstLink) in
          let currentParams := parseUrlParams (href (location d)) in
          if truthyAt (js "filter") paginationParams
             && truthyAt (js "filter") currentParams
             && negb (jseqb (getOr (js "filter") paginationParams)
                            (getOr (js "filter") currentParams))
          then Some paginationParams
          else Some (spread currentParams paginationParams)
      | [] => None
      end
  | None => None
  end.

(** Second source: the current URL. *)
Definition paramsFromUrl (d : Document) : option entries :=
  if includes (pathname (location d)) (js "/leaderboard") then
    let currentParams := parseUrlParams (href (location d)) in
    if Nat.ltb 0 (List.length (keys currentParams))
    then Some currentParams else None
  else None.

(** Third source: the link of an active filter. *)
Definition paramsFromActive (d : Document) : option entries :=
  firstSome
    (fun s =>
       match docQuery (root d) s with
       | Some activeElement =>
           let hrf := attrOr "href" activeElement in
           if truthy hrf then Some (parseUrlParams hrf) else None
       | None => None
       end)
    [ sel1 [Class "filter-link"; Class "active"];
      sel1 [Class "btn"; Class "active"; HasAttr "data-filter"];
      sel1 [Class "nav-link"; Class "active"; HasAttr "data-filter"];
      sel1 [HasAttr "data-filter"; Class "active"];
      sel1 [HasAttr "data-value"; Class "active"];
      sel1 [Class "selected"; HasAttr "data-filter"];
      sel1 [Class "current"; HasAttr "data-filter"] ].

(** Last source: the filter link whose label is the active filter. *)
Definition paramsFromLinks (d : Document) : option entries :=
  firstSome
    (fun linkElement =>
       match detectCurrentFilter d with
       | Some currentFilter =>
           if jseqb (text linkElement) (filterValue currentFilter)
           then Some (parseUrlParams (attrOr "href" linkElement))
           else None
       | None => None
       end)
    (docQueryAll (root d)
       (sel1 [Class "filter-link"; AttrHas "href" "leaderboard"])).

Definition extractFilterParamsFromPage (d : Document) : option entries :=
  match paramsFromPagination d with
  | Some p => Some p
  | None =>
      match paramsFromUrl d with
      | Some p => Some p
      | None =>
          match paramsFromActive d with
          | Some p => Some p
          | None => paramsFromLinks d
          end
      end
  end.

(** Japanese words of the filter labels. *)
Definition kekka : jsstring := [32080; 26524]%N.              (* results *)
Definition foro : jsstring := [12501; 12457; 12525; 12540]%N. (* follow *)
Definition kotoshi : jsstring := [20170; 24180]%N.            (* this year *)
Definition zenkikan : jsstring := [20840; 26399; 38291]%N.    (* all time *)

Definition hiddenInputs : selector :=
  [ [[Tag "input"; AttrEq "type" "hidden"]];
    [[Tag "input"; AttrHas "name" "filter"]];
    [[Tag "input"; AttrHas "name" "view"]];
    [[Tag "input"; AttrHas "name" "segment"]] ].

Definition containerSelector : selector :=
  [ [[HasAttr "data-react-class"]];
    [[HasAttr "data-filter"]];
    [[HasAttr "data-segment-id"]];
    [[HasAttr "data-view"]] ].

(** [/\/segments\/(\d+)/] *)
Definition re_segment : re := cats [word "/segments/"; Grp 1 (plus isDigit)].

(** [name.startsWith('data-')] and [name.replace('data-', '')]. *)
Definition dataName (a : string) : option jsstring :=
  if startsWith (js a) (js "data-")
  then Some (skipn 5 (js a)) else None.

Record FilterRequestData : Type := mkFilterRequestData
  { currentFilter : option Filter; formData : entries }.

(** How [input.value] is read, which the state of the [type] attribute
    decides: the value of the control, the [value] attribute, the [value]
    attribute or [on], the name of the chosen file. *)
Inductive ValueMode : Type :=
| ModeValue
| ModeDefault
| ModeDefaultOn
| ModeFilename.

(** The keywords of [type] are recognised without regard to ASCII case; a
    missing or unknown keyword is the text state. *)
Definition valueMode (inputElement : node) : ValueMode :=
  let keyword := asciiLower (attrOr "type" inputElement) in
  if existsb (jseqb keyword)
       [js "hidden"; js "submit"; js "image"; js "reset"; js "button"]
  then ModeDefault
  else if existsb (jseqb keyword) [js "checkbox"; js "radio"]
  then ModeDefaultOn
  else if jseqb keyword (js "file") then ModeFilename
  else ModeValue.

(** [inputElement.name] and [inputElement.value]: the properties of an
    [HTMLInputElement], not its attributes. *)
Definition inputName (inputElement : node) : jsstring :=
  attrOr "name" inputElement.

Definition inputValue (inputElement : node) : jsstring :=
  match valueMode inputElement with
  | ModeDefault => attrOr "value" inputElement
  | ModeDefaultOn =>
      match getAttribute "value" inputElement with
      | Some v => v
      | None => js "on"
      end
  | ModeValue | ModeFilename => controlValue inputElement
  end.

(** The hidden and filter inputs of every form. *)
Definition withInputs (d : Document) (formData : entries) : entries :=
  fold_left
    (fun fd form =>
       fold_left
         (fun fd' inputElement =>
            let nm := inputName inputElement in
            let vl := inputValue inputElement in
            if truthy nm && truthy vl then setProperty nm vl fd' else fd')
         (querySelectorAll form hiddenInputs) fd)
    (docQueryAll (root d) (sel1 [Tag "form"])) formData.

(** [document.querySelector('.table-leaderboard')?.closest(...)] *)
Definition leaderboardContainer (d : Document) : option node :=
  match hd_error (docAllCtx (root d) (sel1 [Class "table-leaderboard"])) with
  | Some (anc, e) => closest anc e containerSelector
  | None => None
  end.

(** The [data-] attributes of the container of the leaderboard. *)
Definition withDataAttributes (d : Document) (formData : entries) : entries :=
  match leaderboardContainer d with
  | Some c =>
      fold_left
        (fun fd '(a, v) =>
           match dataName a with
           | Some k => setProperty k v fd
           | None => fd
           end)
        (attributes c) formData
  | None => formData
  end.

(** The segment id of the path. *)
Definition withSegmentId (d : Document) (formData : entries) : entries :=
  match exec false re_segment (pathname (location d)) with
  | Some urlMatch => set (js "segment_id") (group 1 urlMatch) formData
  | None => formData
  end.

(** The label of the active filter, read when no parameters were found. *)
Definition withFilterLabel (currentFilter : option Filter)
    (filterParams : option entries) (formData : entries) : entries :=
  match currentFilter, filterParams with
  | Some cf, None =>
      if truthy (filterValue cf) then
        let fv := toLowerCase (filterValue cf) in
        if includes fv (js "my") || includes fv kekka
        then set (js "filter") (js "my_results") formData
        else if includes fv foro || includes fv (js "follow")
        then set (js "filter") (js "following") formData
        else if includes fv kotoshi || includes fv (js "current")
        then set (js "filter") (js "current_year") formData
        else if includes fv zenkikan || includes fv (js "overall")
        then set (js "filter") (js "overall") formData
        else formData
      else formData
  | _, _ => formData
  end.

Definition getFilterRequestData (d : Document) : FilterRequestData :=
  let currentFilter := detectCurrentFilter d in
  let filterParams := extractFilterParamsFromPage d in
  let formData :=
    match filterParams with
    | Some ps => spread [] ps
    | None => []
    end in
  mkFilterRequestData currentFilter
    (withFilterLabel currentFilter filterParams
       (withSegmentId d (withDataAttributes d (withInputs d formData)))).

(** *** Requests *)

Inductive Method : Type := GET | POST.

(** One outbound request: the address without its query, the entries of the
    query (GET) or of the form body (POST), and the headers.  (The value of
    a header is taken to be one [fetch] accepts, made of Latin-1
    characters, as the tokens of a page are.) *)
Record Request : Type := mkRequest
  { method : Method;
    url : jsstring;
    params : entries;
    headers : list (string * jsstring) }.

Definition commonHeaders : list (string * jsstring) :=
  [ ("X-Requested-With"%string, js "XMLHttpRequest");
    ("Accept"%string,
      js "text/html,application/xhtml+xml,application/xml;q=0.9,*/*;q=0.8");
    ("Cache-Control"%string, js "no-cache") ].

(** [s.split('/')]. *)
Fixpoint splitSlash (cur : jsstring) (s : jsstring) : list jsstring :=
  match s with
  | [] => [rev cur]
  | c :: s' =>
      if (c =? 47)%N then rev cur :: splitSlash [] s'
      else splitSlash (c :: cur) s'
  end.

(** The path of the leaderboard endpoint, as both builders compute it. *)
Definition leaderboardPath (path : jsstring) : jsstring :=
  if includes path (js "/leaderboard") then path
  else
    let pathParts := splitSlash [] path in
    if Nat.leb 3 (List.length pathParts)
       && jseqb (nth 1 pathParts []) (js "segments")
    then js "/segments/" ++ nth 2 pathParts [] ++ js "/leaderboard"
    else path.

(** [meta[name="csrf-token"]]'s [content]. *)
Definition csrfToken (d : Document) : option jsstring :=
  match docQuery (root d) (sel1 [Tag "meta"; AttrEq "name" "csrf-token"]) with
  | Some meta => getAttribute "content" meta
  | None => None
  end.

Definition buildFilteredPageRequest (d : Document) (page : Z) : Request :=
  let filterInfo := getFilterRequestData d in
  let baseUrl :=
    origin (location d) ++ leaderboardPath (pathname (location d)) in
  let formData0 := [(js "page", toString page)] in
  (* FormData.append: entries are added, never replaced *)
  let formData1 :=
    fold_left
      (fun fd key =>
         let v := getOr key (formData filterInfo) in
         if truthy v then fd ++ [(toUSV key, toUSV v)] else fd)
      (ownKeys (formData filterInfo)) formData0 in
  match csrfToken d with
  | Some token =>
      if truthy token
      then mkRequest POST baseUrl
             (formData1 ++ [(js "authenticity_token", toUSV token)])
             (commonHeaders ++ [("X-CSRF-Token"%string, token)])
      else mkRequest POST baseUrl formData1 commonHeaders
  | None => mkRequest POST baseUrl formData1 commonHeaders
  end.

End WithHost.

End DOMUtils.
Export DOMUtils.

(* ===================================================================== *)
(** ** components/table_sorter.ts *)
(* ===================================================================== *)

Module TableSorter.

(** What [getCellValue] returns: [string | number | Date]. *)
Inductive value : Type :=
| VString (s : jsstring)
| VNumber (q : Q)
| VDate (t : Z).

(** [v === ''] *)
Definition isEmptyString (v : value) : bool :=
  match v with VString [] => true | _ => false end.

Definition nen : N := 24180.    (* U+5E74, year *)
Definition gatsu : N := 26376.  (* U+6708, month *)
Definition nichi : N := 26085.  (* U+65E5, day *)

(** [/^[\d,]+\.?\d*/] *)
Definition re_numeric : re :=
  cats [Bol; plus (oneOf [isDigit; ch ","]); opt (ch "."); star isDigit].

(** [/(\d{4})年(\d{1,2})月(\d{1,2})日/] *)
Definition re_date : re :=
  cats [Grp 1 (times 4 4 isDigit); Lit nen; Grp 2 (times 1 2 isDigit);
        Lit gatsu; Grp 3 (times 1 2 isDigit); Lit nichi].

(** [/^(\d{1,2}):(\d{2})(?::(\d{2}))?$/] *)
Definition re_duration : re :=
  cats [Bol; Grp 1 (times 1 2 isDigit); Lit 58; Grp 2 (times 2 2 isDigit);
        Alt (Cat (Lit 58) (Grp 3 (times 2 2 isDigit))) Eps; Eol].

(** [row.cells]: the [td] and [th] children of the row. *)
Definition cellsOf (row : node) : list node :=
  filter (fun c => hasTag "td" c || hasTag "th" c) (children row).

(** [row.cells[columnIndex]] *)
Definition cellAt (row : node) (columnIndex : Z) : option node :=
  if (columnIndex <? 0)%Z then None
  else nth_error (cellsOf row) (Z.to_nat columnIndex).

Section WithHost.
Context {host : Host}.

(** The coercions tried on a non-blank text, in order. *)
Definition coerce (txt : jsstring) : value :=
  let numeric :=
    match exec false re_numeric txt with
    | Some numericMatch => parseFloat (removeAll 44 (whole numericMatch))
    | None => None
    end in
  match numeric with
  | Some numericValue => VNumber numericValue
  | None =>
      match exec false re_date txt with
      | Some dm =>
          VDate (makeDate (intOf (group 1 dm)) (intOf (group 2 dm) - 1)
                   (intOf (group 3 dm)))
      | None =>
          match exec false re_duration txt with
          | Some tm =>
              let seconds :=
                match lookup 3 (groups tm) with
                | Some s => s
                | None => js "0"
                end in
              VNumber
                (inject_Z
                   (intOf (group 1 tm) * 3600 + intOf (group 2 tm) * 60
                    + intOf seconds))
          | None => VString (toLowerCase txt)
          end
      end
  end.

(** The special treatment of the rank column: [Some v] when it returns. *)
Definition rankValue (row : DOM.element) (cell : node) (txt : jsstring)
  : option value :=
  if hasAvatar cell then Some (VNumber 1)
  else
    let parsed :=
      if truthy txt && negb (jseqb txt (js "-")) then parseInt txt else None in
    match parsed with
    | Some rankValue => Some (VNumber (inject_Z rankValue))
    | None =>
        match bodyIndex row with
        | Some rowIndex => Some (VNumber (inject_Z (rowIndex + 1)))
        | None => None
        end
    end.

Definition getCellValue (row : DOM.element) (columnIndex : Z) : value :=
  match cellAt (self row) columnIndex with
  | None => VString []
  | Some cell =>
      let txt := text cell in
      match (if (columnIndex =? 0)%Z then rankValue row cell txt else None) with
      | Some v => v
      | None =>
          if negb (truthy txt) || jseqb txt (js "-") then VString []
          else coerce txt
      end
  end.

(** [String(v)] *)
Definition valueToString (v : value) : jsstring :=
  match v with
  | VString s => s
  | VNumber q => numberToString q
  | VDate t => dateToString t
  end.

(** The comparison of two values of the same type with [<] and [>];
    [None] when the types differ. *)
Definition sameType (a b : value) : option comparison :=
  match a, b with
  | VString x, VString y => Some (compareUnits x y)
  | VNumber x, VNumber y => Some (Qcompare x y)
  | VDate x, VDate y => Some (Z.compare x y)
  | _, _ => None
  end.

(** The comparator handed to [sort]. *)
Definition compareRecords (cur : SortConfig) (a b : LeaderboardRecord) : Z :=
  let aValue := getCellValue (element a) (column cur) in
  let bValue := getCellValue (element b) (column cur) in
  if isEmptyString aValue && isEmptyString bValue then 0%Z
  else if isEmptyString aValue then 1%Z
  else if isEmptyString bValue then (-1)%Z
  else
    let result :=
      match sameType aValue bValue with
      | Some Lt => (-1)%Z
      | Some Gt => 1%Z
      | Some Eq => 0%Z
      | None => localeCompare (valueToString aValue) (valueToString bValue)
      end in
    match dir cur with
    | desc => (- result)%Z
    | asc => result
    end.

(** [Array.prototype.sort(cmp)] is the engine's.  For a consistent
    comparator (total and transitive: the values of the column are of one
    kind) the standard fixes what it returns, the stable sorted
    arrangement, and the insertion sort below computes it: an element goes
    before the first one it does not come after.  For a comparator that is
    not consistent (a column of mixed kinds) the order is left to the
    engine, of which the insertion sort is one possible behaviour. *)
Fixpoint insert {A : Type} (cmp : A -> A -> Z) (x : A) (l : list A) : list A :=
  match l with
  | [] => [x]
  | y :: l' => if (cmp x y <=? 0)%Z then x :: l else y :: insert cmp x l'
  end.

Fixpoint sort {A : Type} (cmp : A -> A -> Z) (l : list A) : list A :=
  match l with
  | [] => []
  | x :: l' => insert cmp x (sort cmp l')
  end.

(** Arrays live in a store: a reference is the rank of its allocation. *)
Definition Ref := nat.
Definition Store := list (list LeaderboardRecord).

Definition read (h : Store) (r : Ref) : list LeaderboardRecord :=
  nth r h [].

(** [[...data]]: a new array with the same elements. *)
Definition copyArray (h : Store) (r : Ref) : Store * Ref :=
  (h ++ [read h r], List.length h).

(** Sorting in place. *)
Fixpoint write (h : Store) (r : Ref) (a : list LeaderboardRecord) : Store :=
  match h, r with
  | [], _ => []
  | _ :: h', 0 => a :: h'
  | x :: h', S r' => x :: write h' r' a
  end.

Definition sortInPlace (cmp : LeaderboardRecord -> LeaderboardRecord -> Z)
    (h : Store) (r : Ref) : Store * Ref :=
  (write h r (sort cmp (read h r)), r).

Definition sortData (cur : SortConfig) (h : Store) (data : Ref) : Store * Ref :=
  if (column cur =? -1)%Z then (h, data)
  else
    let '(h1, copy) := copyArray h data in
    sortInPlace (compareRecords cur) h1 copy.

(** [sortByColumn] *)
Definition sortByColumn (cur : SortConfig) (columnIndex : Z) : SortConfig :=
  if (column cur =? columnIndex)%Z
  then mkSort (column cur) (match dir cur with asc => desc | desc => asc end)
  else mkSort columnIndex asc.

End WithHost.

End TableSorter.

(* ===================================================================== *)
(** ** components/page_loader.ts *)
(* ===================================================================== *)

Module PageLoader.

(** The fields of the class that [loadAllPages] reads and writes. *)
Record Loader : Type := mkLoader
  { isLoadingAllPages : bool;
    loadingAborted : bool;
    allPagesData : list LeaderboardRecord }.

(** What the code can observe and change: its own fields, the page, the
    body of its table ([this.table.querySelector('tbody')]), and the
    traces of its effects. *)
Record World : Type := mkWorld
  { loader : Loader;
    doc : Document;
    tbody : option node;
    (** messages of [alert], latest first *)
    alerts : list jsstring;
    (** requests handed to [fetch], latest first *)
    sent : list Request;
    (** the progress indicator is in the page *)
    progressShown : bool;
    (** the load button reads "loading" and is disabled *)
    buttonBusy : bool;
    (** the native pagination was hidden *)
    paginationHidden : bool;
    (** the number of "loaded" notices shown *)
    notices : nat }.

Definition withLoader (l : Loader) (w : World) : World :=
  mkWorld l (doc w) (tbody w) (alerts w) (sent w) (progressShown w)
    (buttonBusy w) (paginationHidden w) (notices w).

Definition withFlags (loading aborted : bool) (w : World) : World :=
  withLoader (mkLoader loading aborted (allPagesData (loader w))) w.

Definition withData (data : list LeaderboardRecord) (w : World) : World :=
  withLoader
    (mkLoader (isLoadingAllPages (loader w)) (loadingAborted (loader w)) data)
    w.

Definition withTbody (tb : option node) (w : World) : World :=
  mkWorld (loader w) (doc w) tb (alerts w) (sent w) (progressShown w)
    (buttonBusy w) (paginationHidden w) (notices w).

Definition withSent (r : Request) (w : World) : World :=
  mkWorld (loader w) (doc w) (tbody w) (alerts w) (r :: sent w)
    (progressShown w) (buttonBusy w) (paginationHidden w) (notices w).

Definition withProgress (b : bool) (w : World) : World :=
  mkWorld (loader w) (doc w) (tbody w) (alerts w) (sent w) b
    (buttonBusy w) (paginationHidden w) (notices w).

Definition withButton (b : bool) (w : World) : World :=
  mkWorld (loader w) (doc w) (tbody w) (alerts w) (sent w) (progressShown w)
    b (paginationHidden w) (notices w).

Definition showLoadedDataInfo (w : World) : World :=
  mkWorld (loader w) (doc w) (tbody w) (alerts w) (sent w) (progressShown w)
    (buttonBusy w) (paginationHidden w) (S (notices w)).

Definition hideOriginalPagination (w : World) : World :=
  match docQuery (root (doc w)) (sel1 [Class "pagination"]) with
  | Some _ =>
      mkWorld (loader w) (doc w) (tbody w) (alerts w) (sent w)
        (progressShown w) (buttonBusy w) true (notices w)
  | None => w
  end.

(** What a [fetch] comes to: a transport error, or a status and the
    document [DOMParser] makes of the body. *)
Inductive Response : Type :=
| NetworkError
| Http (status : Z) (body : node).

(** The surroundings of a run: the answer to the [n]-th request, and
    whether the cancel button is clicked while the code waits for a page
    (the fetches and the pause of one iteration). *)
Record Env : Type := mkEnv
  { fetch : nat -> Request -> Response;
    cancelClicked : Z -> bool }.

(** [tbody.querySelectorAll('tr')], each row with its index (tables
    nested inside a row are not distinguished: a row counts in the body it
    was found in). *)
Fixpoint indexed (i : Z) (l : list node) : list (DOM.element * Z) :=
  match l with
  | [] => []
  | n :: l' => (Element n (Some i), i) :: indexed (i + 1) l'
  end.

Definition rowsOf (tb : node) : list (DOM.element * Z) :=
  indexed 0 (querySelectorAll tb (sel1 [Tag "tr"])).

(** [rows.forEach((row, index) => { const data = parseTableRow(row, index);
    if (data) out.push(data) })] *)
Fixpoint parseRows (post : LeaderboardRecord -> LeaderboardRecord)
    (rows : list (DOM.element * Z)) : list LeaderboardRecord :=
  match rows with
  | [] => []
  | (row, index) :: rows' =>
      match parseTableRow row index with
      | Some data => post data :: parseRows post rows'
      | None => parseRows post rows'
      end
  end.

(** The rows of the current page, parsed into [allPagesData]. *)
Definition parseCurrentPage (w : World) : World :=
  match tbody w with
  | Some tb => withData (parseRows (fun r => r) (rowsOf tb)) w
  | None => w
  end.

(** [{ ...parsedData, element: newRow }] *)
Definition withElement (e : DOM.element) (r : LeaderboardRecord)
  : LeaderboardRecord :=
  mkRecord (rank r) (name r) (date r) (speed r) (heartRate r)
    (averageClimbingSpeed r) (power r) (time r) (timeInSeconds r) e.

Definition parsePageData (d : node) : list LeaderboardRecord :=
  match docQuery d [[ [Class "table-leaderboard"]; [Tag "tbody"] ]] with
  | None => []
  | Some tb =>
      parseRows (fun r => withElement (cloneNode (element r)) r) (rowsOf tb)
  end.

Definition appendAllDataToTable (w : World) : World :=
  match tbody w with
  | None => w
  | Some (Text _) => w
  | Some (Elem t a _) =>
      withTbody
        (Some (Elem t a
                 (map (fun entry => self (cloneNode (element entry)))
                    (allPagesData (loader w)))))
        w
  end.

(** A fetch that fails: a transport error or a status outside 2xx. *)
Definition failed (r : Response) : bool :=
  match r with
  | NetworkError => true
  | Http status _ => negb (((200 <=? status) && (status <=? 299))%Z)
  end.

(** [response.ok] *)
Definition ok (status : Z) : bool := ((200 <=? status) && (status <=? 299))%Z.

(** The [then]/[catch] chain after a [fetch]. *)
Definition received (r : Response) : list LeaderboardRecord :=
  match r with
  | Http status body => if ok status then parsePageData body else []
  | NetworkError => []
  end.

Section WithHost.
Context {host : Host}.

Definition getAllowedParams : list jsstring :=
  [js "club_id"; js "filter"; js "per_page"; js "partial"; js "date_range";
   js "age_group"; js "weight_class"].

Definition importantParams : list jsstring :=
  [js "club_id"; js "per_page"; js "filter"; js "partial"; js "date_range";
   js "age_group"; js "weight_class"].

(** [new URL(window.location.href).searchParams] *)
Definition locationParams (d : Document) : entries :=
  match searchParamsOf (href (location d)) with
  | Some ps => ps
  | None => []
  end.

Definition has (k : jsstring) (o : entries) : bool :=
  match get k o with Some _ => true | None => false end.

(** The request [loadPageDataGET] builds. *)
Definition buildGetRequest (d : Document) (page : Z) : Request :=
  let path := leaderboardPath (pathname (location d)) in
  let filterInfo := getFilterRequestData d in
  let q0 := set (js "page") (toString page) [] in
  let q1 := set (js "partial") (js "true") q0 in
  let q2 :=
    fold_left
      (fun q key =>
         let value := getOr key (formData filterInfo) in
         if truthy value && negb (jseqb key (js "page"))
         then (if member key getAllowedParams
               then set key (toUSV value) q else q)
         else q)
      (ownKeys (formData filterInfo)) q1 in
  let q3 :=
    fold_left
      (fun q param =>
         let value := getOr param (locationParams d) in
         if truthy value && negb (has param q)
         then set param (toUSV value) q else q)
      importantParams q2 in
  mkRequest GET (origin (location d) ++ path) q3 commonHeaders.

(** A [fetch]: the request is recorded and answered. *)
Definition doFetch (env : Env) (r : Request) (w : World) : Response * World :=
  (fetch env (List.length (sent w)) r, withSent r w).

Definition loadPageDataGET (env : Env) (page : Z) (w : World)
  : list LeaderboardRecord * World :=
  let '(response, w1) := doFetch env (buildGetRequest (doc w) page) w in
  (received response, w1).

Definition loadPageData (env : Env) (page : Z) (w : World)
  : list LeaderboardRecord * World :=
  let '(getResult, w1) := loadPageDataGET env page w in
  if Nat.ltb 0 (List.length getResult) then (getResult, w1)
  else
    let requestConfig := buildFilteredPageRequest (doc w1) page in
    let '(response, w2) := doFetch env requestConfig w1 in
    (received response, w2).

(** One turn of the loop body: the page is loaded and what it gave is
    pushed onto [allPagesData]. *)
Definition fetchPage (env : Env) (page : Z) (w : World) : World :=
  let '(pageData, w1) := loadPageData env page w in
  if Nat.ltb 0 (List.length pageData)
  then withData (allPagesData (loader w1) ++ pageData) w1
  else w1.

(** The click handler of the cancel button. *)
Definition clickCancel (w : World) : World :=
  withButton false (withProgress false (withFlags false true w)).

(** The [finally] block. *)
Definition finally (w : World) : World :=
  withButton false (withFlags false false w).

(** How the loop over the pages ends. *)
Inductive LoopEnd : Type :=
| Cancelled (w : World)
| Finished (w : World).

(** [for (let page = 2; page <= totalPages; page++)]: [todo] is the number
    of pages still to visit.  The flag is read at the top of each turn; a
    click on the cancel button takes effect while the turn waits.  No
    statement of the [try] block throws ([loadPageData] resolves in every
    case), so its [catch] branch, the only caller of [alert], is not
    reached. *)
Fixpoint pagesLoop (env : Env) (todo : nat) (page : Z) (w : World) : LoopEnd :=
  match todo with
  | 0 => Finished w
  | S todo' =>
      if loadingAborted (loader w) then Cancelled (withProgress false w)
      else
        let w1 := fetchPage env page w in
        let w2 := if cancelClicked env page then clickCancel w1 else w1 in
        pagesLoop env todo' (page + 1) w2
  end.

(** The entry into the [try] block: button, progress indicator, and the
    rows of the current page. *)
Definition begin (w : World) : World :=
  parseCurrentPage (withProgress true (withButton true (withFlags true false w))).

(** The merge after the loop. *)
Definition complete (w : World) : World :=
  showLoadedDataInfo
    (withProgress false (hideOriginalPagination (appendAllDataToTable w))).

(** [n] turns of the loop during which the cancel button is not touched. *)
Fixpoint fetchPages (env : Env) (n : nat) (page : Z) (w : World) : World :=
  match n with
  | 0 => w
  | S n' => fetchPages env n' (page + 1) (fetchPage env page w)
  end.

Definition loadAllPages (env : Env) (w : World)
  : list LeaderboardRecord * World :=
  if isLoadingAllPages (loader w) then (allPagesData (loader w), w)
  else
    let w0 := withFlags true false w in
    let totalPages := getTotalPages (doc w0) in
    if (totalPages <=? 1)%Z then
      let w1 := showLoadedDataInfo (parseCurrentPage w0) in
      (allPagesData (loader w1), w1)
    else
      match pagesLoop env (Z.to_nat (totalPages - 1)) 2 (begin w0) with
      | Cancelled w1 => (allPagesData (loader w1), finally w1)
      | Finished w1 =>
          let w2 := complete w1 in
          (allPagesData (loader w2), finally w2)
      end.

End WithHost.

End PageLoader.

(* ===================================================================== *)
(** ** A host and a page for the examples *)
(* ===================================================================== *)

Module Sample.

(** Query strings without escapes: the text between [?] and [#], cut at
    [&], each piece cut at its first [=]. *)
Fixpoint after (sep : N) (s : jsstring) : jsstring :=
  match s with
  | [] => []
  | c :: s' => if (c =? sep)%N then s' else after sep s'
  end.

Fixpoint before (sep : N) (s : jsstring) : jsstring :=
  match s with
  | [] => []
  | c :: s' => if (c =? sep)%N then [] else c :: before sep s'
  end.

Fixpoint pieces (sep : N) (cur : jsstring) (s : jsstring) : list jsstring :=
  match s with
  | [] => match cur with [] => [] | _ => [rev cur] end
  | c :: s' =>
      if (c =? sep)%N
      then match cur with [] => pieces sep [] s' | _ => rev cur :: pieces sep [] s' end
      else pieces sep (c :: cur) s'
  end.

Definition searchParams (u : jsstring) : option entries :=
  Some (map (fun kv => (before 61 kv, after 61 kv))
          (pieces 38 [] (before 35 (after 63 u)))).

Definition lower (s : jsstring) : jsstring :=
  map (fun c => if ((65 <=? c) && (c <=? 90))%N then (c + 32)%N else c) s.

Definition collate (a b : jsstring) : Z :=
  match compareUnits a b with Lt => (-1)%Z | Eq => 0%Z | Gt => 1%Z end.

Lemma lower_empty : forall s, lower s = [] -> s = [].
Proof. intros [|c s] H; [reflexivity | discriminate H]. Qed.

#[global] Instance host : Host :=
  mkHost searchParams lower collate
    (fun y m d => (y * 372 + m * 31 + d)%Z) (fun _ => js "0")
    (fun _ => js "date")
    (fun control =>
       match getAttribute "value" control with Some v => v | None => [] end)
    lower_empty.

(** Markup. *)
Definition td (s : string) : node := Elem "td" [] [Text (js s)].
Definition tr (cells : list node) : node := Elem "tr" [] cells.
Definition a (target label : string) : node :=
  Elem "a" [("href"%string, js target)] [Text (js label)].
Definition div (class : string) (kids : list node) : node :=
  Elem "div" [("class"%string, js class)] kids.
Definition row (cells : list node) : DOM.element := Element (tr cells) None.

Definition page (path : string) (body : list node) : Document :=
  mkDocument (Elem "html" [] [Elem "body" [] body])
    (mkLocation (js "https://www.strava.com") (js path)
       (js "https://www.strava.com" ++ js path)).

Definition pageLink (n : string) : node :=
  a ("/segments/123/leaderboard?page=" ++ n) n.

Definition spaced (l : list node) : list node :=
  flat_map (fun n => [n; Text (js " ")]) l.

(** Rows: a ride of more than an hour; a rank cell with an avatar next to
    the number 5; a rank cell that reads -3; and a row whose cells hold a
    speed, a heart rate and a power. *)
Definition longRide : DOM.element :=
  row [td "12"; td "Cy"; td "2024-05-01"; td "1:02:03"].

Definition crowned : DOM.element :=
  row [Elem "td" []
         [Elem "img" [("src"%string, js "/avatars/7.png")] []; Text (js "5")];
       td "Dee"; td "9:59"].

Definition relegated : DOM.element := row [td "-3"; td "Eve"; td "9:59"].

Definition fast : DOM.element :=
  row [td "2"; td "Flo"; td "1,234.5 km/h"; td "185 bpm"; td "250W";
       td "9:59"].

(** A record that holds a row, for [TableSorter], which reads nothing
    else of it. *)
Definition holding (e : DOM.element) : LeaderboardRecord :=
  mkRecord 0 [] [] 0 None 0 None [] 0 e.

Definition unranked : LeaderboardRecord :=
  holding (Element (tr [td ""; td "Bea"; td "9:01"]) (Some 0%Z)).
Definition seventh : LeaderboardRecord :=
  holding (Element (tr [td "7"; td "Bob"; td "-"]) (Some 1%Z)).

(** A leaderboard of several pages: the pagination block, the body of the
    table on the page, and what the server sends for another page. *)
Definition pagination (links : list node) : node := div "pagination" links.

Definition listing (rows : list node) : node :=
  Elem "html" []
    [Elem "table" [("class"%string, js "table-leaderboard")]
       [Elem "tbody" [] rows]].

Definition entry (rank name time : string) : node :=
  tr [td rank; td name; td time].

Definition leaderboard (links : list node) (rows : list node)
  : PageLoader.World :=
  PageLoader.mkWorld (PageLoader.mkLoader false false [])
    (page "/segments/123/leaderboard" [pagination links])
    (Some (Elem "tbody" [] rows)) [] [] false false false 0.

(** Seven pages, linked in no particular order, with a year and a count of
    results in the text; and the same block with a link to a last page
    numbered 1500. *)
Definition shuffled : list node :=
  spaced [pageLink "3"; pageLink "1"; pageLink "7"; pageLink "2";
          pageLink "5"; pageLink "4"; pageLink "6"].

Definition sevenBlock : node :=
  pagination (Text (js "2024 season, 15000 results ") :: shuffled).

Definition sevenPages : Document :=
  page "/segments/123/leaderboard" [sevenBlock].

Definition longBoard : Document :=
  page "/segments/123/leaderboard"
    [pagination
       (shuffled ++ [a "/segments/123/leaderboard?page=1500" "Last"])].



(** A page of a segment with a form of filters: a hidden field whose
    [type] is written in capitals, a check box without [value] attribute,
    a text field, and a hidden field named by a number. *)
Definition input (type name : string) (value : option string) : node :=
  Elem "input"
    (("type"%string, js type) :: ("name"%string, js name)
     :: match value with
        | Some v => [("value"%string, js v)]
        | None => []
        end)
    [].

Definition filters : node :=
  Elem "form" []
    [input "HIDDEN" "token" (Some "t0"%string);
     input "checkbox" "filter_friends" None;
     input "text" "view" (Some "list"%string);
     input "hidden" "7" (Some "x"%string);
     input "hidden" "__proto__" (Some "y"%string)].

Definition filteredPage : Document := page "/segments/123" [filters].

(** The page a request asks for. *)
Definition pageOf (r : Request) : jsstring := getOr (js "page") (params r).

(** Two athletes on the page, and pagination blocks of three and of five
    pages. *)
Definition firstPage : list node :=
  [entry "1" "Ann" "9:01"; entry "2" "Bob" "9:30"].

Definition threePages : PageLoader.World :=
  leaderboard (spaced [pageLink "1"; pageLink "2"; pageLink "3"]) firstPage.

Definition fivePages : PageLoader.World :=
  leaderboard
    (spaced [pageLink "1"; pageLink "2"; pageLink "3"; pageLink "4";
             pageLink "5"])
    firstPage.

(** A server that answers every page with one more athlete. *)
Definition served : node := listing [entry "51" "Zed" "12:00"].

(** The second page cannot be fetched, by GET or by POST; nobody cancels. *)
Definition flaky : PageLoader.Env :=
  PageLoader.mkEnv
    (fun _ r =>
       if jseqb (pageOf r) (js "2") then PageLoader.NetworkError
       else PageLoader.Http 200 served)
    (fun _ => false).

(** Every page arrives; the cancel button is clicked while page 3 is
    awaited. *)
Definition impatient : PageLoader.Env :=
  PageLoader.mkEnv (fun _ _ => PageLoader.Http 200 served)
    (fun p => (p =? 3)%Z).

End Sample.

(* ===================================================================== *)
(** ** The words of the specification *)
(* ===================================================================== *)

Module Spec.

(** A run of decimal digits and its value. *)
Definition allDigits (s : jsstring) : bool := forallb isDigit s.

Definition digitsValue (s : jsstring) : Z :=
  fold_left (fun acc c => (acc * 10 + (Z.of_N c - 48))%Z) s 0%Z.

(** The fields of a text between its colons. *)
Fixpoint fields (cur : jsstring) (s : jsstring) : list jsstring :=
  match s with
  | [] => [rev cur]
  | c :: s' =>
      if (c =? 58)%N then rev cur :: fields [] s' else fields (c :: cur) s'
  end.

Definition isField (f : jsstring) : bool :=
  match f with [] => false | _ => allDigits f end.

(** The decomposition of [MM:SS] and of [H:MM:SS] into seconds. *)
Definition decompose (t : jsstring) : option Z :=
  match fields [] t with
  | [mm; ss] =>
      if isField mm && isField ss
      then Some (digitsValue mm * 60 + digitsValue ss)%Z else None
  | [h; mm; ss] =>
      if isField h && isField mm && isField ss
      then Some (digitsValue h * 3600 + digitsValue mm * 60 + digitsValue ss)%Z
      else None
  | _ => None
  end.





(** *** Page numbers *)

(** An address that carries the page number [n]: it holds a parameter
    [page=] followed by the digits of [n], at the start of the query or
    after [&], and the text [page=] occurs nowhere before it (in the name
    of another parameter, say). *)
Definition numbered (address : jsstring) (n : Z) : Prop :=
  exists pre sep ds rest,
    address = (pre ++ [sep]) ++ js "page=" ++ ds ++ rest
    /\ (sep = 63%N \/ sep = 38%N)
    /\ includes (pre ++ [sep]) (js "page=") = false
    /\ ds <> [] /\ allDigits ds = true
    /\ match rest with c :: _ => isDigit c = false | [] => True end
    /\ n = digitsValue ds.

Definition pageNumbered (link : node) (n : Z) : Prop :=
  exists address,
    getAttribute "href" link = Some address /\ numbered address n.

(** The links whose address holds [page=], below an element and in the
    whole document. *)
Definition holdsPage (link : node) : bool :=
  match getAttribute "href" link with
  | Some address => includes address (js "page=")
  | None => false
  end.

Definition pageLinks (c : node) : list node :=
  filter holdsPage (querySelectorAll c (sel1 [Tag "a"])).

Definition docPageLinks (d : Document) : list node :=
  filter holdsPage (docQueryAll (root d) (sel1 [Tag "a"])).

(** The numbers written in a text: its maximal runs of digits. *)
Fixpoint digitRuns (cur : jsstring) (s : jsstring) : list jsstring :=
  match s with
  | [] => match cur with [] => [] | _ => [rev cur] end
  | c :: s' =>
      if isDigit c then digitRuns (c :: cur) s'
      else match cur with
           | [] => digitRuns [] s'
           | _ => rev cur :: digitRuns [] s'
           end
  end.

Definition numerals (s : jsstring) : list Z :=
  map digitsValue (digitRuns [] s).

(** The numbers a pagination element yields: the page numbers of its links,
    and the numbers of its text that are below 1000. *)
Definition yields (c : node) (n : Z) : Prop :=
  (exists link, In link (pageLinks c) /\ pageNumbered link n)
  \/ (In n (numerals (textContent c)) /\ (n < 1000)%Z).

(** Every link whose address holds [page=] carries a page number. *)
Definition plain (links : list node) : Prop :=
  forall link, In link links -> exists n, pageNumbered link n.

(** The pagination elements of a page, in the order in which
    [getTotalPages] looks for them, and the pages whose links are all
    plain. *)
Definition found (d : Document) (c : node) : Prop :=
  exists s, In s paginationSelectors /\ docQuery (root d) s = Some c.

Definition plainLinks (d : Document) : Prop :=
  (forall c, found d c -> plain (pageLinks c)) /\ plain (docPageLinks d).

End Spec.

(* ===================================================================== *)
(** ** components/page_loader.ts: the export to CSV *)
(* ===================================================================== *)

Module CsvExport.
Import PageLoader.

Definition quote : N := 34.
Definition comma : N := 44.
Definition newline : N := 10.
Definition bom : N := 65279.        (* U+FEFF *)
Definition indicator : N := 8597.   (* U+2195, the sort indicator *)

(** [a.join(sep)] *)
Fixpoint join (sep : jsstring) (l : list jsstring) : jsstring :=
  match l with
  | [] => []
  | [x] => x
  | x :: l' => x ++ sep ++ join sep l'
  end.

(** The header names used when the table has no header row. *)
Definition defaultHeaders : list jsstring :=
  [ [38918; 20301]%N;
    [21517; 21069]%N;
    [26085; 20184]%N;
    [12473; 12500; 12540; 12489]%N;
    [24515; 25293; 25968]%N;
    [24179; 22343; 19978; 26119; 36895; 24230]%N;
    [12497; 12527; 12540]%N;
    [12479; 12452; 12512]%N ].

(** [text.replace(/↕/g, '').trim()] on [th.textContent?.trim() || ''] *)
Definition headerName (th : node) : jsstring :=
  trim (removeAll indicator (text th)).

Definition getTableHeaders (table : node) : list jsstring :=
  match querySelector table (sel1 [Tag "thead"]) with
  | None => defaultHeaders
  | Some thead =>
      match querySelector thead (sel1 [Tag "tr"]) with
      | None => defaultHeaders
      | Some headerRow =>
          filter truthy
            (map headerName (querySelectorAll headerRow (sel1 [Tag "th"])))
      end
  end.

(** An element of [values]: [string | number]. *)
Inductive field : Type :=
| FString (s : jsstring)
| FInteger (n : Z)
| FNumber (q : Q).

(** [x || ''] for a number or [null]. *)
Definition orBlank (x : option Z) : field :=
  match x with
  | Some 0%Z => FString []
  | Some n => FInteger n
  | None => FString []
  end.

Section WithHost.
Context {host : Host}.

(** [String(value)] *)
Definition stringOf (v : field) : jsstring :=
  match v with
  | FString s => s
  | FInteger n => toString n
  | FNumber q => numberToString q
  end.

(** The global replacement of the quote by two quotes. *)
Definition escapeQuotes (s : jsstring) : jsstring :=
  flat_map (fun c => if (c =? quote)%N then [quote; quote] else [c]) s.

(** The treatment of one string value. *)
Definition csvField (stringValue : jsstring) : jsstring :=
  if includes stringValue [comma] || includes stringValue [quote]
     || includes stringValue [newline]
  then quote :: escapeQuotes stringValue ++ [quote]
  else stringValue.

Definition values (record : LeaderboardRecord) : list field :=
  [ FInteger (rank record);
    FString (name record);
    FString (date record);
    FNumber (speed record);
    orBlank (heartRate record);
    FNumber (averageClimbingSpeed record);
    orBlank (power record);
    FString (time record) ].

Definition formatRecordForCSV (record : LeaderboardRecord) : list jsstring :=
  map (fun value => csvField (stringOf value)) (values record).

(** What [exportToCSV] ends with: the alert, or the text handed to the
    [Blob] and the count given to the success message.  (The name of the
    file, made of the title of the page and of the clock, is left out.) *)
Inductive Outcome : Type :=
| Alerted (message : jsstring)
| Downloaded (blob : jsstring) (recordCount : nat).

Definition noData : jsstring :=
  [20986; 21147; 12377; 12427; 12487; 12540; 12479; 12364; 12354; 12426;
   12414; 12379; 12435; 12290; 20840; 12506; 12540; 12472; 35501; 12415;
   36796; 12415; 12434; 23455; 34892; 12375; 12390; 12363; 12425; 12362;
   35430; 12375; 12367; 12384; 12373; 12356; 12290]%N.

(** [hasAllPagesData() ? allPagesData : <the rows of the table>] *)
Definition dataToExport (table : node) (l : Loader) : list LeaderboardRecord :=
  if Nat.ltb 0 (List.length (allPagesData l)) then allPagesData l
  else
    match querySelector table (sel1 [Tag "tbody"]) with
    | Some tbody => parseRows (fun r => r) (rowsOf tbody)
    | None => []
    end.

Definition csvRows (headers : list jsstring) (data : list LeaderboardRecord)
  : list jsstring :=
  join [comma] headers
  :: map (fun record => join [comma] (formatRecordForCSV record)) data.

Definition exportToCSV (table : node) (l : Loader) : Outcome :=
  let data := dataToExport table l in
  if Nat.eqb (List.length data) 0 then Alerted noData
  else
    let csvContent := join [newline] (csvRows (getTableHeaders table) data) in
    Downloaded (bom :: csvContent) (List.length data).

End WithHost.
End CsvExport.

(* ===================================================================== *)
(** ** A reader of CSV text *)
(* ===================================================================== *)

(** The grammar of RFC 4180 with the line feed as record separator: a field
    is a run of units other than the comma, the quote and the line feed, or
    a quoted text in which a quote is written twice. *)
Module CsvReader.
Import CsvExport.

Inductive mode : Type :=
| Start        (* at the first unit of a field *)
| Plain        (* inside a field without quotes *)
| Quoted       (* inside a quoted field *)
| AfterQuote.  (* after a quote met inside a quoted field *)

Definition table := list (list jsstring).

(** The field [cur] is closed (all three accumulators are reversed). *)
Definition closeField (cur : jsstring) (row : list jsstring) : list jsstring :=
  rev cur :: row.

Definition closeRow (cur : jsstring) (row : list jsstring) (acc : table)
  : table :=
  rev (closeField cur row) :: acc.

Fixpoint read (md : mode) (cur : jsstring) (row : list jsstring) (acc : table)
    (s : jsstring) : option table :=
  match s with
  | [] =>
      match md with
      | Quoted => None
      | _ => Some (rev (closeRow cur row acc))
      end
  | c :: s' =>
      match md with
      | Start | Plain =>
          if (c =? comma)%N then read Start [] (closeField cur row) acc s'
          else if (c =? newline)%N then read Start [] [] (closeRow cur row acc) s'
          else if (c =? quote)%N then
            match md with
            | Start => read Quoted cur row acc s'
            | _ => None
            end
          else read Plain (c :: cur) row acc s'
      | Quoted =>
          if (c =? quote)%N then read AfterQuote cur row acc s'
          else read Quoted (c :: cur) row acc s'
      | AfterQuote =>
          if (c =? quote)%N then read Quoted (c :: cur) row acc s'
          else if (c =? comma)%N then read Start [] (closeField cur row) acc s'
          else if (c =? newline)%N then read Start [] [] (closeRow cur row acc) s'
          else None
      end
  end.

Definition readCsv (s : jsstring) : option table := read Start [] [] [] s.

(** A text that needs no quoting. *)
Definition plain (s : jsstring) : bool :=
  forallb
    (fun c => negb ((c =? comma)%N || (c =? quote)%N || (c =? newline)%N)) s.

End CsvReader.

(* ===================================================================== *)
(** ** components/table_sorter.ts: the visibility of the columns *)
(* ===================================================================== *)

Module ColumnControl.

(** [columnVisibility]: a plain object used as a map from names to flags.
    The list holds its own properties. *)
Definition flags := list (jsstring * bool).

(** The own property of a name. *)
Fixpoint flagOf (k : jsstring) (o : flags) : option bool :=
  match o with
  | [] => None
  | (k', v) :: o' => if jseqb k k' then Some v else flagOf k o'
  end.

(** The own property of a name is created or overwritten. *)
Fixpoint define (k : jsstring) (v : bool) (o : flags) : flags :=
  match o with
  | [] => [(k, v)]
  | (k', v') :: o' =>
      if jseqb k k' then (k, v) :: o' else (k', v') :: define k v o'
  end.

(** [o[k] = v] for a boolean [v]: the name [__proto__] is the accessor of
    [Object.prototype], whose setter ignores a value that is neither an
    object nor null; every other name gets an own property. *)
Definition assign (k : jsstring) (v : bool) (o : flags) : flags :=
  if jseqb k proto then o else define k v o.

(** The names every plain object inherits from [Object.prototype]: its
    methods, and [__proto__], which reads as the prototype itself. *)
Definition inherited : list jsstring :=
  [js "constructor"; js "__defineGetter__"; js "__defineSetter__";
   js "hasOwnProperty"; js "__lookupGetter__"; js "__lookupSetter__";
   js "isPrototypeOf"; js "propertyIsEnumerable"; js "toString";
   js "valueOf"; js "__proto__"; js "toLocaleString"].

(** The truthiness of [o[k]]: the own property when there is one, else a
    function or an object when the name is inherited, else
    [undefined]. *)
Definition truthyAt (k : jsstring) (o : flags) : bool :=
  if jseqb k proto then true
  else match flagOf k o with
       | Some b => b
       | None => member k inherited
       end.

(** The fields of the class that the panel reads and writes. *)
Record Sorter : Type := mkSorter
  { columns : list jsstring;
    columnVisibility : flags }.

(** [initializeColumns]: the trimmed texts of the header cells; the field
    keeps its initial value, the empty array, without a header row. *)
Definition initializeColumns (table : node) : list jsstring :=
  match querySelector table (sel1 [Tag "thead"]) with
  | None => []
  | Some thead =>
      match querySelector thead (sel1 [Tag "tr"]) with
      | None => []
      | Some headerRow =>
          map text (querySelectorAll headerRow (sel1 [Tag "th"]))
      end
  end.

(** [this.columns.forEach(columnName => { this.columnVisibility[columnName]
    = v })] *)
Definition assignAll (v : bool) (cols : list jsstring) (o : flags) : flags :=
  fold_left (fun o columnName => assign columnName v o) cols o.

Definition initializeColumnVisibility (cols : list jsstring) : flags :=
  assignAll true cols [].

(** The two fields after the constructor. *)
Definition construct (table : node) : Sorter :=
  let cols := initializeColumns table in
  mkSorter cols (initializeColumnVisibility cols).

(** What the user does on the panel: a change of the check box whose
    [data-column] is [column] ([None]: the attribute is missing), a click
    on the button that selects all, a click on the one that selects none. *)
Inductive event : Type :=
| Change (column : option jsstring) (checked : bool)
| SelectAll
| SelectNone.

(** The listeners of [addColumnControlListeners]. *)
Definition handle (s : Sorter) (e : event) : Sorter :=
  match e with
  | Change (Some columnName) checked =>
      if truthy columnName
      then mkSorter (columns s) (assign columnName checked (columnVisibility s))
      else s
  | Change None _ => s
  | SelectAll => mkSorter (columns s) (assignAll true (columns s) (columnVisibility s))
  | SelectNone => mkSorter (columns s) (assignAll false (columns s) (columnVisibility s))
  end.

Definition handleAll (s : Sorter) (es : list event) : Sorter :=
  fold_left handle es s.

(** The truthiness of [this.columnVisibility[columnName] || false]. *)
Definition isVisible (s : Sorter) (columnName : jsstring) : bool :=
  truthyAt columnName (columnVisibility s).

(** What [updateColumnVisibility] assigns to [style.display] of the header
    cell and of the body cells of rank [index]; [None]: the cell is not
    touched. *)
Definition displayOf (s : Sorter) (index : nat) : option jsstring :=
  match nth_error (columns s) index with
  | Some columnName => Some (if isVisible s columnName then [] else js "none")
  | None => None
  end.

(** The last word on a column name, read off the events: [start] before
    them.  (The name [__proto__] is left to the statements: no word on it
    is kept.) *)
Fixpoint lastWord (columnName : jsstring) (inColumns : bool) (start : bool)
    (es : list event) : bool :=
  match es with
  | [] => start
  | e :: es' =>
      lastWord columnName inColumns
        (match e with
         | Change (Some c) checked =>
             if truthy c && jseqb c columnName then checked else start
         | Change None _ => start
         | SelectAll => if inColumns then true else start
         | SelectNone => if inColumns then false else start
         end)
        es'
  end.

End ColumnControl.

(* ===================================================================== *)
(** ** utils/dom_utils.ts: the pagination element *)
(* ===================================================================== *)

Module Pagination.

Definition findPaginationSelectors : list selector :=
  [ sel1 [Class "pagination"];
    sel1 [Tag "nav"; AttrEq "role" "navigation"];
    sel1 [Tag "ul"; AttrEq "role" "navigation"];
    sel1 [Class "pagination-wrapper"];
    sel1 [Class "leaderboard-pagination"];
    [[ [Tag "nav"]; [Tag "ul"] ]];
    sel1 [Class "pager"] ].

Definition findPagination (d : Document) : option node :=
  firstSome (fun s => docQuery (root d) s) findPaginationSelectors.

End Pagination.

(* ===================================================================== *)
(** ** Orders and logs *)
(* ===================================================================== *)

Module Orders.
Import TableSorter PageLoader.

(** The requests of the turns for the pages [page], [page + 1], ..., in
    the order in which they were sent: each page is asked for with a GET,
    followed or not by a POST for the same page. *)
Inductive pageLog : Z -> nat -> list Request -> Prop :=
| log_end : forall page, pageLog page 0 []
| log_get :
    forall page n g rest,
      method g = GET -> get (js "page") (params g) = Some (toString page) ->
      pageLog (page + 1) n rest ->
      pageLog page (S n) (g :: rest)
| log_get_post :
    forall page n g p rest,
      method g = GET -> get (js "page") (params g) = Some (toString page) ->
      method p = POST -> get (js "page") (params p) = Some (toString page) ->
      pageLog (page + 1) n rest ->
      pageLog page (S n) (g :: p :: rest).

(** A row the parser keeps: three cells or more. *)
Definition wellFormed (row : node) : bool :=
  Nat.leb 3 (List.length (querySelectorAll row (sel1 [Tag "td"]))).

(** The letters and signs that the patterns of a metric ask for, in either
    case: of the speed ([km/h], [mph], [kph], [km]), of the heart rate
    ([bpm] and the heart), of the power ([w], [watts]) and of the time (the
    colon). *)
Definition speedMarks : list N := [107; 75; 109; 77]%N.
Definition heartMarks : list N := [98; 66; heart]%N.
Definition powerMarks : list N := [119; 87]%N.
Definition timeMarks : list N := [58]%N.

Definition isMark (marks : list N) (c : N) : bool := existsb (N.eqb c) marks.

(** A text in which a metric cannot be read: it holds no digit, or none of
    the marks. *)
Definition without (marks : list N) (t : jsstring) : bool :=
  negb (existsb isDigit t && existsb (isMark marks) t).

(** The last value given to a name in a list of entries. *)
Definition lastValue (k : jsstring) (o : entries) : option jsstring :=
  get k (rev o).

(** The kinds of values [getCellValue] returns. *)
Inductive kind : Type := KString | KNumber | KDate.

(** A value of the kind [k], or the empty string of a blank cell. *)
Definition ofKind (k : kind) (v : value) : bool :=
  isEmptyString v ||
  match k, v with
  | KString, VString _ => true
  | KNumber, VNumber _ => true
  | KDate, VDate _ => true
  | _, _ => false
  end.

(** The order that [<] and [>] give to two values of one kind: strings by
    their code units, numbers and dates by their value. *)
Definition precedes (a b : value) : Prop :=
  match a, b with
  | VString x, VString y => compareUnits x y <> Gt
  | VNumber x, VNumber y => (x <= y)%Q
  | VDate x, VDate y => (x <= y)%Z
  | _, _ => False
  end.

(** Two values are the same: strings unit by unit, numbers and dates by
    their value. *)
Definition sameValue (a b : value) : bool :=
  match a, b with
  | VString x, VString y => jseqb x y
  | VNumber x, VNumber y => Qeq_bool x y
  | VDate x, VDate y => (x =? y)%Z
  | _, _ => false
  end.

(** The text of digits and thousands separators, with a digit. *)
Definition grouped (s : jsstring) : bool :=
  forallb (fun c => isDigit c || (c =? 44)%N) s
  && existsb isDigit s.

Section WithHost.
Context {host : Host}.

(** The values of a column, blanks apart, go up, or down, along a list of
    records. *)
Definition ascending (c : Z) (l : list LeaderboardRecord) : Prop :=
  forall i j a b,
    i < j -> nth_error l i = Some a -> nth_error l j = Some b ->
    isEmptyString (getCellValue (element a) c) = false ->
    isEmptyString (getCellValue (element b) c) = false ->
    precedes (getCellValue (element a) c) (getCellValue (element b) c).

Definition descending (c : Z) (l : list LeaderboardRecord) : Prop :=
  forall i j a b,
    i < j -> nth_error l i = Some a -> nth_error l j = Some b ->
    isEmptyString (getCellValue (element a) c) = false ->
    isEmptyString (getCellValue (element b) c) = false ->
    precedes (getCellValue (element b) c) (getCellValue (element a) c).

(** The array [sortData] returns. *)
Definition sorted (cur : SortConfig) (h : Store) (data : Ref)
  : list LeaderboardRecord :=
  read (fst (sortData cur h data)) (snd (sortData cur h data)).

End WithHost.

End Orders.

(* ===================================================================== *)
(** ** More pages for the examples *)
(* ===================================================================== *)

Module Cases.
Import PageLoader.

Definition th (kids : list node) : node := Elem "th" [] kids.

(** A name with a comma and quotes. *)
Definition nickname : jsstring :=
  js "Doe, " ++ [CsvExport.quote] ++ js "JD" ++ [CsvExport.quote] ++ js " Jane".

(** A table with a header row, the name header bearing the sort indicator
    that [TableSorter] appends, and two rows. *)
Definition board : node :=
  Elem "table" [("class"%string, js "table-leaderboard")]
    [ Elem "thead" []
        [Sample.tr
           [th [Text (js "Rank")];
            th [Text (js "Name");
                Elem "span" [("class"%string, js "sort-indicator")]
                  [Text [CsvExport.indicator]]];
            th [Text (js "Time")]]];
      Elem "tbody" []
        [Sample.tr [Sample.td "1"; Elem "td" [] [Text nickname];
                    Sample.td "9:59"];
         Sample.entry "2" "Bob" "10:30"] ].

(** A loader that has loaded nothing. *)
Definition idle : Loader := mkLoader false false [].

(** A leaderboard whose pagination block holds no link. *)
Definition onePage : World := Sample.leaderboard [] Sample.firstPage.

(** Records whose third cell reads a power. *)
Definition watts (w : string) : LeaderboardRecord :=
  Sample.holding (Sample.row [Sample.td "1"; Sample.td "Ann"; Sample.td w]).

Definition powers : TableSorter.Store :=
  [[watts "250"; watts "1,000"; watts "-"; watts "90"]].

(** Records whose third cell reads a time. *)
Definition clocked (t : string) : LeaderboardRecord :=
  Sample.holding (Sample.row [Sample.td "1"; Sample.td "Ann"; Sample.td t]).

Definition clocks : TableSorter.Store :=
  [[clocked "9:59"; clocked "10:05"; clocked "9:01"]].

(** A row whose third cell reads a time. *)
Definition timed : DOM.element :=
  Sample.row [Sample.td "7"; Sample.td "Bob"; Sample.td "9:59"].

(** A segment page without pagination block, with a link to a fourth
    page. *)
Definition loose : Document :=
  Sample.page "/segments/123" [Sample.a "/segments/123?page=4" "last"].

(** An address that names the filter twice. *)
Definition address : jsstring :=
  js "https://www.strava.com/segments/123/leaderboard?filter=overall&page=3&filter=my_results&utm=x".

Definition addressParams : entries :=
  [(js "filter", js "overall"); (js "page", js "3");
   (js "filter", js "my_results"); (js "utm", js "x")].

End Cases.

(* ===================================================================== *)
(** ** Calls of [loadAllPages] between the events of the page *)
(* ===================================================================== *)

(** [loadAllPages] is an [async] function: a call runs until it awaits the
    answer to a request or the end of its pause, and other handlers (a click
    on the cancel button, another call) run in between.  Here a call is cut
    at its [await]s, and the events of the page are played one by one on the
    calls that are under way.  What [PageLoader.loadAllPages] computes in
    one piece is one call played to its end. *)
Module Schedule.
Import PageLoader.

(** Where a call stands: at the [await] of the GET for a page, of the
    fallback POST, of the pause after the page, or at its end. *)
Inductive Point : Type :=
| AwaitGet (page totalPages : Z)
| AwaitPost (page totalPages : Z)
| AwaitPause (page totalPages : Z)
| Returned (result : list LeaderboardRecord).

(** A call: where it stands, and whether the progress indicator it
    created ([progressDiv], a local of the call) is in the page. *)
Record Call : Type := mkCall { point : Point; indicator : bool }.

(** The fields of the loader and the page, shared by the calls; in
    [world], [progressShown] tells whether some indicator is in the
    page. *)
Record System : Type := mkSystem { world : World; calls : list Call }.

Definition inFlight (c : Call) : bool :=
  match point c with
  | Returned _ => false
  | _ => true
  end.

(** What happens in the page. *)
Inductive Event : Type :=
| Invoke                          (* [loadAllPages()] is called *)
| Answer (i : nat) (r : Response) (* the request call [i] awaits is answered *)
| Elapse (i : nat)                (* the pause of call [i] is over *)
| Cancel (i : nat).               (* the cancel button of call [i] is clicked *)

Definition isCancel (e : Event) : bool :=
  match e with Cancel _ => true | _ => false end.

Fixpoint replace {A : Type} (i : nat) (x : A) (l : list A) : list A :=
  match l, i with
  | [], _ => []
  | _ :: l', 0 => x :: l'
  | y :: l', S i' => y :: replace i' x l'
  end.

Definition settle (w : World) (cs : list Call) : System :=
  mkSystem (withProgress (existsb indicator cs) w) cs.

Section WithHost.
Context {host : Host}.

(** The top of a turn of the loop, up to the next [await] or to the end of
    the call: the test of the loop, the test of the abort flag, and the GET
    handed to [fetch]; after the last page, the merge.  The [finally] block
    runs on the way out. *)
Definition turn (page totalPages : Z) (w : World) : Point * World :=
  if (page <=? totalPages)%Z then
    if loadingAborted (loader w) then
      let w1 := withProgress false w in
      (Returned (allPagesData (loader w1)), finally w1)
    else
      (AwaitGet page totalPages, withSent (buildGetRequest (doc w) page) w)
  else
    let w1 := complete w in
    (Returned (allPagesData (loader w1)), finally w1).

(** A call from its first statement to its first [await]. *)
Definition invoke (w : World) : Point * World :=
  if isLoadingAllPages (loader w) then (Returned (allPagesData (loader w)), w)
  else
    let w0 := withFlags true false w in
    let totalPages := getTotalPages (doc w0) in
    if (totalPages <=? 1)%Z then
      let w1 := showLoadedDataInfo (parseCurrentPage w0) in
      (Returned (allPagesData (loader w1)), w1)
    else turn 2 totalPages (begin w0).

(** [this.allPagesData.push(...pageData)] when the page gave records. *)
Definition push (pageData : list LeaderboardRecord) (w : World) : World :=
  if Nat.ltb 0 (List.length pageData)
  then withData (allPagesData (loader w) ++ pageData) w
  else w.

(** The answer to the request a call awaits: the records of a GET are
    pushed, or the fallback POST is handed to [fetch]; the records of a
    POST are pushed.  The pause follows. *)
Definition answer (r : Response) (p : Point) (w : World) : Point * World :=
  match p with
  | AwaitGet page totalPages =>
      if Nat.ltb 0 (List.length (received r))
      then (AwaitPause page totalPages, push (received r) w)
      else (AwaitPost page totalPages,
            withSent (buildFilteredPageRequest (doc w) page) w)
  | AwaitPost page totalPages =>
      (AwaitPause page totalPages, push (received r) w)
  | _ => (p, w)
  end.

(** The end of the pause: [page++] and the next turn. *)
Definition elapse (p : Point) (w : World) : Point * World :=
  match p with
  | AwaitPause page totalPages => turn (page + 1) totalPages w
  | _ => (p, w)
  end.

(** Call [i] goes on with [f], seeing its own indicator. *)
Definition resume (i : nat) (f : Point -> World -> Point * World)
    (s : System) : System :=
  match nth_error (calls s) i with
  | Some c =>
      let '(p, w) := f (point c) (withProgress (indicator c) (world s)) in
      settle w (replace i (mkCall p (progressShown w)) (calls s))
  | None => s
  end.

Definition step (s : System) (e : Event) : System :=
  match e with
  | Invoke =>
      let '(p, w) := invoke (withProgress false (world s)) in
      settle w (calls s ++ [mkCall p (progressShown w)])
  | Answer i r => resume i (answer r) s
  | Elapse i => resume i elapse s
  | Cancel i =>
      match nth_error (calls s) i with
      | Some c =>
          if indicator c
          then settle (clickCancel (world s))
                 (replace i (mkCall (point c) false) (calls s))
          else s
      | None => s
      end
  end.

Definition play (es : list Event) (s : System) : System :=
  fold_left step es s.

(** A page on which no call was made yet. *)
Definition fresh (w : World) : System := mkSystem w [].

(** The events of one call that nothing else interrupts, as
    [PageLoader.Env] gives them: the answers to its requests, and a click
    on its cancel button during the pause of the pages where [env] has
    one. *)
Fixpoint alone (env : Env) (fuel : nat) (i : nat) (s : System) : System :=
  match fuel with
  | 0 => s
  | S fuel' =>
      match nth_error (calls s) i with
      | Some c =>
          match point c with
          | AwaitGet page _ | AwaitPost page _ =>
              let n := Nat.pred (List.length (sent (world s))) in
              let r := fetch env n (hd (buildGetRequest (doc (world s)) page)
                                      (sent (world s))) in
              alone env fuel' i (step s (Answer i r))
          | AwaitPause page _ =>
              let s1 := if cancelClicked env page
                        then step s (Cancel i) else s in
              alone env fuel' i (step s1 (Elapse i))
          | Returned _ => s
          end
      | None => s
      end
  end.

End WithHost.

End Schedule.

(* ===================================================================== *)
(** ** Facts about [PageLoader] *)
(* ===================================================================== *)

Module LoaderFacts.
Import PageLoader.

(** What a fetch leaves alone: everything but the log of requests and the
    accumulated records. *)
Record frame (w w' : World) : Prop := mkFrame
  { frame_doc : doc w' = doc w;
    frame_tbody : tbody w' = tbody w;
    frame_alerts : alerts w' = alerts w;
    frame_progress : progressShown w' = progressShown w;
    frame_button : buttonBusy w' = buttonBusy w;
    frame_pagination : paginationHidden w' = paginationHidden w;
    frame_notices : notices w' = notices w;
    frame_loading :
      isLoadingAllPages (loader w') = isLoadingAllPages (loader w);
    frame_aborted : loadingAborted (loader w') = loadingAborted (loader w) }.

Lemma frame_refl : forall w, frame w w.
Proof. intros w; split; reflexivity. Qed.

Lemma frame_trans : forall w1 w2 w3, frame w1 w2 -> frame w2 w3 -> frame w1 w3.
Proof.
  intros w1 w2 w3 [a1 a2 a3 a4 a5 a6 a7 a8 a9] [b1 b2 b3 b4 b5 b6 b7 b8 b9].
  split; congruence.
Qed.

Section WithHost.
Context {host : Host}.

Lemma loadPageData_frame :
  forall env page w, frame w (snd (loadPageData env page w)).
Proof.
  intros env page w. unfold loadPageData, loadPageDataGET, doFetch.
  destruct (Nat.ltb 0 _); split; reflexivity.
Qed.

Lemma fetchPage_frame : forall env page w, frame w (fetchPage env page w).
Proof.
  intros env page w. unfold fetchPage.
  pose proof (loadPageData_frame env page w) as F.
  destruct (loadPageData env page w) as [pageData w1]. simpl in F.
  destruct (Nat.ltb 0 _); [|exact F].
  destruct F; split; assumption.
Qed.

Lemma fetchPages_frame :
  forall env n page w, frame w (fetchPages env n page w).
Proof.
  intros env n. induction n as [|n IH]; intros page w; simpl.
  - apply frame_refl.
  - eapply frame_trans; [apply fetchPage_frame | apply IH].
Qed.

(** A page whose two requests fail gives nothing, and nothing is pushed. *)
Lemma fetchPage_failed :
  forall env page w,
    failed (fetch env (List.length (sent w)) (buildGetRequest (doc w) page))
    = true ->
    failed (fetch env (S (List.length (sent w)))
              (buildFilteredPageRequest (doc w) page)) = true ->
    loadPageData env page w
    = ([], withSent (buildFilteredPageRequest (doc w) page)
             (withSent (buildGetRequest (doc w) page) w)).
Proof.
  intros env page w Hget Hpost.
  assert (R : forall r, failed r = true -> received r = []).
  { intros [|status body]; simpl; [reflexivity|].
    unfold ok. destruct ((200 <=? status)%Z && (status <=? 299)%Z);
      [discriminate | reflexivity]. }
  unfold loadPageData, loadPageDataGET, doFetch.
  rewrite (R _ Hget). simpl. rewrite (R _ Hpost). reflexivity.
Qed.

(** Turns without a click: the loop runs to its end. *)
Lemma pagesLoop_finished :
  forall env n page w,
    loadingAborted (loader w) = false ->
    (forall q, (page <= q < page + Z.of_nat n)%Z -> cancelClicked env q = false) ->
    pagesLoop env n page w = Finished (fetchPages env n page w).
Proof.
  intros env n. induction n as [|n IH]; intros page w Hab Hno; simpl.
  - reflexivity.
  - rewrite Hab. rewrite (Hno page) by lia.
    apply IH.
    + rewrite (frame_aborted _ _ (fetchPage_frame env page w)). exact Hab.
    + intros q Hq. apply Hno. lia.
Qed.

(** A click during turn [k + 1], with a turn still to come: the next turn
    sees the flag and leaves the loop. *)
Lemma pagesLoop_cancelled :
  forall env k n page w,
    loadingAborted (loader w) = false ->
    (forall q, (page <= q < page + Z.of_nat k)%Z -> cancelClicked env q = false) ->
    cancelClicked env (page + Z.of_nat k) = true ->
    k + 1 < n ->
    pagesLoop env n page w
    = Cancelled (withProgress false (clickCancel (fetchPages env (S k) page w))).
Proof.
  intros env k. induction k as [|k IH]; intros n page w Hab Hno Hyes Hn.
  - destruct n as [|[|n]]; try lia. simpl.
    rewrite Hab. rewrite Z.add_0_r in Hyes. rewrite Hyes. reflexivity.
  - destruct n as [|n]; [lia|].
    change (pagesLoop env (S n) page w)
      with (if loadingAborted (loader w) then Cancelled (withProgress false w)
            else pagesLoop env n (page + 1)
                   (if cancelClicked env page
                    then clickCancel (fetchPage env page w)
                    else fetchPage env page w)).
    rewrite Hab. rewrite (Hno page) by lia.
    rewrite (IH n (page + 1)%Z (fetchPage env page w)).
    + reflexivity.
    + rewrite (frame_aborted _ _ (fetchPage_frame env page w)). exact Hab.
    + intros q Hq. apply Hno. lia.
    + replace (page + 1 + Z.of_nat k)%Z with (page + Z.of_nat (S k))%Z by lia.
      exact Hyes.
    + lia.
Qed.

(** A click during the last turn: no turn is left to see the flag, and the
    loop runs to its end. *)
Lemma pagesLoop_last_click :
  forall env n page w,
    loadingAborted (loader w) = false ->
    (forall q, (page <= q < page + Z.of_nat n)%Z -> cancelClicked env q = false) ->
    cancelClicked env (page + Z.of_nat n) = true ->
    pagesLoop env (S n) page w
    = Finished (clickCancel (fetchPages env (S n) page w)).
Proof.
  intros env n. induction n as [|n IH]; intros page w Hab Hno Hyes.
  - simpl. rewrite Hab. rewrite Z.add_0_r in Hyes. rewrite Hyes. reflexivity.
  - change (pagesLoop env (S (S n)) page w)
      with (if loadingAborted (loader w) then Cancelled (withProgress false w)
            else pagesLoop env (S n) (page + 1)
                   (if cancelClicked env page
                    then clickCancel (fetchPage env page w)
                    else fetchPage env page w)).
    rewrite Hab. rewrite (Hno page) by lia.
    rewrite (IH (page + 1)%Z (fetchPage env page w)).
    + reflexivity.
    + rewrite (frame_aborted _ _ (fetchPage_frame env page w)). exact Hab.
    + intros q Hq. apply Hno. lia.
    + replace (page + 1 + Z.of_nat n)%Z with (page + Z.of_nat (S n))%Z by lia.
      exact Hyes.
Qed.

Lemma begin_frame :
  forall w, tbody (begin w) = tbody w /\ alerts (begin w) = alerts w
            /\ paginationHidden (begin w) = paginationHidden w
            /\ loadingAborted (loader (begin w)) = false
            /\ doc (begin w) = doc w /\ sent (begin w) = sent w.
Proof.
  intros [l d tb al se pr bu pa no]. unfold begin, parseCurrentPage. simpl.
  destruct tb; simpl; repeat split; reflexivity.
Qed.

End WithHost.

(** The merge: what it writes and what it keeps. *)
Lemma complete_spec :
  forall w,
    allPagesData (loader (complete w)) = allPagesData (loader w)
    /\ alerts (complete w) = alerts w
    /\ tbody (complete w)
       = match tbody w with
         | Some (Elem t a _) =>
             Some (Elem t a
                     (map (fun r => self (element r)) (allPagesData (loader w))))
         | other => other
         end.
Proof.
  intros [l d tb al se pr bu pa no].
  unfold complete, hideOriginalPagination, appendAllDataToTable. simpl.
  destruct tb as [[s|t a k]|]; simpl; destruct (docQuery _ _); simpl;
    repeat split; reflexivity.
Qed.

(** The merge hides the pagination element of the page, when there is
    one, and leaves the log of requests alone. *)
Lemma complete_pagination :
  forall w,
    paginationHidden (complete w)
    = match docQuery (root (doc w)) (sel1 [Class "pagination"]) with
      | Some _ => true
      | None => paginationHidden w
      end
    /\ sent (complete w) = sent w.
Proof.
  intros [l d tb al se pr bu pa no].
  unfold complete, hideOriginalPagination, appendAllDataToTable. simpl.
  destruct tb as [[s|t a k]|]; simpl; destruct (docQuery _ _); simpl;
    split; reflexivity.
Qed.

End LoaderFacts.

(* ===================================================================== *)
(** ** The page aggregator: cancellation, failed pages *)
(* ===================================================================== *)

Section LoaderClaims.
Import PageLoader LoaderFacts.
Context {host : Host}.

(** X17.  The abort flag is read at the top of each turn of the loop and
    nowhere else.  When the cancel button is clicked
    while page [p] is awaited, [loadAllPages] makes no request after page
    [p], raises no alert and returns the records accumulated up to page
    [p].  When pages remain after [p], the next turn sees the flag and the
    body of the table is the one the run started with (no merge, pagination
    as before).  When [p] is the last page, no turn is left to see the flag:
    the loop completes and the merge is applied as in a run that nobody
    cancelled, so that the body of the table holds the clones of all the
    records and the pagination of the page is hidden. *)
Theorem loadAllPages_cancelled :
  forall (env : Env) (w : World) (p : Z),
    isLoadingAllPages (loader w) = false ->
    (2 <= p <= getTotalPages (doc w))%Z ->
    cancelClicked env p = true ->
    (forall q, (2 <= q < p)%Z -> cancelClicked env q = false) ->
    let fetched :=
      fetchPages env (Z.to_nat (p - 1)) 2 (begin (withFlags true false w)) in
    let after := snd (loadAllPages env w) in
    fst (loadAllPages env w) = allPagesData (loader fetched)
    /\ allPagesData (loader after) = allPagesData (loader fetched)
    /\ alerts after = alerts w
    /\ sent after = sent fetched
    /\ isLoadingAllPages (loader after) = false
    /\ ((p < getTotalPages (doc w))%Z ->
        tbody after = tbody w
        /\ paginationHidden after = paginationHidden w)
    /\ (p = getTotalPages (doc w) ->
        tbody after
        = match tbody w with
          | Some (Elem t a _) =>
              Some (Elem t a
                      (map (fun r => self (element r))
                         (allPagesData (loader fetched))))
          | other => other
          end
        /\ paginationHidden after
           = match docQuery (root (doc w)) (sel1 [Class "pagination"]) with
             | Some _ => true
             | None => paginationHidden w
             end).
Proof.
  intros env w p Hidle Hp Hclick Hquiet fetched after.
  set (w0 := withFlags true false w).
  destruct (begin_frame w0) as (Btb & Bal & Bpg & Bab & Bdoc & _).
  pose proof (fetchPages_frame env (Z.to_nat (p - 1)) 2 (begin w0)) as F.
  fold fetched in F. destruct F as [Fdoc Ftb Fal _ _ Fpg _ _ _].
  assert (Etb : tbody fetched = tbody w)
    by (transitivity (tbody (begin w0)); [exact Ftb | exact Btb]).
  assert (Eal : alerts fetched = alerts w)
    by (transitivity (alerts (begin w0)); [exact Fal | exact Bal]).
  assert (Epg : paginationHidden fetched = paginationHidden w)
    by (transitivity (paginationHidden (begin w0)); [exact Fpg | exact Bpg]).
  assert (Edoc : doc fetched = doc w)
    by (transitivity (doc (begin w0)); [exact Fdoc | exact Bdoc]).
  assert (Start : loadAllPages env w
                  = match pagesLoop env (Z.to_nat (getTotalPages (doc w) - 1))
                            2 (begin w0) with
                    | Cancelled w1 => (allPagesData (loader w1), finally w1)
                    | Finished w1 =>
                        (allPagesData (loader (complete w1)),
                         finally (complete w1))
                    end).
  { unfold loadAllPages. rewrite Hidle.
    change (doc (withFlags true false w)) with (doc w).
    replace (getTotalPages (doc w) <=? 1)%Z with false
      by (symmetry; apply Z.leb_gt; lia).
    reflexivity. }
  destruct (Z.eq_dec p (getTotalPages (doc w))) as [Hlast|Hmore].
  - (* the click comes while the last page is awaited *)
    assert (L : loadAllPages env w
                = (allPagesData (loader (complete (clickCancel fetched))),
                   finally (complete (clickCancel fetched)))).
    { rewrite Start.
      replace (Z.to_nat (getTotalPages (doc w) - 1))
        with (S (Z.to_nat (p - 2))) by lia.
      rewrite (pagesLoop_last_click env (Z.to_nat (p - 2)) 2%Z (begin w0)).
      - replace (S (Z.to_nat (p - 2))) with (Z.to_nat (p - 1)) by lia.
        reflexivity.
      - exact Bab.
      - intros q Hq. apply Hquiet. lia.
      - replace (2 + Z.of_nat (Z.to_nat (p - 2)))%Z with p by lia.
        exact Hclick. }
    destruct (complete_spec (clickCancel fetched)) as (D & A & T).
    destruct (complete_pagination (clickCancel fetched)) as (P & S).
    unfold after. rewrite L. cbn [fst snd].
    split; [exact D|]. split; [exact D|].
    split; [transitivity (alerts fetched); [exact A | exact Eal]|].
    split; [exact S|]. split; [reflexivity|].
    split; [intros Hlt; lia|]. intros _. split.
    + change (tbody (finally (complete (clickCancel fetched))))
        with (tbody (complete (clickCancel fetched))).
      rewrite T.
      change (tbody (clickCancel fetched)) with (tbody fetched).
      rewrite Etb. reflexivity.
    + change (paginationHidden (finally (complete (clickCancel fetched))))
        with (paginationHidden (complete (clickCancel fetched))).
      rewrite P.
      change (doc (clickCancel fetched)) with (doc fetched).
      change (paginationHidden (clickCancel fetched))
        with (paginationHidden fetched).
      rewrite Edoc, Epg. reflexivity.
  - (* pages remain: the next turn sees the flag *)
    assert (L : loadAllPages env w
                = (allPagesData
                     (loader (withProgress false (clickCancel fetched))),
                   finally (withProgress false (clickCancel fetched)))).
    { rewrite Start.
      rewrite (pagesLoop_cancelled env (Z.to_nat (p - 2))
                 (Z.to_nat (getTotalPages (doc w) - 1)) 2%Z (begin w0)).
      - replace (S (Z.to_nat (p - 2))) with (Z.to_nat (p - 1)) by lia.
        reflexivity.
      - exact Bab.
      - intros q Hq. apply Hquiet. lia.
      - replace (2 + Z.of_nat (Z.to_nat (p - 2)))%Z with p by lia.
        exact Hclick.
      - lia. }
    unfold after. rewrite L. cbn [fst snd].
    split; [reflexivity|]. split; [reflexivity|].
    split; [exact Eal|]. split; [reflexivity|]. split; [reflexivity|].
    split; [|intros E; contradiction].
    intros _. split; [exact Etb | exact Epg].
Qed.

(** C2, as the code has it.  A page [p] whose GET and whose fallback POST
    both fail is handled inside [loadPageData]: it gives no record and
    nothing is pushed.  The run is not aborted and no alert is raised: when
    the cancel button is not touched the loop visits every page, and the
    body of the table is then replaced by the clones of all the records
    accumulated, which are what is returned. *)
Theorem loadAllPages_failed_page :
  forall (env : Env) (w : World) (p : Z),
    isLoadingAllPages (loader w) = false ->
    (2 <= p <= getTotalPages (doc w))%Z ->
    (forall q, cancelClicked env q = false) ->
    let started := begin (withFlags true false w) in
    let reached := fetchPages env (Z.to_nat (p - 2)) 2 started in
    let get := buildGetRequest (doc reached) p in
    let post := buildFilteredPageRequest (doc reached) p in
    failed (fetch env (List.length (sent reached)) get) = true ->
    failed (fetch env (S (List.length (sent reached))) post) = true ->
    let all :=
      fetchPages env (Z.to_nat (getTotalPages (doc w) - 1)) 2 started in
    fetchPage env p reached = withSent post (withSent get reached)
    /\ alerts (snd (loadAllPages env w)) = alerts w
    /\ fst (loadAllPages env w) = allPagesData (loader all)
    /\ tbody (snd (loadAllPages env w))
       = match tbody w with
         | Some (Elem t a _) =>
             Some (Elem t a
                     (map (fun r => self (element r))
                        (fst (loadAllPages env w))))
         | other => other
         end.
Proof.
  intros env w p Hidle Hp Hquiet started reached get post Hget Hpost all.
  set (w0 := withFlags true false w) in *.
  destruct (begin_frame w0) as (Btb & Bal & _ & Bab & _ & _).
  assert (L : loadAllPages env w
              = (allPagesData (loader (complete all)), finally (complete all))).
  { unfold loadAllPages. rewrite Hidle.
    change (doc (withFlags true false w)) with (doc w).
    replace (getTotalPages (doc w) <=? 1)%Z with false
      by (symmetry; apply Z.leb_gt; lia).
    fold w0. rewrite pagesLoop_finished; [reflexivity | exact Bab |].
    intros q _. apply Hquiet. }
  rewrite L.
  pose proof (fetchPages_frame env (Z.to_nat (getTotalPages (doc w) - 1)) 2
                started) as F.
  fold all in F. destruct F as [_ Ftb Fal _ _ _ _ _ _].
  destruct (complete_spec all) as (D & A & T).
  repeat split.
  - unfold fetchPage. rewrite (fetchPage_failed env p reached Hget Hpost).
    reflexivity.
  - transitivity (alerts all); [exact A|].
    transitivity (alerts (begin w0)); [exact Fal | exact Bal].
  - exact D.
  - cbn [fst snd]. rewrite D.
    assert (E : tbody all = tbody w)
      by (transitivity (tbody (begin w0)); [exact Ftb | exact Btb]).
    rewrite <- E. exact T.
Qed.

End LoaderClaims.

Section LoaderExamples.
Import PageLoader.

(** Five pages, a click while the third is awaited: the two athletes of
    the page and the two fetched so far are returned, two requests were
    made, and the body of the table is untouched. *)
Lemma loadAllPages_cancelled_witness :
  getTotalPages (doc Sample.fivePages) = 5%Z
  /\ cancelClicked Sample.impatient 3 = true
  /\ List.length (fst (loadAllPages Sample.impatient Sample.fivePages)) = 4
  /\ tbody (snd (loadAllPages Sample.impatient Sample.fivePages))
     = tbody Sample.fivePages
  /\ List.length (sent (snd (loadAllPages Sample.impatient Sample.fivePages)))
     = 2.
Proof.
  assert (T : getTotalPages (doc Sample.fivePages) = 5%Z)
    by (vm_compute; reflexivity).
  destruct (loadAllPages_cancelled Sample.impatient Sample.fivePages 3)
    as (R & _ & _ & S & _ & B & _).
  - reflexivity.
  - rewrite T. lia.
  - reflexivity.
  - intros q Hq. assert (q = 2%Z) as -> by lia. reflexivity.
  - split; [exact T|]. split; [reflexivity|].
    split; [rewrite R; vm_compute; reflexivity|].
    split; [apply B; rewrite T; lia|]. rewrite S. vm_compute. reflexivity.
Defined.

(** C3 on the code.  On a leaderboard of three pages the cancel button is
    clicked while the third page, the last, is awaited: the abort flag is
    set before the loop completes, no turn is left to read it, and the
    merge is applied.  The body of the table holds four rows where it held
    two, and the pagination is hidden. *)
Lemma cancel_during_the_last_page_still_merges :
  getTotalPages (doc Sample.threePages) = 3%Z
  /\ cancelClicked Sample.impatient 3 = true
  /\ loadingAborted
       (loader
          (clickCancel
             (fetchPages Sample.impatient 2 2
                (begin (withFlags true false Sample.threePages))))) = true
  /\ option_map (fun tb => List.length (children tb))
       (tbody Sample.threePages) = Some 2
  /\ option_map (fun tb => List.length (children tb))
       (tbody (snd (loadAllPages Sample.impatient Sample.threePages)))
     = Some 4
  /\ tbody (snd (loadAllPages Sample.impatient Sample.threePages))
     <> tbody Sample.threePages
  /\ paginationHidden (snd (loadAllPages Sample.impatient Sample.threePages))
     = true.
Proof.
  split; [vm_compute; reflexivity|].
  split; [reflexivity|].
  split; [vm_compute; reflexivity|].
  split; [vm_compute; reflexivity|].
  split; [vm_compute; reflexivity|].
  split; [|vm_compute; reflexivity].
  vm_compute. intro H. discriminate H.
Qed.

(** C2, as stated, fails.  On a leaderboard of three pages whose second
    page fails by GET and by POST, the run goes on to the third page, raises
    no alert, and replaces the body of the table: it holds three rows where
    it held two. *)
Lemma failed_page_does_not_abort :
  (failed (fetch Sample.flaky 0
             (buildGetRequest (doc Sample.threePages) 2)) = true
   /\ failed (fetch Sample.flaky 1
                (buildFilteredPageRequest (doc Sample.threePages) 2)) = true)
  /\ alerts (snd (loadAllPages Sample.flaky Sample.threePages)) = []
  /\ tbody (snd (loadAllPages Sample.flaky Sample.threePages))
     = Some (Elem "tbody" []
               [Sample.entry "1" "Ann" "9:01"; Sample.entry "2" "Bob" "9:30";
                Sample.entry "51" "Zed" "12:00"])
  /\ tbody (snd (loadAllPages Sample.flaky Sample.threePages))
     <> tbody Sample.threePages
  /\ List.length (sent (snd (loadAllPages Sample.flaky Sample.threePages))) = 3.
Proof.
  split; [split; vm_compute; reflexivity|].
  split; [vm_compute; reflexivity|].
  split; [vm_compute; reflexivity|].
  split; [|vm_compute; reflexivity].
  vm_compute. intro H. discriminate H.
Qed.

(** Three pages, the second of which cannot be fetched. *)
Lemma loadAllPages_failed_page_witness :
  failed (fetch Sample.flaky 0
            (buildGetRequest (doc Sample.threePages) 2)) = true
  /\ alerts (snd (loadAllPages Sample.flaky Sample.threePages)) = []
  /\ List.length (fst (loadAllPages Sample.flaky Sample.threePages)) = 3.
Proof.
  destruct (loadAllPages_failed_page Sample.flaky Sample.threePages 2)
    as (_ & A & R & _).
  - reflexivity.
  - vm_compute. split; discriminate.
  - reflexivity.
  - vm_compute. reflexivity.
  - vm_compute. reflexivity.
  - split; [vm_compute; reflexivity|].
    split; [exact A|]. rewrite R. vm_compute. reflexivity.
Defined.

End LoaderExamples.

(* ===================================================================== *)
(** ** Facts about [TableSorter] *)
(* ===================================================================== *)

Module SorterFacts.
Import TableSorter.

(** *** The insertion sort *)

Lemma insert_perm :
  forall (A : Type) (cmp : A -> A -> Z) (x : A) (l : list A),
    Permutation (x :: l) (insert cmp x l).
Proof.
  intros A cmp x l. induction l as [|y l IH]; simpl.
  - apply Permutation_refl.
  - destruct (cmp x y <=? 0)%Z.
    + apply Permutation_refl.
    + eapply perm_trans; [apply perm_swap|]. apply perm_skip. exact IH.
Qed.

Lemma sort_perm :
  forall (A : Type) (cmp : A -> A -> Z) (l : list A),
    Permutation l (sort cmp l).
Proof.
  intros A cmp l. induction l as [|x l IH]; simpl.
  - apply perm_nil.
  - eapply perm_trans; [apply perm_skip; exact IH | apply insert_perm].
Qed.

(** *** Blanks at the end *)

Section BlanksLast.
Variable A : Type.
Variable cmp : A -> A -> Z.
Variable blank : A -> bool.
Hypothesis blank_after :
  forall x y, blank x = true -> blank y = false -> (0 < cmp x y)%Z.
Hypothesis before_blank :
  forall x y, blank x = false -> blank y = true -> (cmp x y <= 0)%Z.





End BlanksLast.

(** *** The store *)

Lemma read_app :
  forall (h : Store) (a : list LeaderboardRecord) (r : Ref),
    r < List.length h -> read (h ++ [a]) r = read h r.
Proof. intros h a r H. unfold read. apply app_nth1. exact H. Qed.

Lemma write_last :
  forall (h : Store) (a b : list LeaderboardRecord),
    write (h ++ [a]) (List.length h) b = h ++ [b].
Proof.
  intros h a b. induction h as [|x h IH]; simpl.
  - reflexivity.
  - rewrite IH. reflexivity.
Qed.

Lemma read_last :
  forall (h : Store) (b : list LeaderboardRecord),
    read (h ++ [b]) (List.length h) = b.
Proof. intros h b. unfold read. apply nth_middle. Qed.

Section WithHost.
Context {host : Host}.

(** What [sortData] does when a column is selected. *)
Lemma sortData_sorted :
  forall cur h data,
    column cur <> (-1)%Z ->
    sortData cur h data
    = (h ++ [sort (compareRecords cur) (read h data)], List.length h).
Proof.
  intros cur h data Hc. unfold sortData.
  destruct (column cur =? -1)%Z eqn:E; [apply Z.eqb_eq in E; contradiction|].
  unfold copyArray, sortInPlace.
  rewrite read_last, write_last. reflexivity.
Qed.

Lemma sortData_unsorted :
  forall cur h data, column cur = (-1)%Z -> sortData cur h data = (h, data).
Proof.
  intros cur h data Hc. unfold sortData. rewrite Hc. reflexivity.
Qed.

(** The comparator puts the empty string last, whatever the direction. *)
Lemma compare_blank_after :
  forall cur x y,
    isEmptyString (getCellValue (element x) (column cur)) = true ->
    isEmptyString (getCellValue (element y) (column cur)) = false ->
    (0 < compareRecords cur x y)%Z.
Proof.
  intros cur x y Hx Hy. unfold compareRecords. rewrite Hx, Hy. simpl. lia.
Qed.

Lemma compare_before_blank :
  forall cur x y,
    isEmptyString (getCellValue (element x) (column cur)) = false ->
    isEmptyString (getCellValue (element y) (column cur)) = true ->
    (compareRecords cur x y <= 0)%Z.
Proof.
  intros cur x y Hx Hy. unfold compareRecords. rewrite Hx, Hy. simpl. lia.
Qed.



End WithHost.
End SorterFacts.

(* ===================================================================== *)
(** ** The sort: blanks, permutation, freshness *)
(* ===================================================================== *)

Section SorterClaims.
Import TableSorter SorterFacts.
Context {host : Host}.


(** C10, as the code has it.  [sortData] changes no array of the store,
    its input among them, and what it returns holds a permutation of the
    input.  With a column selected the array returned is a new one; with
    the column -1 it is the input array itself, in its original order. *)
Theorem sortData_permutation :
  forall (cur : SortConfig) (h : Store) (data : Ref),
    (forall r, r < List.length h -> read (fst (sortData cur h data)) r = read h r)
    /\ Permutation (read h data)
         (read (fst (sortData cur h data)) (snd (sortData cur h data)))
    /\ List.length (read (fst (sortData cur h data)) (snd (sortData cur h data)))
       = List.length (read h data)
    /\ (column cur <> (-1)%Z ->
        snd (sortData cur h data) = List.length h
        /\ List.length (fst (sortData cur h data)) = S (List.length h))
    /\ (column cur = (-1)%Z ->
        sortData cur h data = (h, data)
        /\ read (fst (sortData cur h data)) (snd (sortData cur h data))
           = read h data).
Proof.
  intros cur h data.
  destruct (Z.eq_dec (column cur) (-1)) as [E|E].
  - rewrite (sortData_unsorted cur h data E). simpl.
    split; [reflexivity|]. split; [apply Permutation_refl|].
    split; [reflexivity|]. split; [intros C; contradiction|].
    intros _. split; reflexivity.
  - rewrite (sortData_sorted cur h data E). simpl.
    rewrite read_last.
    split; [intros r Hr; apply read_app; exact Hr|].
    split; [apply sort_perm|].
    split; [symmetry; apply Permutation_length; apply sort_perm|].
    split; [intros _; split; [reflexivity|]|intros C; contradiction].
    rewrite length_app. simpl. lia.
Qed.

End SorterClaims.

Section SorterExamples.
Import TableSorter.



(** C10, as stated, fails for the unsorted state: the array returned is
    the input array, not a new one. *)
Lemma unsorted_returns_the_input_array :
  snd (sortData (mkSort (-1) asc) [[Sample.seventh; Sample.unranked]] 0) = 0
  /\ 0 < List.length [[Sample.seventh; Sample.unranked]]
  /\ fst (sortData (mkSort (-1) asc) [[Sample.seventh; Sample.unranked]] 0)
     = [[Sample.seventh; Sample.unranked]].
Proof.
  split; [reflexivity|]. split; [simpl; lia | reflexivity].
Qed.

(** Sorted on the time column, the two rows come back in a new array, the
    second of the store, and the input array is what it was. *)
Lemma sortData_permutation_witness :
  0 < List.length [[Sample.seventh; Sample.unranked]]
  /\ snd (sortData (mkSort 2 asc) [[Sample.seventh; Sample.unranked]] 0) = 1
  /\ read (fst (sortData (mkSort 2 asc) [[Sample.seventh; Sample.unranked]] 0)) 0
     = [Sample.seventh; Sample.unranked].
Proof.
  destruct (sortData_permutation (mkSort 2 asc)
              [[Sample.seventh; Sample.unranked]] 0) as (K & _ & _ & F & _).
  split; [simpl; lia|].
  split; [apply F; simpl; discriminate|].
  apply K. simpl. lia.
Defined.

End SorterExamples.

(* ===================================================================== *)
(** ** Facts about entries and scans *)
(* ===================================================================== *)

Module EntryFacts.

Lemma jseqb_eq : forall a b, jseqb a b = true <-> a = b.
Proof.
  intros a. induction a as [|x a IH]; intros [|y b]; simpl; split; intros H;
    try reflexivity; try discriminate.
  - apply andb_true_iff in H. destruct H as [H1 H2].
    apply N.eqb_eq in H1. apply IH in H2. subst. reflexivity.
  - injection H as -> ->. rewrite N.eqb_refl. simpl. apply IH. reflexivity.
Qed.

Lemma member_In : forall k l, member k l = true <-> In k l.
Proof.
  intros k l. unfold member. rewrite existsb_exists. split.
  - intros (x & Hx & E). apply jseqb_eq in E. subst. exact Hx.
  - intros H. exists k. split; [exact H | apply jseqb_eq; reflexivity].
Qed.

(** A key of [set k v o] is [k] or a key of [o]. *)
Lemma keys_set :
  forall k v o x, In x (keys (set k v o)) -> x = k \/ In x (keys o).
Proof.
  intros k v o. induction o as [|[k' v'] o IH]; intros x H; simpl in *.
  - destruct H as [H|[]]. left. symmetry. exact H.
  - destruct (jseqb k k') eqn:E; simpl in H.
    + destruct H as [H|H]; [left; symmetry; exact H | right; right; exact H].
    + destruct H as [H|H]; [right; left; exact H|].
      destruct (IH x H) as [H'|H']; [left; exact H' | right; right; exact H'].
Qed.

(** An invariant carried through a [forEach]. *)
Lemma fold_left_inv :
  forall (A B : Type) (f : A -> B -> A) (P : A -> Prop) (R : B -> Prop),
    (forall a b, P a -> R b -> P (f a b)) ->
    forall l a, Forall R l -> P a -> P (fold_left f l a).
Proof.
  intros A B f P R step l. induction l as [|b l IH]; intros a HR HP; simpl.
  - exact HP.
  - inversion HR; subst. apply IH; [assumption|]. apply step; assumption.
Qed.

Lemma firstSome_In :
  forall (A B : Type) (f : A -> option B) (l : list A) (y : B),
    firstSome f l = Some y -> exists x, In x l /\ f x = Some y.
Proof.
  intros A B f l y. induction l as [|x l IH]; simpl; intros H.
  - discriminate H.
  - destruct (f x) eqn:E.
    + injection H as ->. exists x. split; [left; reflexivity | exact E].
    + destruct (IH H) as (x' & Hin & Hx'). exists x'. split; [right|]; assumption.
Qed.







(** [Object.keys] lists the names [keys] lists, in another order. *)
Lemma insertIndex_In :
  forall i k l x,
    In x (map snd (insertIndex i k l)) <-> x = k \/ In x (map snd l).
Proof.
  intros i k l x. induction l as [|[j k'] l IH]; simpl.
  - split; [intros [H|[]]; left; symmetry; exact H
           | intros [H|[]]; left; symmetry; exact H].
  - destruct (i <? j)%N; simpl.
    + split; [intros [H|H]; [left; symmetry; exact H | right; exact H]
             | intros [H|H]; [left; symmetry; exact H | right; exact H]].
    + rewrite IH. split.
      * intros [H|[H|H]]; [right; left; exact H | left; exact H
                          | right; right; exact H].
      * intros [H|[H|H]]; [right; left; exact H | left; exact H
                          | right; right; exact H].
Qed.

Lemma indexKeys_In :
  forall ks x,
    In x (map snd (indexKeys ks)) <-> In x ks /\ isArrayIndex x = true.
Proof.
  intros ks x. induction ks as [|k ks IH]; simpl.
  - split; [intros [] | intros [[] _]].
  - unfold isArrayIndex in *. destruct (arrayIndex k) as [i|] eqn:E.
    + rewrite insertIndex_In, IH. split.
      * intros [->|[H1 H2]]; [split; [left; reflexivity | rewrite E; reflexivity]
                             | split; [right; exact H1 | exact H2]].
      * intros [[->|H1] H2]; [left; reflexivity | right; split; assumption].
    + rewrite IH. split.
      * intros [H1 H2]. split; [right; exact H1 | exact H2].
      * intros [[->|H1] H2]; [rewrite E in H2; discriminate H2
                             | split; assumption].
Qed.

Lemma ownKeys_In : forall o x, In x (ownKeys o) <-> In x (keys o).
Proof.
  intros o x. unfold ownKeys. rewrite in_app_iff, indexKeys_In, filter_In.
  destruct (isArrayIndex x) eqn:E; simpl; split.
  - intros [[H _]|[_ H]]; [exact H | discriminate H].
  - intros H. left. split; [exact H | reflexivity].
  - intros [[_ H]|[H _]]; [discriminate H | exact H].
  - intros H. right. split; [exact H | reflexivity].
Qed.

(** The entries a loop of [append] adds. *)
Lemma appended :
  forall (f : jsstring -> jsstring) (l : list jsstring) (init : entries),
    fold_left
      (fun fd key => let v := f key in
                     if truthy v then fd ++ [(toUSV key, toUSV v)] else fd)
      l init
    = init
      ++ map (fun k => (toUSV k, toUSV (f k)))
           (filter (fun k => truthy (f k)) l).
Proof.
  intros f l. induction l as [|k l IH]; intros init; simpl.
  - rewrite app_nil_r. reflexivity.
  - rewrite IH. destruct (truthy (f k)); [|reflexivity].
    simpl. rewrite <- app_assoc. reflexivity.
Qed.

(** A string without surrogates is a string of scalar values. *)
Lemma toUSV_plain :
  forall s,
    forallb (fun c => negb (isHighSurrogate c || isLowSurrogate c)) s = true ->
    toUSV s = s.
Proof.
  intros s. induction s as [|c s IH]; intros H; [reflexivity|].
  simpl in H. apply andb_true_iff in H. destruct H as [Hc Hs].
  apply negb_true_iff, orb_false_iff in Hc. destruct Hc as [H1 H2].
  cbn [toUSV]. rewrite H1, H2, (IH Hs). reflexivity.
Qed.

Lemma get_keys :
  forall k v (o : entries), get k o = Some v -> In k (keys o).
Proof.
  intros k v o. induction o as [|[k1 v1] o IH]; simpl; intros H.
  - discriminate H.
  - destruct (jseqb k k1) eqn:E.
    + apply jseqb_eq in E. left. symmetry. exact E.
    + right. apply IH. exact H.
Qed.







End EntryFacts.

(* ===================================================================== *)
(** ** The names a page request carries *)
(* ===================================================================== *)

Module RequestFacts.
Import EntryFacts.

Section WithHost.
Context {host : Host}.










(** What follows the form data in the body: the authenticity token of the
    page, when its [meta] element gives one. *)
Definition tokenEntry (d : Document) : entries :=
  match csrfToken d with
  | Some token =>
      if truthy token then [(js "authenticity_token", toUSV token)] else []
  | None => []
  end.


(** The body of the POST request, entry by entry. *)
Lemma buildFilteredPageRequest_body :
  forall d page,
    params (buildFilteredPageRequest d page)
    = (js "page", toString page)
      :: map (fun k =>
                (toUSV k, toUSV (getOr k (formData (getFilterRequestData d)))))
           (filter
              (fun k => truthy (getOr k (formData (getFilterRequestData d))))
              (ownKeys (formData (getFilterRequestData d))))
      ++ tokenEntry d.
Proof.
  intros d page. unfold buildFilteredPageRequest, tokenEntry. cbv zeta.
  rewrite (appended (fun k => getOr k (formData (getFilterRequestData d)))).
  destruct (csrfToken d) as [token|]; [destruct (truthy token)|];
    cbn [params]; try rewrite app_nil_r; reflexivity.
Qed.



End WithHost.
End RequestFacts.

Section RequestClaims.
Import EntryFacts RequestFacts PageLoader.
Context {host : Host}.


End RequestClaims.


(** The inputs of a form are read through their properties.  A hidden
    field is read whatever the case of its [type], a check box without
    [value] attribute gives [on], a name that is a number comes first, and
    the name [__proto__] is not stored. *)
Lemma form_inputs_are_read_as_properties :
  params (buildFilteredPageRequest Sample.filteredPage 2)
  = [(js "page", js "2"); (js "7", js "x"); (js "token", js "t0");
     (js "filter_friends", js "on"); (js "view", js "list");
     (js "segment_id", js "123")].
Proof. vm_compute. reflexivity. Qed.

(* ===================================================================== *)
(** ** The number of pages *)
(* ===================================================================== *)

Module PagesFacts.

(** A running maximum over candidates. *)
Lemma foldmax_spec :
  forall (B : Type) (f : B -> option Z) (step : Z -> B -> Z),
    (forall mx b,
        step mx b
        = match f b with
          | Some n => if (mx <? n)%Z then n else mx
          | None => mx
          end) ->
    forall l m0,
      (m0 <= fold_left step l m0)%Z
      /\ (forall b n, In b l -> f b = Some n -> (n <= fold_left step l m0)%Z)
      /\ (fold_left step l m0 = m0
          \/ exists b, In b l /\ f b = Some (fold_left step l m0)).
Proof.
  intros B f step Hstep l. induction l as [|b l IH]; intros m0; simpl.
  - split; [lia|]. split; [intros b n []|left; reflexivity].
  - destruct (IH (step m0 b)) as (Hge & Hall & Hex).
    assert (S0 : (m0 <= step m0 b)%Z).
    { rewrite Hstep. destruct (f b) as [n|]; [|lia].
      destruct (m0 <? n)%Z eqn:E; [apply Z.ltb_lt in E|]; lia. }
    split; [lia|]. split.
    + intros b' n [->|Hin] Hn.
      * assert ((n <= step m0 b')%Z); [|lia].
        rewrite Hstep, Hn. destruct (m0 <? n)%Z eqn:E;
          [|apply Z.ltb_ge in E]; lia.
      * apply (Hall b' n Hin Hn).
    + destruct Hex as [Heq|(b' & Hin & Hb')].
      * rewrite Heq. rewrite Hstep.
        destruct (f b) as [n|] eqn:Fb; [|left; reflexivity].
        destruct (m0 <? n)%Z; [|left; reflexivity].
        right. exists b. split; [left; reflexivity | exact Fb].
      * right. exists b'. split; [right; exact Hin | exact Hb'].
Qed.

(** A number of the text that counts: below 1000. *)
Definition textPage (numStr : jsstring) : option Z :=
  if (intOf numStr <? 1000)%Z then Some (intOf numStr) else None.

Section WithHost.
Context {host : Host}.

Lemma scanLinks_spec :
  forall links m0,
    (m0 <= scanLinks links m0)%Z
    /\ (forall link n, In link links -> hrefPage link = Some n ->
                       (n <= scanLinks links m0)%Z)
    /\ (scanLinks links m0 = m0
        \/ exists link, In link links
                        /\ hrefPage link = Some (scanLinks links m0)).
Proof.
  intros links m0. unfold scanLinks.
  apply (foldmax_spec _ hrefPage). intros mx b. reflexivity.
Qed.

Lemma scanText_spec :
  forall txt m0,
    let found := matchAll false (plus isDigit) txt in
    (m0 <= scanText txt m0)%Z
    /\ (forall s n, In s found -> textPage s = Some n ->
                    (n <= scanText txt m0)%Z)
    /\ (scanText txt m0 = m0
        \/ exists s, In s found /\ textPage s = Some (scanText txt m0)).
Proof.
  intros txt m0 found. unfold scanText.
  apply (foldmax_spec _ textPage). intros mx b. unfold textPage.
  destruct (intOf b <? 1000)%Z; destruct (mx <? intOf b)%Z; reflexivity.
Qed.

Lemma scanPagination_ge :
  forall pg m0, (m0 <= scanPagination pg m0)%Z.
Proof.
  intros pg m0. unfold scanPagination.
  destruct (scanText_spec (textContent pg)
              (scanLinks (querySelectorAll pg pageLinkSelector) m0))
    as (H1 & _).
  destruct (scanLinks_spec (querySelectorAll pg pageLinkSelector) m0)
    as (H2 & _).
  lia.
Qed.

Lemma scanSelectors_ge :
  forall doc sels m0, (m0 <= scanSelectors doc sels m0)%Z.
Proof.
  intros doc sels. induction sels as [|s sels IH]; intros m0; simpl.
  - lia.
  - destruct (docQuery doc s) as [pg|]; [|apply IH].
    pose proof (scanPagination_ge pg m0).
    destruct (1 <? scanPagination pg m0)%Z; [lia|].
    specialize (IH (scanPagination pg m0)). lia.
Qed.

Lemma scanSelectors_skip :
  forall doc before rest m0,
    Forall (fun s => docQuery doc s = None) before ->
    scanSelectors doc (before ++ rest) m0 = scanSelectors doc rest m0.
Proof.
  intros doc before rest m0 H. induction H as [|s before Hs _ IH]; simpl.
  - reflexivity.
  - rewrite Hs. exact IH.
Qed.

End WithHost.
End PagesFacts.


(* ===================================================================== *)
(** ** Facts about numbers and patterns *)
(* ===================================================================== *)

Module PatternFacts.

(** The code unit before a position, after a run of units. *)
Definition lastOf (pv : option N) (ds : jsstring) : option N :=
  fold_left (fun _ c => Some c) ds pv.

(** A greedy quantifier over a class takes the whole run of units of the
    class, when the continuation accepts what follows. *)
Lemma repc_greedy :
  forall (p : N -> bool) (ds rest : jsstring),
    forallb p ds = true ->
    match rest with c :: _ => p c = false | [] => True end ->
    forall (mn : nat) (k : K) (n : nat) (pv : option N) cs r,
      mn <= List.length ds ->
      k (MState (n + List.length ds) (lastOf pv ds) rest cs) = Some r ->
      repc p mn None k n pv cs (ds ++ rest) = Some r.
Proof.
  intros p ds rest Hds Hrest. induction ds as [|d ds IH];
    intros mn k n pv cs r Hmn Hk.
  - simpl in Hmn. assert (mn = 0) as -> by lia.
    simpl in Hk. rewrite Nat.add_0_r in Hk. simpl.
    destruct rest as [|c rest]; simpl; [exact Hk|].
    rewrite Hrest. exact Hk.
  - simpl in Hds. apply andb_true_iff in Hds. destruct Hds as [Hd Hds].
    simpl. rewrite Hd.
    rewrite (IH Hds (Nat.pred mn) k (S n) (Some d) cs r).
    + reflexivity.
    + simpl in Hmn. lia.
    + simpl in Hk. replace (S n + List.length ds) with (n + S (List.length ds))
        by lia. exact Hk.
Qed.

Lemma firstn_exact :
  forall (a b : jsstring) (n : nat),
    n = List.length a -> firstn n (a ++ b) = a.
Proof.
  intros a b n ->. rewrite firstn_app, Nat.sub_diag, firstn_all. simpl.
  apply app_nil_r.
Qed.

(** *** Decimal numerals *)

Lemma digit_range :
  forall c, isDigit c = true -> (48 <= c <= 57)%N.
Proof.
  intros c H. unfold isDigit in H. apply andb_true_iff in H.
  destruct H as [H1 H2]. apply N.leb_le in H1, H2. lia.
Qed.

Lemma digit_not_space : forall c, isDigit c = true -> isWhiteSpace c = false.
Proof.
  intros c H. apply digit_range in H. unfold isWhiteSpace.
  repeat match goal with
         | |- context [(?a <=? ?b)%N] =>
             let E := fresh in
             destruct (a <=? b)%N eqn:E;
             [apply N.leb_le in E | apply N.leb_gt in E]
         | |- context [(?a =? ?b)%N] =>
             let E := fresh in
             destruct (a =? b)%N eqn:E;
             [apply N.eqb_eq in E | apply N.eqb_neq in E]
         end; simpl; try reflexivity; lia.
Qed.

Lemma digitValue_digit :
  forall c, isDigit c = true -> digitValue 10 c = Some (Z.of_N c - 48)%Z.
Proof.
  intros c H. unfold digitValue. rewrite H. apply digit_range in H.
  replace (Z.of_N c - 48 <? 10)%Z with true; [reflexivity|].
  symmetry. apply Z.ltb_lt. lia.
Qed.

Lemma readDigits_digits :
  forall ds acc,
    Spec.allDigits ds = true ->
    readDigits 10 (Some acc) ds
    = Some (fold_left (fun a c => (a * 10 + (Z.of_N c - 48))%Z) ds acc).
Proof.
  intros ds. induction ds as [|d ds IH]; intros acc H; simpl.
  - reflexivity.
  - simpl in H. apply andb_true_iff in H. destruct H as [Hd Hds].
    rewrite (digitValue_digit d Hd). apply IH. exact Hds.
Qed.

(** [parseInt] reads a run of digits as its decimal value. *)
Lemma parseInt_digits :
  forall ds,
    ds <> [] -> Spec.allDigits ds = true ->
    parseInt ds = Some (Spec.digitsValue ds).
Proof.
  intros [|d ds] Hne H; [contradiction|].
  simpl in H. apply andb_true_iff in H. destruct H as [Hd Hds].
  pose proof (digit_range d Hd) as Rd.
  unfold parseInt. simpl trimStart. rewrite (digit_not_space d Hd).
  unfold signOf.
  replace (d =? 45)%N with false by (symmetry; apply N.eqb_neq; lia).
  replace (d =? 43)%N with false by (symmetry; apply N.eqb_neq; lia).
  assert (R : radixOf (d :: ds) = (10%Z, d :: ds)).
  { unfold radixOf. destruct ds as [|d2 ds]; [reflexivity|].
    simpl in Hds. apply andb_true_iff in Hds. destruct Hds as [Hd2 _].
    pose proof (digit_range d2 Hd2).
    replace (d2 =? 120)%N with false by (symmetry; apply N.eqb_neq; lia).
    replace (d2 =? 88)%N with false by (symmetry; apply N.eqb_neq; lia).
    rewrite andb_false_r. reflexivity. }
  rewrite R. simpl readDigits. rewrite (digitValue_digit d Hd).
  rewrite (readDigits_digits ds _ Hds). unfold Spec.digitsValue. simpl.
  reflexivity.
Qed.

(** A match at the position where the search starts is the one found. *)
Lemma search_here :
  forall ci r n pv s res,
    matchAt ci r n pv s = Some res -> search ci r n pv s = Some res.
Proof.
  intros ci r n pv s res H. destruct s; simpl; rewrite H; reflexivity.
Qed.

(** *** The time pattern *)

(** On [mm:ss], possibly followed by something that is not a digit, the
    pattern matches at the start and captures the two runs of digits. *)
Lemma exec_re_time :
  forall mm ss tail,
    mm <> [] -> ss <> [] ->
    Spec.allDigits mm = true -> Spec.allDigits ss = true ->
    match tail with c :: _ => isDigit c = false | [] => True end ->
    exists mt,
      exec false re_time (mm ++ 58%N :: ss ++ tail) = Some mt
      /\ group 1 mt = mm /\ group 2 mt = ss.
Proof.
  intros mm ss tail Hmm Hss Dmm Dss Htail.
  set (s := mm ++ 58%N :: ss ++ tail).
  assert (M : m false re_time Some (MState 0 None s [])
              = Some (MState (S (List.length mm) + List.length ss)
                        (lastOf (Some 58%N) ss) tail [(2, ss); (1, mm)])).
  { unfold re_time, cats, plus. cbn [m pos prev rest caps].
    apply repc_greedy.
    - exact Dmm.
    - reflexivity.
    - destruct mm; [contradiction | simpl; lia].
    - cbn [m pos prev rest caps]. simpl fold. rewrite N.eqb_refl.
      apply repc_greedy.
      + exact Dss.
      + exact Htail.
      + destruct ss; [contradiction | simpl; lia].
      + cbn [pos prev rest caps].
        rewrite (firstn_exact ss tail) by lia.
        rewrite Nat.sub_0_r.
        unfold s. rewrite (firstn_exact mm (58%N :: ss ++ tail)) by lia.
        reflexivity. }
  eexists. split.
  - unfold exec. apply search_here. unfold matchAt. fold s. rewrite M.
    reflexivity.
  - split; reflexivity.
Qed.

Lemma parseTimeToSeconds_mmss :
  forall mm ss tail,
    mm <> [] -> ss <> [] ->
    Spec.allDigits mm = true -> Spec.allDigits ss = true ->
    match tail with c :: _ => isDigit c = false | [] => True end ->
    parseTimeToSeconds (mm ++ 58%N :: ss ++ tail)
    = (Spec.digitsValue mm * 60 + Spec.digitsValue ss)%Z.
Proof.
  intros mm ss tail Hmm Hss Dmm Dss Htail.
  destruct (exec_re_time mm ss tail Hmm Hss Dmm Dss Htail) as (mt & E & G1 & G2).
  unfold parseTimeToSeconds. rewrite E, G1, G2. unfold intOf.
  rewrite (parseInt_digits mm Hmm Dmm), (parseInt_digits ss Hss Dss).
  reflexivity.
Qed.

End PatternFacts.

(* ===================================================================== *)
(** ** Facts about page numbers *)
(* ===================================================================== *)

Module PageNumberFacts.
Import PagesFacts PatternFacts EntryFacts.

(** *** The pattern of a page number *)

(** A literal word does not match where the text does not start with
    it. *)
Lemma lits_fails :
  forall (w : jsstring) (k : K) (st : mstate),
    startsWith (rest st) w = false -> m false (lits w) k st = None.
Proof.
  intros w. induction w as [|c w IH]; intros k st H.
  - destruct st as [n pv s cs]. destruct s; discriminate H.
  - destruct st as [n pv s cs]. cbn [rest] in H.
    destruct s as [|x s]; [destruct w; reflexivity|].
    cbn [startsWith] in H.
    destruct w as [|c2 w].
    + cbn [lits m rest]. unfold fold. cbn [andb].
      rewrite N.eqb_sym.
      destruct (c =? x)%N eqn:E; [|reflexivity].
      destruct s; discriminate H.
    + change (lits (c :: c2 :: w)) with (Cat (Lit c) (lits (c2 :: w))).
      cbn [m rest]. unfold fold. cbn [andb]. rewrite N.eqb_sym.
      destruct (c =? x)%N eqn:E; [|reflexivity].
      apply IH. exact H.
Qed.

(** A search passes over the units at which the text does not start with
    the first word of the pattern. *)
Lemma search_passes :
  forall (w : jsstring) (r : re) (pre s : jsstring) (n : nat) (pv : option N),
    (forall i, i < List.length pre ->
               startsWith (skipn i (pre ++ s)) w = false) ->
    search false (Cat (lits w) r) n pv (pre ++ s)
    = search false (Cat (lits w) r) (n + List.length pre) (lastOf pv pre) s.
Proof.
  intros w r pre. induction pre as [|c pre IH]; intros s n pv H.
  - simpl. rewrite Nat.add_0_r. reflexivity.
  - cbn [app search]. unfold matchAt. cbn [m].
    rewrite lits_fails by (apply (H 0); simpl; lia).
    rewrite IH.
    + cbn [List.length lastOf fold_left].
      replace (S n + List.length pre) with (n + S (List.length pre)) by lia.
      reflexivity.
    + intros i Hi. apply (H (S i)). simpl. lia.
Qed.

Lemma startsWith_app_long :
  forall (w pre x : jsstring),
    List.length w <= List.length pre ->
    startsWith (pre ++ x) w = startsWith pre w.
Proof.
  intros w. induction w as [|c w IH]; intros pre x H.
  - destruct pre; destruct x; reflexivity.
  - destruct pre as [|y pre]; [simpl in H; lia|].
    cbn [app startsWith]. rewrite IH by (simpl in H; lia). reflexivity.
Qed.

(** Where [page=] does not occur in what precedes, the text does not start
    with it before the place where it stands. *)
Lemma page_not_before :
  forall (pre s : jsstring) (i : nat),
    includes pre (js "page=") = false ->
    i < List.length pre ->
    startsWith (skipn i (pre ++ js "page=" ++ s)) (js "page=") = false.
Proof.
  intros pre. induction pre as [|c pre IH]; intros s i H Hi.
  - simpl in Hi. lia.
  - cbn [includes] in H. apply orb_false_iff in H. destruct H as [H0 H].
    destruct i as [|i].
    + cbn [skipn]. clear IH H Hi.
      destruct (Nat.leb 5 (List.length (c :: pre))) eqn:Long.
      * apply Nat.leb_le in Long.
        rewrite startsWith_app_long by exact Long. exact H0.
      * apply Nat.leb_gt in Long. clear H0.
        change (js "page=") with [112; 97; 103; 101; 61]%N.
        destruct pre as [|c2 [|c3 [|c4 [|c5 pre]]]];
          [| | | |simpl in Long; lia];
          cbn [app startsWith];
          repeat match goal with
                 | |- context [(?a =? ?b)%N] =>
                     is_var b; destruct (a =? b)%N; cbn [andb]
                 end;
          reflexivity.
    + cbn [app skipn]. apply IH; [exact H | simpl in Hi; lia].
Qed.

(** The pattern of the page number finds the digits after the first
    [page=]. *)
Lemma exec_re_page :
  forall pre ds more,
    includes pre (js "page=") = false ->
    ds <> [] -> Spec.allDigits ds = true ->
    match more with c :: _ => isDigit c = false | [] => True end ->
    exists mt,
      exec false re_page (pre ++ js "page=" ++ ds ++ more) = Some mt
      /\ group 1 mt = ds.
Proof.
  intros pre ds more Hpre Hne Hds Hmore.
  set (n := List.length pre).
  set (pv := lastOf None pre).
  assert (M : m false re_page Some
                (MState n pv (js "page=" ++ ds ++ more) [])
              = Some (MState (n + 5 + List.length ds) (lastOf (Some 61%N) ds)
                        more [(1, ds)])).
  { unfold re_page, cats, word, plus. simpl lits.
    cbn [m pos prev rest caps app js]. simpl fold. cbn [N.eqb Pos.eqb].
    cbn [m pos prev rest caps].
    apply repc_greedy.
    - exact Hds.
    - exact Hmore.
    - destruct ds; [contradiction | simpl; lia].
    - cbn [pos prev rest caps].
      replace (S (S (S (S (S n)))) + List.length ds
               - S (S (S (S (S n))))) with (List.length ds) by lia.
      rewrite (firstn_exact ds more) by reflexivity.
      replace (S (S (S (S (S n)))) + List.length ds)
        with (n + 5 + List.length ds) by lia.
      reflexivity. }
  eexists. split.
  - unfold exec, re_page, cats, word.
    rewrite (search_passes (js "page=") (Grp 1 (plus isDigit)) pre
               (js "page=" ++ ds ++ more) 0 None).
    + apply search_here. unfold matchAt.
      change (Cat (lits (js "page=")) (Grp 1 (plus isDigit))) with re_page.
      cbn [Nat.add]. fold n. fold pv. rewrite M. reflexivity.
    + intros i Hi. apply page_not_before; assumption.
  - reflexivity.
Qed.

(** The code reads the page number of an address that carries one. *)
Lemma hrefPage_numbered :
  forall link n, Spec.pageNumbered link n -> hrefPage link = Some n.
Proof.
  intros link n (address & Ha & pre & sep & ds & more & E & _ & Hpre & Hne
                 & Hds & Hmore & ->).
  unfold hrefPage. rewrite Ha.
  destruct (exec_re_page (pre ++ [sep]) ds more Hpre Hne Hds Hmore)
    as (mt & Em & Gm).
  rewrite E.
  replace (truthy ((pre ++ [sep]) ++ js "page=" ++ ds ++ more)) with true
    by (destruct pre; reflexivity).
  rewrite Em, Gm. unfold intOf. rewrite (parseInt_digits ds Hne Hds).
  reflexivity.
Qed.

(** On plain links, the numbers the code reads are the page numbers. *)
Lemma numbered_hrefPage :
  forall links link n,
    Spec.plain links -> In link links ->
    hrefPage link = Some n -> Spec.pageNumbered link n.
Proof.
  intros links link n P Hin H.
  destruct (P link Hin) as (n' & N).
  pose proof (hrefPage_numbered link n' N) as H'.
  rewrite H in H'. injection H' as ->. exact N.
Qed.

(** *** The links the code looks at *)

Lemma matches_pageLink :
  forall anc e,
    matches anc e pageLinkSelector
    = matches anc e (sel1 [Tag "a"]) && Spec.holdsPage e.
Proof.
  intros anc e. unfold matches, pageLinkSelector, sel1, matchesComplex.
  cbn [existsb rev app]. unfold matchesCompound. cbn [forallb].
  replace (matchesAncestors anc []) with true by (destruct anc; reflexivity).
  assert (A : matchesSimple e (AttrHas "href" "page=")
              = isElement e && Spec.holdsPage e).
  { unfold matchesSimple, Spec.holdsPage.
    destruct (getAttribute "href" e); reflexivity. }
  rewrite A.
  destruct (isElement e); [|reflexivity]. cbn [andb].
  destruct (matchesSimple e (Tag "a")); [|reflexivity]. cbn [andb orb].
  destruct (Spec.holdsPage e); reflexivity.
Qed.

(** A selector that adds a test on the element to another selects, of
    what the other selects, the elements that pass the test. *)
Lemma select_narrower :
  forall (l : list (list node * node)) (s s0 : selector) (g : node -> bool),
    (forall anc e, matches anc e s = matches anc e s0 && g e) ->
    map snd (filter (fun '(anc, e) => matches anc e s) l)
    = filter g (map snd (filter (fun '(anc, e) => matches anc e s0) l)).
Proof.
  intros l s s0 g H. induction l as [|[anc e] l IH]; simpl.
  - reflexivity.
  - rewrite H. destruct (matches anc e s0); simpl; [|exact IH].
    destruct (g e); simpl; rewrite IH; reflexivity.
Qed.

Lemma pageLinks_below :
  forall c, querySelectorAll c pageLinkSelector = Spec.pageLinks c.
Proof.
  intros c. unfold Spec.pageLinks, querySelectorAll, queryAllCtx.
  apply select_narrower. exact matches_pageLink.
Qed.

Lemma pageLinks_document :
  forall d, docQueryAll (root d) pageLinkSelector = Spec.docPageLinks d.
Proof.
  intros d. unfold Spec.docPageLinks, docQueryAll, docAllCtx.
  apply select_narrower. exact matches_pageLink.
Qed.

(** *** The numbers of a text *)

Lemma lastOf_app :
  forall a b pv, lastOf pv (a ++ b) = lastOf (lastOf pv a) b.
Proof. intros a b pv. unfold lastOf. apply fold_left_app. Qed.

(** The units a match is still to pass are passed. *)
Lemma scanAll_skip :
  forall ci r xs more n pv,
    scanAll ci r (List.length xs) n pv (xs ++ more)
    = scanAll ci r 0 (n + List.length xs) (lastOf pv xs) more.
Proof.
  intros ci r xs. induction xs as [|x xs IH]; intros more n pv.
  - simpl. rewrite Nat.add_0_r. reflexivity.
  - cbn [List.length app].
    change (scanAll ci r (S (List.length xs)) n pv (x :: xs ++ more))
      with (scanAll ci r (List.length xs) (S n) (Some x) (xs ++ more)).
    rewrite IH. cbn [lastOf fold_left].
    replace (S n + List.length xs) with (n + S (List.length xs)) by lia.
    reflexivity.
Qed.

(** A run of digits is one match. *)
Lemma matchAt_digits :
  forall ds more n pv,
    ds <> [] -> Spec.allDigits ds = true ->
    match more with c :: _ => isDigit c = false | [] => True end ->
    matchAt false (plus isDigit) n pv (ds ++ more) = Some (Result n ds []).
Proof.
  intros ds more n pv Hne Hds Hmore. unfold matchAt, plus. cbn [m pos prev rest caps].
  rewrite (repc_greedy isDigit ds more Hds Hmore 1 Some n pv []
             (MState (n + List.length ds) (lastOf pv ds) more [])).
  - cbn [pos caps].
    replace (n + List.length ds - n) with (List.length ds) by lia.
    rewrite (firstn_exact ds more) by reflexivity. reflexivity.
  - destruct ds; [contradiction | simpl; lia].
  - reflexivity.
Qed.

Lemma matchAt_no_digit :
  forall s n pv,
    match s with c :: _ => isDigit c = false | [] => True end ->
    matchAt false (plus isDigit) n pv s = None.
Proof.
  intros s n pv H. unfold matchAt, plus. cbn [m pos prev rest caps].
  destruct s as [|c s]; simpl; [reflexivity|]. rewrite H. reflexivity.
Qed.

(** A text is a run of digits, possibly empty, followed by nothing or by
    a unit that is no digit. *)
Lemma digits_first :
  forall s,
    exists ds more,
      s = ds ++ more /\ Spec.allDigits ds = true
      /\ match more with c :: _ => isDigit c = false | [] => True end.
Proof.
  intros s. induction s as [|c s (ds & more & E & D & M)].
  - exists [], []. repeat split.
  - destruct (isDigit c) eqn:C.
    + exists (c :: ds), more. rewrite E. simpl. rewrite C, D. repeat split.
      exact M.
    + exists [], (c :: s). repeat split. exact C.
Qed.

Lemma digitRuns_run :
  forall ds more cur,
    Spec.allDigits ds = true ->
    match more with c :: _ => isDigit c = false | [] => True end ->
    cur ++ ds <> [] ->
    Spec.digitRuns cur (ds ++ more)
    = (rev cur ++ ds)
      :: Spec.digitRuns [] (match more with _ :: t => t | [] => [] end).
Proof.
  intros ds. induction ds as [|d ds IH]; intros more cur Hds Hmore Hne.
  - rewrite app_nil_r in *. simpl.
    destruct more as [|c more]; simpl.
    + destruct cur; [contradiction | reflexivity].
    + rewrite Hmore. destruct cur; [contradiction | reflexivity].
  - simpl in Hds. apply andb_true_iff in Hds. destruct Hds as [Hd Hds].
    cbn [app Spec.digitRuns]. rewrite Hd.
    rewrite (IH more (d :: cur) Hds Hmore) by discriminate.
    simpl. rewrite <- app_assoc. reflexivity.
Qed.

(** The matches of [\d+] in a text are its maximal runs of digits. *)
Lemma matchAll_digitRuns :
  forall s, matchAll false (plus isDigit) s = Spec.digitRuns [] s.
Proof.
  intros s. unfold matchAll.
  assert (G : forall len s pv n,
             len = List.length s ->
             scanAll false (plus isDigit) 0 n pv s = Spec.digitRuns [] s);
    [|apply (G (List.length s)); reflexivity].
  clear s. intros len.
  induction len as [len IH] using lt_wf_ind. intros s pv n L.
  destruct (digits_first s) as (ds & more & -> & Hds & Hmore).
  destruct ds as [|d ds].
  - (* no digit here *)
    destruct more as [|c more]; [reflexivity|].
    cbn [app]. cbn [scanAll].
    rewrite (matchAt_no_digit (c :: more)) by exact Hmore.
    cbn [Spec.digitRuns]. rewrite Hmore.
    apply (IH (List.length more)); [subst len; simpl; lia | reflexivity].
  - (* a run of digits *)
    cbn [app scanAll].
    change (d :: ds ++ more) with ((d :: ds) ++ more).
    rewrite (matchAt_digits (d :: ds) more n pv) by (try discriminate; assumption).
    cbn [whole List.length Nat.pred].
    rewrite (digitRuns_run (d :: ds) more [] Hds Hmore) by discriminate.
    cbn [rev app]. f_equal.
    rewrite scanAll_skip.
    destruct more as [|c more]; [reflexivity|].
    cbn [scanAll].
    rewrite (matchAt_no_digit (c :: more)) by exact Hmore.
    apply (IH (List.length more)); [subst len; simpl; rewrite length_app; simpl; lia
                                   | reflexivity].
Qed.

(** A run of digits of a text is not empty and made of digits. *)
Lemma digitRuns_digits :
  forall s cur x,
    Spec.allDigits cur = true ->
    In x (Spec.digitRuns cur s) -> x <> [] /\ Spec.allDigits x = true.
Proof.
  intros s. induction s as [|c s IH]; intros cur x Hcur H.
  - simpl in H. destruct cur as [|c0 cur]; [destruct H|].
    destruct H as [<-|[]]. split.
    + intros E. apply (f_equal (@List.length N)) in E.
      rewrite length_rev in E. discriminate E.
    + unfold Spec.allDigits in *. rewrite forallb_forall in *.
      intros y Hy. apply Hcur. apply in_rev. exact Hy.
  - cbn [Spec.digitRuns] in H. destruct (isDigit c) eqn:C.
    + apply (IH (c :: cur) x); [simpl; rewrite C; exact Hcur | exact H].
    + destruct cur as [|c0 cur]; [apply (IH [] x); [reflexivity | exact H]|].
      destruct H as [<-|H]; [|apply (IH [] x); [reflexivity | exact H]].
      split.
      * intros E. apply (f_equal (@List.length N)) in E.
        rewrite length_rev in E. discriminate E.
      * unfold Spec.allDigits in *. rewrite forallb_forall in *.
        intros y Hy. apply Hcur. apply in_rev. exact Hy.
Qed.

Lemma intOf_digits :
  forall x, x <> [] -> Spec.allDigits x = true -> intOf x = Spec.digitsValue x.
Proof.
  intros x Hne Hx. unfold intOf. rewrite (parseInt_digits x Hne Hx).
  reflexivity.
Qed.

Section WithHost.
Context {host : Host}.

(** *** One pagination element *)

(** The scan of an element whose links are plain gives the largest of the
    numbers it yields, or what it started from. *)
Lemma scanPagination_yields :
  forall c m0,
    Spec.plain (Spec.pageLinks c) ->
    (m0 <= scanPagination c m0)%Z
    /\ (forall n, Spec.yields c n -> (n <= scanPagination c m0)%Z)
    /\ (scanPagination c m0 = m0 \/ Spec.yields c (scanPagination c m0)).
Proof.
  intros c m0 P. unfold scanPagination.
  rewrite pageLinks_below.
  set (links := Spec.pageLinks c) in *.
  destruct (scanLinks_spec links m0) as (L1 & L2 & L3).
  destruct (scanText_spec (textContent c) (scanLinks links m0))
    as (T1 & T2 & T3).
  rewrite matchAll_digitRuns in T2, T3.
  set (r1 := scanLinks links m0) in *.
  set (r2 := scanText (textContent c) r1) in *.
  split; [lia|]. split.
  - intros n [(link & Hin & Hn)|[Hin Hlt]].
    + pose proof (L2 link n Hin (hrefPage_numbered link n Hn)). lia.
    + unfold Spec.numerals in Hin. apply in_map_iff in Hin.
      destruct Hin as (x & <- & Hx).
      destruct (digitRuns_digits _ [] x eq_refl Hx) as (Hne & Dx).
      apply (T2 x); [exact Hx|]. unfold textPage.
      rewrite (intOf_digits x Hne Dx).
      replace (Spec.digitsValue x <? 1000)%Z with true
        by (symmetry; apply Z.ltb_lt; exact Hlt).
      reflexivity.
  - destruct T3 as [E|(x & Hx & Tx)].
    + rewrite E. destruct L3 as [E1|(link & Hin & Hl)].
      * left. exact E1.
      * right. left. exists link. split; [exact Hin|].
        apply (numbered_hrefPage links); assumption.
    + right. right.
      destruct (digitRuns_digits _ [] x eq_refl Hx) as (Hne & Dx).
      unfold textPage in Tx. rewrite (intOf_digits x Hne Dx) in Tx.
      destruct (Spec.digitsValue x <? 1000)%Z eqn:B; [|discriminate Tx].
      injection Tx as Tx. apply Z.ltb_lt in B. rewrite <- Tx.
      split; [|exact B].
      unfold Spec.numerals. apply in_map. exact Hx.
Qed.

(** An element that yields nothing above 1 leaves the count at 1. *)
Lemma scanPagination_low :
  forall c,
    Spec.plain (Spec.pageLinks c) ->
    (forall n, Spec.yields c n -> (n <= 1)%Z) ->
    scanPagination c 1 = 1%Z.
Proof.
  intros c P H.
  destruct (scanPagination_yields c 1 P) as (G & _ & [E|Y]); [exact E|].
  specialize (H _ Y). lia.
Qed.

(** *** The loop over the selectors *)

(** The first element that yields a number above 1 decides. *)
Lemma scanSelectors_decides :
  forall doc before s after c,
    docQuery doc s = Some c ->
    (forall s' c', In s' before -> docQuery doc s' = Some c' ->
                   Spec.plain (Spec.pageLinks c')
                   /\ forall n, Spec.yields c' n -> (n <= 1)%Z) ->
    (1 < scanPagination c 1)%Z ->
    scanSelectors doc (before ++ s :: after) 1 = scanPagination c 1.
Proof.
  intros doc before s after c Hc Hbefore Hmax.
  induction before as [|s0 before IH]; cbn [app scanSelectors].
  - rewrite Hc. apply Z.ltb_lt in Hmax. rewrite Hmax. reflexivity.
  - destruct (docQuery doc s0) as [c0|] eqn:E0.
    + destruct (Hbefore s0 c0 (or_introl eq_refl) E0) as (P0 & L0).
      rewrite (scanPagination_low c0 P0 L0). cbn [Z.ltb Z.compare].
      apply IH. intros s' c' Hin. apply Hbefore. right. exact Hin.
    + apply IH. intros s' c' Hin. apply Hbefore. right. exact Hin.
Qed.

(** When no element yields a number above 1, the count stays at 1. *)
Lemma scanSelectors_low :
  forall doc sels,
    (forall s c, In s sels -> docQuery doc s = Some c ->
                 Spec.plain (Spec.pageLinks c)
                 /\ forall n, Spec.yields c n -> (n <= 1)%Z) ->
    scanSelectors doc sels 1 = 1%Z.
Proof.
  intros doc sels H. induction sels as [|s sels IH]; cbn [scanSelectors].
  - reflexivity.
  - destruct (docQuery doc s) as [c|] eqn:E.
    + destruct (H s c (or_introl eq_refl) E) as (P & L).
      rewrite (scanPagination_low c P L). cbn [Z.ltb Z.compare].
      apply IH. intros s' c' Hin. apply H. right. exact Hin.
    + apply IH. intros s' c' Hin. apply H. right. exact Hin.
Qed.

(** The links of the whole document, when they decide. *)
Lemma scanLinks_document :
  forall d,
    Spec.plain (Spec.docPageLinks d) ->
    let r := scanLinks (docQueryAll (root d) pageLinkSelector) 1 in
    (1 <= r)%Z
    /\ (forall link n,
           In link (Spec.docPageLinks d) -> Spec.pageNumbered link n ->
           (n <= r)%Z)
    /\ (r = 1%Z
        \/ exists link,
             In link (Spec.docPageLinks d) /\ Spec.pageNumbered link r).
Proof.
  intros d P. rewrite pageLinks_document. cbv zeta.
  destruct (scanLinks_spec (Spec.docPageLinks d) 1) as (L1 & L2 & L3).
  split; [exact L1|]. split.
  - intros link n Hin Hn.
    apply (L2 link n Hin (hrefPage_numbered link n Hn)).
  - destruct L3 as [E|(link & Hin & Hl)]; [left; exact E|].
    right. exists link. split; [exact Hin|].
    apply (numbered_hrefPage (Spec.docPageLinks d)); assumption.
Qed.

End WithHost.
End PageNumberFacts.

(* ===================================================================== *)
(** ** The number of pages *)
(* ===================================================================== *)

Section PagesClaims.
Import PagesFacts PageNumberFacts.
Context {host : Host}.

(** C8, as the code has it.  [getTotalPages] is at least 1.  On a page
    whose links are plain (each link whose address holds [page=] carries
    its page number there), the pagination elements are scanned in the
    order of the selectors, and the first that yields a number above 1
    decides: the result is the largest of the page numbers of its links,
    whatever their size, and of the numbers below 1000 in its text.  When
    no pagination element yields a number above 1, the result is the
    largest page number among the links of the whole document, and 1 when
    there is none. *)
Theorem getTotalPages_max :
  forall (d : Document),
    (1 <= getTotalPages d)%Z
    /\ (Spec.plainLinks d ->
        (forall before s after c,
            paginationSelectors = before ++ s :: after ->
            docQuery (root d) s = Some c ->
            (forall s' c' n,
                In s' before -> docQuery (root d) s' = Some c' ->
                Spec.yields c' n -> (n <= 1)%Z) ->
            (exists n, Spec.yields c n /\ (1 < n)%Z) ->
            Spec.yields c (getTotalPages d)
            /\ forall n, Spec.yields c n -> (n <= getTotalPages d)%Z)
        /\ ((forall c n, Spec.found d c -> Spec.yields c n -> (n <= 1)%Z) ->
            (getTotalPages d = 1%Z
             \/ exists link,
                  In link (Spec.docPageLinks d)
                  /\ Spec.pageNumbered link (getTotalPages d))
            /\ forall link n,
                 In link (Spec.docPageLinks d) -> Spec.pageNumbered link n ->
                 (n <= getTotalPages d)%Z)).
Proof.
  intros d. split.
  - unfold getTotalPages.
    pose proof (scanSelectors_ge (root d) paginationSelectors 1).
    destruct (_ =? 1)%Z; [|lia].
    destruct (scanLinks_spec (docQueryAll (root d) pageLinkSelector)
                (scanSelectors (root d) paginationSelectors 1)) as (G & _).
    lia.
  - intros [Pfound Pdoc]. split.
    + (* a pagination element decides *)
      intros before s after c Hsel Hc Hbefore (n & Yn & Hn).
      assert (Pc : Spec.plain (Spec.pageLinks c)).
      { apply Pfound. exists s. split; [|exact Hc].
        rewrite Hsel. apply in_or_app. right. left. reflexivity. }
      destruct (scanPagination_yields c 1 Pc) as (G & A & E).
      assert (M : (1 < scanPagination c 1)%Z)
        by (specialize (A n Yn); lia).
      assert (T : getTotalPages d = scanPagination c 1).
      { unfold getTotalPages. rewrite Hsel.
        rewrite (scanSelectors_decides (root d) before s after c Hc).
        - replace (scanPagination c 1 =? 1)%Z with false
            by (symmetry; apply Z.eqb_neq; lia).
          reflexivity.
        - intros s' c' Hin Hc'. split.
          + apply Pfound. exists s'. split; [|exact Hc'].
            rewrite Hsel. apply in_or_app. left. exact Hin.
          + intros n' Y. apply (Hbefore s' c' n' Hin Hc' Y).
        - exact M. }
      rewrite T. split; [|exact A].
      destruct E as [E|E]; [lia | exact E].
    + (* the links of the document decide *)
      intros Hlow.
      assert (S1 : scanSelectors (root d) paginationSelectors 1 = 1%Z).
      { apply scanSelectors_low. intros s c Hin Hc.
        assert (F : Spec.found d c) by (exists s; split; assumption).
        split; [apply Pfound; exact F|].
        intros n Y. apply (Hlow c n F Y). }
      assert (T : getTotalPages d
                  = scanLinks (docQueryAll (root d) pageLinkSelector) 1).
      { unfold getTotalPages. rewrite S1. reflexivity. }
      destruct (scanLinks_document d Pdoc) as (_ & A & E).
      rewrite T. split; [exact E | exact A].
Qed.

End PagesClaims.

Section PagesExamples.
Import PagesFacts PageNumberFacts.

Lemma js_append : forall a b, js (a ++ b)%string = js a ++ js b.
Proof.
  intros a b. induction a as [|c a IH]; simpl; [reflexivity|].
  rewrite IH. reflexivity.
Qed.

(** The links of the samples carry their page number. *)
Lemma pageLink_numbered :
  forall n : string,
    js n <> [] -> Spec.allDigits (js n) = true ->
    Spec.pageNumbered (Sample.pageLink n) (Spec.digitsValue (js n)).
Proof.
  intros n Hne Hn. exists (js "/segments/123/leaderboard?page=" ++ js n).
  split.
  - unfold Sample.pageLink, Sample.a, getAttribute. cbn [attributes assoc].
    cbn [String.eqb Ascii.eqb Bool.eqb]. rewrite js_append. reflexivity.
  - exists (js "/segments/123/leaderboard"), 63%N, (js n), [].
    rewrite app_nil_r.
    split; [reflexivity|]. split; [left; reflexivity|].
    split; [vm_compute; reflexivity|]. split; [exact Hne|].
    split; [exact Hn|]. split; [exact I | reflexivity].
Qed.

(** C8, as stated, fails for numbers read from links.  On a pagination
    block that links pages 1 to 7 and a last page 1500, the result is 1500:
    the number is not ignored, although it is not below 1000. *)
Lemma href_page_numbers_are_not_capped :
  getTotalPages Sample.longBoard = 1500%Z
  /\ (1000 <= 1500)%Z
  /\ Spec.pageNumbered (Sample.pageLink "1500") 1500
  /\ map (fun link => getAttribute "href" link)
       (Spec.docPageLinks Sample.longBoard)
     = map (fun n => Some (js "/segments/123/leaderboard?page=" ++ js n))
         ["3"; "1"; "7"; "2"; "5"; "4"; "6"; "1500"]%string.
Proof.
  split; [vm_compute; reflexivity|].
  split; [lia|].
  split; [|vm_compute; reflexivity].
  apply (pageLink_numbered "1500"); [discriminate | reflexivity].
Qed.

(** Links to pages 1 to 7 in no particular order, and the numbers 2024 and
    15000 in the text: seven pages. *)
Lemma getTotalPages_max_witness :
  Spec.plainLinks Sample.sevenPages
  /\ Spec.numerals (textContent Sample.sevenBlock)
     = [2024; 15000; 3; 1; 7; 2; 5; 4; 6]%Z
  /\ getTotalPages Sample.sevenPages = 7%Z.
Proof.
  assert (L : Spec.pageLinks Sample.sevenBlock
              = map Sample.pageLink ["3"; "1"; "7"; "2"; "5"; "4"; "6"]%string)
    by (vm_compute; reflexivity).
  assert (N : Spec.numerals (textContent Sample.sevenBlock)
              = [2024; 15000; 3; 1; 7; 2; 5; 4; 6]%Z)
    by (vm_compute; reflexivity).
  assert (P : Spec.plain (Spec.pageLinks Sample.sevenBlock)).
  { intros link Hin. rewrite L in Hin. apply in_map_iff in Hin.
    destruct Hin as (n & <- & Hn).
    exists (Spec.digitsValue (js n)).
    simpl in Hn.
    repeat (destruct Hn as [<-|Hn];
            [apply pageLink_numbered; [discriminate | reflexivity]|]).
    destruct Hn. }
  assert (Q : Spec.plainLinks Sample.sevenPages).
  { split.
    - intros c (s & Hs & Hc). simpl in Hs.
      repeat (destruct Hs as [<-|Hs];
              [vm_compute in Hc;
               first [discriminate Hc | injection Hc as <-; exact P]|]).
      destruct Hs.
    - intros link Hin.
      assert (D : Spec.docPageLinks Sample.sevenPages
                  = Spec.pageLinks Sample.sevenBlock)
        by (vm_compute; reflexivity).
      rewrite D in Hin. apply (P link Hin). }
  split; [exact Q|]. split; [exact N|].
  destruct (getTotalPages_max Sample.sevenPages) as (_ & H).
  destruct (H Q) as (H1 & _).
  destruct (H1 [] (sel1 [Class "pagination"]) (tl paginationSelectors)
              Sample.sevenBlock) as (Y & M).
  - reflexivity.
  - vm_compute. reflexivity.
  - intros s' c' n [].
  - exists 7%Z. split; [|lia]. left. exists (Sample.pageLink "7").
    split; [rewrite L; simpl; tauto|].
    apply (pageLink_numbered "7"); [discriminate | reflexivity].
  - assert (U : (7 <= getTotalPages Sample.sevenPages)%Z).
    { apply M. left. exists (Sample.pageLink "7").
      split; [rewrite L; simpl; tauto|].
      apply (pageLink_numbered "7"); [discriminate | reflexivity]. }
    assert (V : (getTotalPages Sample.sevenPages <= 7)%Z); [|lia].
    clear U M H H1. revert Y.
    generalize (getTotalPages Sample.sevenPages) as total. intros total Y.
    destruct Y as [(link & Hin & Hl)|[Hin Hlt]].
    + rewrite L in Hin. apply hrefPage_numbered in Hl. simpl in Hin.
      repeat (destruct Hin as [<-|Hin];
              [vm_compute in Hl; injection Hl as Hl; lia|]).
      destruct Hin.
    + rewrite N in Hin. simpl in Hin.
      repeat (destruct Hin as [Hin|Hin]; [lia|]). destruct Hin.
Defined.

(** What the hypothesis on the links leaves out.  A link to page 3 of a
    listing of 25 rows a page holds [page=] twice, first in the name
    [per_page]: it carries no page number in the sense above, and the
    number read is 25.  *)
Lemma per_page_is_read_as_a_page :
  let link := Sample.a "/segments/123/leaderboard?per_page=25&page=3" "3" in
  hrefPage link = Some 25%Z
  /\ getTotalPages
       (Sample.page "/segments/123/leaderboard" [Sample.pagination [link]])
     = 25%Z.
Proof. split; vm_compute; reflexivity. Qed.

(** A pagination element without a number is passed over: the next one
    found decides. *)
Lemma a_later_element_decides :
  getTotalPages
    (Sample.page "/segments/123/leaderboard"
       [Sample.pagination [Text (js "no other page")];
        Elem "nav" [] [Elem "ul" [] [Sample.pageLink "6"]]])
  = 6%Z.
Proof. vm_compute. reflexivity. Qed.

End PagesExamples.

(* ===================================================================== *)
(** ** The record extractor *)
(* ===================================================================== *)

Module RowFacts.
Import EntryFacts PatternFacts.

(** The seconds are those of the text kept as [time]. *)
Lemma extractTime_seconds :
  forall texts,
    snd (extractTime texts) = parseTimeToSeconds (fst (extractTime texts)).
Proof.
  intros texts. unfold extractTime.
  destruct (firstSome _ _) as [[t s]|] eqn:E.
  - apply firstSome_In in E. destruct E as (x & _ & Hx).
    destruct (exec false re_time x); [|discriminate].
    injection Hx as <- <-. reflexivity.
  - reflexivity.
Qed.

(** A row of three cells or more is parsed. *)
Lemma parseTableRow_some :
  forall row index,
    3 <= List.length (cellsOfRow row) ->
    parseTableRow row index
    = Some (mkRecord (extractRank (cellsOfRow row) index)
              (extractName (cellsOfRow row)) (extractDate (cellsOfRow row))
              (extractSpeed (map text (cellsOfRow row)))
              (extractHeartRate (map text (cellsOfRow row)))
              (extractClimbingSpeed (map text (cellsOfRow row)))
              (extractPower (map text (cellsOfRow row)))
              (fst (extractTime (map text (cellsOfRow row))))
              (snd (extractTime (map text (cellsOfRow row)))) row).
Proof.
  intros row index H. unfold parseTableRow.
  replace (Nat.ltb (List.length (cellsOfRow row)) 3) with false;
    [reflexivity|].
  symmetry. apply Nat.ltb_ge. exact H.
Qed.

End RowFacts.

Section RowClaims.
Import RowFacts PatternFacts.

(** X18.  For a row of three cells or more, the seconds of the record are
    those [parseTimeToSeconds] reads in its [time]: 0 when [time] is empty,
    and for a text [mm:ss], alone or followed by something that is not a
    digit, 60 times [mm] plus [ss]. *)
Theorem parseTableRow_time :
  forall (row : DOM.element) (index : Z),
    3 <= List.length (cellsOfRow row) ->
    exists r,
      parseTableRow row index = Some r
      /\ timeInSeconds r = parseTimeToSeconds (time r)
      /\ (time r = [] -> timeInSeconds r = 0%Z)
      /\ (forall mm ss tail,
             time r = mm ++ 58%N :: ss ++ tail ->
             mm <> [] -> ss <> [] ->
             Spec.allDigits mm = true -> Spec.allDigits ss = true ->
             match tail with c :: _ => isDigit c = false | [] => True end ->
             timeInSeconds r
             = (Spec.digitsValue mm * 60 + Spec.digitsValue ss)%Z).
Proof.
  intros row index H. eexists. split; [apply parseTableRow_some; exact H|].
  cbn [timeInSeconds time].
  pose proof (extractTime_seconds (map text (cellsOfRow row))) as E.
  split; [exact E|]. split.
  - intros T. rewrite E, T. reflexivity.
  - intros mm ss tail T Hmm Hss Dmm Dss Htail. rewrite E, T.
    apply parseTimeToSeconds_mmss; assumption.
Qed.

(** C6, as the code has it.  For a row of three cells or more: an avatar
    in the rank cell makes the rank 1, whatever the text; without an avatar,
    a text that [parseInt] reads as a number other than 0 gives that number;
    an empty text, a text that is no number, or 0 give [index + 1].  The
    rank is at least 1 when the index is not negative and the text is not
    read as a negative number. *)
Theorem parseTableRow_rank :
  forall (row : DOM.element) (index : Z),
    3 <= List.length (cellsOfRow row) ->
    let rankCell := nth 0 (cellsOfRow row) (Text []) in
    let rankText := text rankCell in
    exists r,
      parseTableRow row index = Some r
      /\ (hasAvatar rankCell = true -> rank r = 1%Z)
      /\ (hasAvatar rankCell = false ->
          forall n, parseInt rankText = Some n -> n <> 0%Z -> rankText <> [] ->
                    rank r = n)
      /\ (hasAvatar rankCell = false ->
          rankText = [] \/ parseInt rankText = None
          \/ parseInt rankText = Some 0%Z ->
          rank r = (index + 1)%Z)
      /\ ((0 <= index)%Z ->
          (forall n, parseInt rankText = Some n -> (0 <= n)%Z) ->
          (1 <= rank r)%Z).
Proof.
  intros row index H rankCell rankText.
  eexists. split; [apply parseTableRow_some; exact H|].
  cbn [rank]. unfold extractRank. fold rankCell. fold rankText.
  unfold parseIntOr.
  split; [|split; [|split]].
  - intros A. rewrite A. rewrite orb_true_r. reflexivity.
  - intros A n P N T. rewrite A. rewrite orb_false_r.
    destruct rankText as [|c t]; [contradiction|]. simpl truthy. simpl negb.
    rewrite P. destruct n; [contradiction| |]; reflexivity.
  - intros A C. rewrite A. rewrite orb_false_r.
    destruct (truthy rankText) eqn:T; simpl; [|reflexivity].
    destruct C as [C|[C|C]].
    + rewrite C in T. discriminate T.
    + rewrite C. reflexivity.
    + rewrite C. reflexivity.
  - intros I P. destruct (negb (truthy rankText) || hasAvatar rankCell).
    + destruct (hasAvatar rankCell); lia.
    + destruct (parseInt rankText) as [n|] eqn:E; [|lia].
      specialize (P n eq_refl). destruct n; lia.
Qed.

End RowClaims.

Section RowExamples.

(** C5 on the code.  The cell [1:02:03] is 3723 seconds as [H:MM:SS]; the
    record holds 62 in [timeInSeconds]: the pattern of [parseTimeToSeconds]
    stops at the first two fields. *)
Lemma hours_are_read_as_minutes :
  option_map time (parseTableRow Sample.longRide 0) = Some (js "1:02:03")
  /\ Spec.decompose (js "1:02:03") = Some 3723%Z
  /\ option_map timeInSeconds (parseTableRow Sample.longRide 0) = Some 62%Z.
Proof.
  split; [vm_compute; reflexivity|]. split; vm_compute; reflexivity.
Qed.

(** The time [9:59] is 599 seconds. *)
Lemma parseTableRow_time_witness :
  3 <= List.length (cellsOfRow Sample.fast)
  /\ exists r,
      parseTableRow Sample.fast 0 = Some r
      /\ time r = js "9:59"
      /\ timeInSeconds r = 599%Z.
Proof.
  split; [vm_compute; lia|].
  destruct (parseTableRow_time Sample.fast 0) as (r & P & _ & _ & M).
  - vm_compute. lia.
  - exists r. split; [exact P|].
    assert (T : time r = js "9:59").
    { vm_compute in P. injection P as <-. reflexivity. }
    split; [exact T|].
    rewrite (M (js "9") (js "59") []); try reflexivity; try discriminate.
    exact T.
Defined.

(** C6, as stated, fails when the rank cell holds both an avatar and a
    number, and when the number is negative: the avatar wins over the text
    5, and the text -3 gives the rank -3. *)
Lemma avatar_wins_over_rank_text :
  (hasAvatar (nth 0 (cellsOfRow Sample.crowned) (Text [])) = true
   /\ text (nth 0 (cellsOfRow Sample.crowned) (Text [])) = js "5"
   /\ option_map rank (parseTableRow Sample.crowned 4) = Some 1%Z)
  /\ (text (nth 0 (cellsOfRow Sample.relegated) (Text [])) = js "-3"
      /\ option_map rank (parseTableRow Sample.relegated 4) = Some (-3)%Z).
Proof.
  split; [split; [|split]|split]; vm_compute; reflexivity.
Qed.

(** A rank cell that reads 2, without avatar. *)
Lemma parseTableRow_rank_witness :
  3 <= List.length (cellsOfRow Sample.fast)
  /\ exists r, parseTableRow Sample.fast 0 = Some r /\ rank r = 2%Z.
Proof.
  split; [vm_compute; lia|].
  destruct (parseTableRow_rank Sample.fast 0) as (r & P & _ & T & _).
  - vm_compute. lia.
  - exists r. split; [exact P|].
    apply T; [vm_compute; reflexivity | vm_compute; reflexivity
              | discriminate | vm_compute; discriminate].
Defined.

(** C7 on the code.  A cell that reads [1,234.5 km/h] gives the speed
    234.5: the speed patterns know no thousands separator, and the match
    starts after the comma.  The cells [185 bpm] and [250W] give the heart
    rate 185 and the power 250. *)
Lemma speed_drops_the_thousands :
  map text (cellsOfRow Sample.fast)
  = [js "2"; js "Flo"; js "1,234.5 km/h"; js "185 bpm"; js "250W"; js "9:59"]
  /\ option_map speed (parseTableRow Sample.fast 0) = Some (469 # 2)%Q
  /\ option_map heartRate (parseTableRow Sample.fast 0) = Some (Some 185%Z)
  /\ option_map power (parseTableRow Sample.fast 0) = Some (Some 250%Z)
  /\ ~ Qeq (469 # 2) (12345 # 10).
Proof.
  split; [vm_compute; reflexivity|].
  split; [vm_compute; reflexivity|].
  split; [vm_compute; reflexivity|].
  split; [vm_compute; reflexivity|].
  unfold Qeq. simpl. lia.
Qed.

End RowExamples.

(* ===================================================================== *)
(** ** Facts about the export to CSV *)
(* ===================================================================== *)

Module CsvFacts.
Import CsvExport CsvReader.

(** [s.includes(c)] for one code unit. *)
Lemma includes_unit :
  forall c s, includes s [c] = existsb (fun x => (c =? x)%N) s.
Proof.
  intros c s. induction s as [|x s IH]; simpl.
  - reflexivity.
  - rewrite IH. replace (startsWith s []) with true by (destruct s; reflexivity).
    rewrite andb_true_r. reflexivity.
Qed.

(** A value is quoted exactly when it is not plain. *)
Lemma quoting_plain :
  forall s,
    includes s [comma] || includes s [quote] || includes s [newline]
    = negb (plain s).
Proof.
  intros s. rewrite !includes_unit. unfold plain.
  induction s as [|x s IH]; [reflexivity|].
  cbn [existsb forallb].
  rewrite (N.eqb_sym comma x), (N.eqb_sym quote x), (N.eqb_sym newline x).
  rewrite negb_andb, <- IH, negb_involutive.
  destruct (x =? comma)%N, (x =? quote)%N, (x =? newline)%N,
    (existsb (fun y => (comma =? y)%N) s),
    (existsb (fun y => (quote =? y)%N) s),
    (existsb (fun y => (newline =? y)%N) s); reflexivity.
Qed.

Lemma csvField_plain :
  forall s, plain s = true -> csvField s = s.
Proof.
  intros s H. unfold csvField. rewrite quoting_plain, H. reflexivity.
Qed.

Lemma csvField_quoted :
  forall s,
    plain s = false -> csvField s = quote :: escapeQuotes s ++ [quote].
Proof.
  intros s H. unfold csvField. rewrite quoting_plain, H. reflexivity.
Qed.

(** *** The reader on what the writer wrote *)

(** What may follow a field: the end, a comma or a line feed. *)
Definition closes (t : jsstring) : Prop :=
  match t with
  | [] => True
  | c :: _ => c = comma \/ c = newline
  end.

(** The reader after a field whose text is [rev cur]. *)
Definition afterField (cur : jsstring) (row : list jsstring) (acc : table)
    (t : jsstring) : option table :=
  match t with
  | [] => Some (rev (closeRow cur row acc))
  | c :: t' =>
      if (c =? comma)%N then read Start [] (closeField cur row) acc t'
      else read Start [] [] (closeRow cur row acc) t'
  end.

Lemma read_closes :
  forall md cur row acc t,
    md <> Quoted -> (md = Start -> cur = []) -> closes t ->
    read md cur row acc t = afterField cur row acc t.
Proof.
  intros md cur row acc [|c t] Hmd Hcur Ht; simpl.
  - destruct md; try reflexivity. contradiction.
  - destruct Ht as [-> | ->]; destruct md; try contradiction; reflexivity.
Qed.

Lemma read_plain :
  forall f cur row acc t,
    plain f = true -> closes t ->
    read Plain cur row acc (f ++ t) = afterField (rev f ++ cur) row acc t.
Proof.
  intros f. induction f as [|c f IH]; intros cur row acc t Hf Ht.
  - simpl. apply read_closes; [discriminate | discriminate | exact Ht].
  - simpl in Hf. apply andb_true_iff in Hf. destruct Hf as [Hc Hf].
    simpl.
    destruct (c =? comma)%N; [discriminate Hc|].
    destruct (c =? newline)%N;
      [simpl in Hc; rewrite orb_true_r in Hc; discriminate Hc|].
    destruct (c =? quote)%N; [discriminate Hc|].
    rewrite (IH (c :: cur) row acc t Hf Ht).
    rewrite <- app_assoc. reflexivity.
Qed.

Lemma read_quoted :
  forall f cur row acc t,
    closes t ->
    read Quoted cur row acc (escapeQuotes f ++ quote :: t)
    = afterField (rev f ++ cur) row acc t.
Proof.
  intros f. induction f as [|c f IH]; intros cur row acc t Ht.
  - simpl. apply read_closes; [discriminate | discriminate | exact Ht].
  - unfold escapeQuotes. simpl flat_map. fold (escapeQuotes f).
    destruct (c =? quote)%N eqn:E.
    + apply N.eqb_eq in E. subst c. simpl.
      rewrite (IH (quote :: cur) row acc t Ht).
      rewrite <- app_assoc. reflexivity.
    + simpl. rewrite E.
      rewrite (IH (c :: cur) row acc t Ht).
      rewrite <- app_assoc. reflexivity.
Qed.

(** One field, as [csvField] writes it, is read back. *)
Lemma read_field :
  forall f row acc t,
    closes t ->
    read Start [] row acc (csvField f ++ t) = afterField (rev f) row acc t.
Proof.
  intros f row acc t Ht. destruct (plain f) eqn:P.
  - rewrite (csvField_plain f P). destruct f as [|c f].
    + simpl. apply read_closes; [discriminate | reflexivity | exact Ht].
    + simpl in P. apply andb_true_iff in P. destruct P as [Hc Hf].
      simpl.
      destruct (c =? comma)%N; [discriminate Hc|].
      destruct (c =? newline)%N;
        [simpl in Hc; rewrite orb_true_r in Hc; discriminate Hc|].
      destruct (c =? quote)%N; [discriminate Hc|].
      apply read_plain; assumption.
  - rewrite (csvField_quoted f P). simpl.
    rewrite <- app_assoc. simpl.
    rewrite (read_quoted f [] row acc t Ht). rewrite app_nil_r. reflexivity.
Qed.

(** What may follow a row: the end or a line feed. *)
Definition closesRow (t : jsstring) : Prop :=
  match t with
  | [] => True
  | c :: _ => c = newline
  end.

(** The reader after a row whose fields, latest first, are [row]. *)
Definition afterRow (row : list jsstring) (acc : table) (t : jsstring)
  : option table :=
  match t with
  | [] => Some (rev (rev row :: acc))
  | _ :: t' => read Start [] [] (rev row :: acc) t'
  end.

Lemma read_row :
  forall fs f row acc t,
    closesRow t ->
    read Start [] row acc (join [comma] (map csvField (f :: fs)) ++ t)
    = afterRow (rev (f :: fs) ++ row) acc t.
Proof.
  intros fs. induction fs as [|g fs IH]; intros f row acc t Ht.
  - simpl join. rewrite read_field.
    + destruct t as [|c t]; simpl.
      * unfold closeRow, closeField. rewrite rev_involutive. reflexivity.
      * simpl in Ht. subst c. simpl.
        unfold closeRow, closeField. rewrite rev_involutive. reflexivity.
    + destruct t as [|c t]; simpl; [exact I | right; exact Ht].
  - change (join [comma] (map csvField (f :: g :: fs)))
      with (csvField f ++ [comma] ++ join [comma] (map csvField (g :: fs))).
    rewrite <- !app_assoc. rewrite read_field; [|left; reflexivity].
    cbn [app afterField]. change (comma =? comma)%N with true. cbv iota.
    unfold closeField. rewrite rev_involutive.
    rewrite IH by exact Ht.
    f_equal. simpl. rewrite <- !app_assoc. reflexivity.
Qed.

(** The line of a row. *)
Definition line (r : list jsstring) : jsstring :=
  join [comma] (map csvField r).

Lemma read_rows :
  forall rows r acc,
    r <> [] -> Forall (fun x => x <> []) rows ->
    read Start [] [] acc (join [newline] (map line (r :: rows)))
    = Some (rev acc ++ r :: rows).
Proof.
  intros rows. induction rows as [|r' rows IH]; intros r acc Hr Hrows.
  - destruct r as [|f fs]; [contradiction|].
    simpl join. rewrite <- (app_nil_r (line (f :: fs))).
    unfold line. rewrite read_row by exact I.
    unfold afterRow. rewrite app_nil_r, rev_involutive. reflexivity.
  - destruct r as [|f fs]; [contradiction|].
    change (join [newline] (map line ((f :: fs) :: r' :: rows)))
      with (line (f :: fs) ++ [newline] ++ join [newline] (map line (r' :: rows))).
    unfold line at 1. rewrite read_row by reflexivity.
    unfold afterRow. cbn [app]. rewrite app_nil_r, rev_involutive.
    inversion Hrows; subst.
    rewrite (IH r' ((f :: fs) :: acc)) by assumption.
    simpl. rewrite <- app_assoc. reflexivity.
Qed.

(** *** Trimming keeps units *)

Lemma trimStart_In : forall c s, In c (trimStart s) -> In c s.
Proof.
  intros c s. induction s as [|x s IH]; simpl; intros H.
  - exact H.
  - destruct (isWhiteSpace x); [right; apply IH; exact H | exact H].
Qed.

Lemma trim_In : forall c s, In c (trim s) -> In c s.
Proof.
  intros c s H. unfold trim, trimEnd in H.
  apply in_rev in H. apply trimStart_In in H. apply in_rev in H.
  apply trimStart_In in H. exact H.
Qed.

End CsvFacts.

(* ===================================================================== *)
(** ** The export: what the file holds *)
(* ===================================================================== *)

Section CsvProperties.
Import PageLoader CsvExport CsvReader CsvFacts.
Context {host : Host}.

(** X1.  When there is a record to export and no header name holds a
    comma, a quote or a line feed (the names are written without quoting),
    the file [exportToCSV] hands over is the byte order mark followed by a
    text that a CSV reader (quoted fields, a quote written twice, the line
    feed between rows) reads back as the header row followed by one row of
    eight values per exported record, each value being the string of the
    field as it is, whatever commas, quotes and line feeds the names of the
    athletes hold.  A header row without any name is written as an empty
    line, which reads back as a row of one empty field. *)
Theorem exportToCSV_round_trip :
  forall (table : node) (l : Loader),
    dataToExport table l <> [] ->
    forallb plain (getTableHeaders table) = true ->
    exists csvContent,
      exportToCSV table l
      = Downloaded (bom :: csvContent) (List.length (dataToExport table l))
      /\ readCsv csvContent
         = Some (match getTableHeaders table with
                 | [] => [[]]
                 | headers => headers
                 end
                 :: map (fun record => map stringOf (values record))
                      (dataToExport table l)).
Proof.
  intros table l Hdata Hplain.
  unfold exportToCSV.
  destruct (dataToExport table l) as [|r data] eqn:D; [contradiction|].
  cbv zeta. simpl Nat.eqb. cbv iota.
  eexists. split; [reflexivity|].
  unfold readCsv, csvRows.
  set (headers := match getTableHeaders table with
                  | [] => [[]]
                  | hs => hs
                  end).
  assert (H1 : join [comma] (getTableHeaders table) = line headers).
  { unfold headers. destruct (getTableHeaders table) as [|h0 hs] eqn:G;
      [reflexivity|].
    unfold line. f_equal. symmetry.
    rewrite <- (map_id (h0 :: hs)) at 2.
    apply map_ext_in. intros h Hh. apply csvField_plain.
    rewrite forallb_forall in Hplain. apply Hplain. exact Hh. }
  assert (H2 : map (fun record => join [comma] (formatRecordForCSV record))
                 (r :: data)
               = map line
                   (map (fun record => map stringOf (values record))
                      (r :: data))).
  { rewrite map_map. apply map_ext. intros x. unfold line, formatRecordForCSV.
    rewrite map_map. reflexivity. }
  rewrite H1, H2.
  change (line headers
          :: map line (map (fun record => map stringOf (values record)) (r :: data)))
    with (map line
            (headers
             :: map (fun record => map stringOf (values record)) (r :: data))).
  rewrite read_rows.
  - reflexivity.
  - unfold headers. destruct (getTableHeaders table); discriminate.
  - apply Forall_forall. intros x Hx. apply in_map_iff in Hx.
    destruct Hx as (y & <- & _). discriminate.
Qed.

(** X2.  No header name returned by [getTableHeaders] is empty, and none
    holds the sort indicator that [TableSorter] appends to the header
    cells.  For a table without [thead], or whose [thead] has no row, the
    names returned are the eight default names. *)
Theorem getTableHeaders_clean :
  forall (table : node),
    (forall h, In h (getTableHeaders table) -> h <> [] /\ ~ In indicator h)
    /\ (querySelector table (sel1 [Tag "thead"]) = None ->
        getTableHeaders table = defaultHeaders)
    /\ (forall thead,
           querySelector table (sel1 [Tag "thead"]) = Some thead ->
           querySelector thead (sel1 [Tag "tr"]) = None ->
           getTableHeaders table = defaultHeaders)
    /\ List.length defaultHeaders = 8.
Proof.
  intros table. split; [|split; [|split]].
  - intros h H. unfold getTableHeaders in H.
    assert (D : forall x, In x defaultHeaders -> x <> [] /\ ~ In indicator x).
    { intros x Hx. unfold defaultHeaders in Hx. simpl in Hx.
      repeat (destruct Hx as [<- | Hx];
              [split; [discriminate|];
               intros Hin; simpl in Hin;
               repeat (destruct Hin as [Hin|Hin]; [discriminate Hin|]);
               exact Hin|]).
      contradiction. }
    destruct (querySelector table (sel1 [Tag "thead"])) as [thead|];
      [|apply D; exact H].
    destruct (querySelector thead (sel1 [Tag "tr"])) as [headerRow|];
      [|apply D; exact H].
    apply filter_In in H. destruct H as [Hin Ht].
    split.
    + intros ->. discriminate Ht.
    + apply in_map_iff in Hin. destruct Hin as (th & <- & _).
      unfold headerName. intros Hc. apply trim_In in Hc.
      unfold removeAll in Hc. apply filter_In in Hc. destruct Hc as [_ Hc].
      rewrite N.eqb_refl in Hc. discriminate Hc.
  - intros H. unfold getTableHeaders. rewrite H. reflexivity.
  - intros thead H1 H2. unfold getTableHeaders. rewrite H1, H2. reflexivity.
  - reflexivity.
Qed.

End CsvProperties.

(* ===================================================================== *)
(** ** Facts about the requests of a run *)
(* ===================================================================== *)

Module LogFacts.
Import PageLoader Orders EntryFacts LoaderFacts.

Lemma jseqb_refl : forall a, jseqb a a = true.
Proof. intros a. apply jseqb_eq. reflexivity. Qed.

Lemma jseqb_sym : forall a b, jseqb a b = jseqb b a.
Proof.
  intros a b. destruct (jseqb a b) eqn:E1, (jseqb b a) eqn:E2;
    try reflexivity.
  - apply jseqb_eq in E1. subst. rewrite jseqb_refl in E2. discriminate E2.
  - apply jseqb_eq in E2. subst. rewrite jseqb_refl in E1. discriminate E1.
Qed.

Lemma get_set_same : forall k v o, get k (set k v o) = Some v.
Proof.
  intros k v o. induction o as [|[k1 v1] o IH]; simpl.
  - rewrite jseqb_refl. reflexivity.
  - destruct (jseqb k k1) eqn:E; simpl.
    + rewrite jseqb_refl. reflexivity.
    + rewrite E. exact IH.
Qed.

Lemma get_set_other :
  forall k k' v o, jseqb k k' = false -> get k (set k' v o) = get k o.
Proof.
  intros k k' v o H. induction o as [|[k1 v1] o IH]; simpl.
  - rewrite H. reflexivity.
  - destruct (jseqb k' k1) eqn:E; simpl.
    + apply jseqb_eq in E. subst k1. rewrite H. reflexivity.
    + rewrite IH. reflexivity.
Qed.

Lemma set_NoDup :
  forall k v o, NoDup (keys o) -> NoDup (keys (set k v o)).
Proof.
  intros k v o. induction o as [|[k1 v1] o IH]; intros H; simpl.
  - constructor; [intros [] | constructor].
  - simpl in H. inversion H as [|x l Hnot Hrest]; subst.
    destruct (jseqb k k1) eqn:E; simpl.
    + apply jseqb_eq in E. subst k1. constructor; assumption.
    + constructor; [|apply IH; exact Hrest].
      intros Hin. destruct (keys_set k v o k1 Hin) as [->|Hin'].
      * rewrite jseqb_refl in E. discriminate E.
      * apply Hnot. exact Hin'.
Qed.

Section WithHost.
Context {host : Host}.

Lemma has_set :
  forall k k' v o, has k o = true -> has k (set k' v o) = true.
Proof.
  intros k k' v o H. unfold has in *.
  destruct (jseqb k k') eqn:E.
  - apply jseqb_eq in E. subst k'. rewrite get_set_same. reflexivity.
  - rewrite (get_set_other k k' v o E). exact H.
Qed.

(** The query of the GET request: what holds of it at every step of its
    construction. *)
Definition query (page : Z) (q : entries) : Prop :=
  get (js "page") q = Some (toString page)
  /\ NoDup (keys q)
  /\ has (js "partial") q = true.

Lemma query_set :
  forall page k v q,
    jseqb (js "page") k = false -> query page q -> query page (set k v q).
Proof.
  intros page k v q Hk (H1 & H2 & H3). split; [|split].
  - rewrite (get_set_other _ _ _ _ Hk). exact H1.
  - apply set_NoDup. exact H2.
  - apply has_set. exact H3.
Qed.

Lemma buildGetRequest_query :
  forall d page, query page (params (buildGetRequest d page)).
Proof.
  intros d page. unfold buildGetRequest. cbv beta zeta. cbn [params].
  apply (fold_left_inv _ _ _ (query page)
           (fun k => jseqb (js "page") k = false)).
  - intros q k Hq Hk.
    destruct (truthy _ && negb (has k q)); [|exact Hq].
    apply query_set; assumption.
  - unfold importantParams. repeat constructor.
  - apply (fold_left_inv _ _ _ (query page) (fun _ => True)).
    + intros q k Hq _.
      destruct (jseqb k (js "page")) eqn:E.
      * rewrite andb_false_r. exact Hq.
      * destruct (truthy _ && negb false); [|exact Hq].
        destruct (member k getAllowedParams); [|exact Hq].
        apply query_set; [|exact Hq]. rewrite jseqb_sym. exact E.
    + apply Forall_forall. intros x _. exact I.
    + split; [|split].
      * reflexivity.
      * simpl. repeat constructor; simpl; intuition discriminate.
      * reflexivity.
Qed.

(** The body of the POST request starts with the page. *)
Lemma buildFilteredPageRequest_page :
  forall d page,
    method (buildFilteredPageRequest d page) = POST
    /\ hd_error (params (buildFilteredPageRequest d page))
       = Some (js "page", toString page).
Proof.
  intros d page. split.
  - unfold buildFilteredPageRequest. cbv beta zeta.
    destruct (csrfToken d) as [token|]; [destruct (truthy token)|];
      reflexivity.
  - rewrite RequestFacts.buildFilteredPageRequest_body. reflexivity.
Qed.

Lemma hd_get :
  forall k v (o : entries), hd_error o = Some (k, v) -> get k o = Some v.
Proof.
  intros k v [|[k1 v1] o] H; [discriminate H|].
  simpl in H. injection H as -> ->. simpl. rewrite jseqb_refl. reflexivity.
Qed.

(** One turn: a GET for the page, then, when it gave no record, a POST for
    the same page. *)
Lemma fetchPage_log :
  forall env page w,
    exists seg,
      sent (fetchPage env page w) = rev seg ++ sent w
      /\ forall n rest,
           pageLog (page + 1) n rest -> pageLog page (S n) (seg ++ rest).
Proof.
  intros env page w.
  destruct (buildGetRequest_query (doc w) page) as (Gp & _ & _).
  destruct (buildFilteredPageRequest_page (doc w) page) as (Pm & Pp).
  apply hd_get in Pp.
  unfold fetchPage, loadPageData, loadPageDataGET, doFetch.
  destruct (Nat.ltb 0 (List.length (received (fetch env _ (buildGetRequest _ _)))))
    eqn:E1.
  - exists [buildGetRequest (doc w) page]. split.
    + rewrite E1. reflexivity.
    + intros n rest H. apply log_get; [reflexivity | exact Gp | exact H].
  - exists [buildGetRequest (doc w) page;
            buildFilteredPageRequest (doc w) page].
    split.
    + cbn [doc withSent].
      destruct (Nat.ltb 0 (List.length (received (fetch env _ (buildFilteredPageRequest _ _)))));
        reflexivity.
    + intros n rest H. apply log_get_post; try assumption. reflexivity.
Qed.

(** The world a loop ends in. *)
Definition worldOf (e : LoopEnd) : World :=
  match e with Cancelled w => w | Finished w => w end.

Lemma pagesLoop_log :
  forall env todo page w,
    exists n log,
      n <= todo
      /\ sent (worldOf (pagesLoop env todo page w)) = rev log ++ sent w
      /\ pageLog page n log.
Proof.
  intros env todo. induction todo as [|todo IH]; intros page w.
  - exists 0, []. simpl. split; [lia|]. split; [reflexivity | constructor].
  - simpl. destruct (loadingAborted (loader w)).
    + exists 0, []. simpl. split; [lia|]. split; [reflexivity | constructor].
    + destruct (fetchPage_log env page w) as (seg & Hs & Hl).
      set (w2 := if cancelClicked env page
                 then clickCancel (fetchPage env page w)
                 else fetchPage env page w).
      assert (S2 : sent w2 = sent (fetchPage env page w)).
      { unfold w2. destruct (cancelClicked env page); reflexivity. }
      destruct (IH (page + 1)%Z w2) as (n & log & Hn & Hsent & Hlog).
      exists (S n), (seg ++ log). split; [lia|]. split.
      * rewrite Hsent, S2, Hs. rewrite rev_app_distr, app_assoc. reflexivity.
      * apply Hl. exact Hlog.
Qed.



(** A loop that is left on a cancellation has removed the indicator. *)
Lemma pagesLoop_cancelled_progress :
  forall env todo page w w1,
    pagesLoop env todo page w = Cancelled w1 -> progressShown w1 = false.
Proof.
  intros env todo. induction todo as [|todo IH]; intros page w w1 H.
  - discriminate H.
  - simpl in H. destruct (loadingAborted (loader w)).
    + injection H as <-. reflexivity.
    + apply IH in H. exact H.
Qed.

End WithHost.

(** The merge keeps the log and removes the indicator. *)
Lemma complete_log :
  forall w,
    sent (complete w) = sent w /\ progressShown (complete w) = false
    /\ loader (complete w) = loader w /\ alerts (complete w) = alerts w.
Proof.
  intros [l d tb al se pr bu pa no].
  unfold complete, hideOriginalPagination, appendAllDataToTable. simpl.
  destruct tb as [[s|t a k]|]; simpl; destruct (docQuery _ _); simpl;
    repeat split; reflexivity.
Qed.

End LogFacts.

(* ===================================================================== *)
(** ** The run: its requests and its flags *)
(* ===================================================================== *)

Section LoaderProperties.
Import PageLoader Orders EntryFacts LoaderFacts LogFacts CsvExport.
Context {host : Host}.

(** X3.  A call of [loadAllPages] on an idle loader sends its requests one
    page after the other, starting at page 2 and never going past the last
    page: for each page visited a GET that carries the page number,
    followed by at most one POST for the same page, and nothing else.  At
    most [2 * (totalPages - 1)] requests are sent, and none when there is
    one page. *)
Theorem loadAllPages_request_log :
  forall (env : Env) (w : World),
    isLoadingAllPages (loader w) = false ->
    exists (n : nat) (log : list Request),
      n <= Z.to_nat (getTotalPages (doc w) - 1)
      /\ sent (snd (loadAllPages env w)) = rev log ++ sent w
      /\ pageLog 2 n log
      /\ List.length log <= 2 * n.
Proof.
  intros env w Hidle.
  assert (L : forall page n log, pageLog page n log -> List.length log <= 2 * n).
  { intros page n log H. induction H; simpl; lia. }
  unfold loadAllPages. rewrite Hidle. cbv zeta.
  change (doc (withFlags true false w)) with (doc w).
  destruct (getTotalPages (doc w) <=? 1)%Z eqn:E.
  - exists 0, []. split; [lia|]. split; [|split; [constructor | simpl; lia]].
    destruct w as [l d tb al se pr bu pa no]. unfold parseCurrentPage. simpl.
    destruct tb; reflexivity.
  - destruct (pagesLoop_log env (Z.to_nat (getTotalPages (doc w) - 1)) 2
                (begin (withFlags true false w)))
      as (n & log & Hn & Hsent & Hlog).
    destruct (begin_frame (withFlags true false w))
      as (_ & _ & _ & _ & _ & Hb).
    rewrite Hb in Hsent. change (sent (withFlags true false w)) with (sent w) in Hsent.
    exists n, log. split; [exact Hn|]. split; [|split; [exact Hlog | eapply L; exact Hlog]].
    destruct (pagesLoop env _ 2 _) as [w1|w1]; simpl in Hsent |- *.
    + exact Hsent.
    + rewrite <- Hsent. apply (proj1 (complete_log w1)).
Qed.

(** X4.  On a board of one page, [loadAllPages] sends no request, leaves
    the table body and the alerts alone, and returns the rows of the page
    parsed; but it returns with [isLoadingAllPages] still set, so that every
    later call is the guard's: it returns the same records and changes
    nothing, whatever the page has become. *)
Theorem loadAllPages_single_page :
  forall (env : Env) (w : World),
    isLoadingAllPages (loader w) = false ->
    (getTotalPages (doc w) <= 1)%Z ->
    let (data, w') := loadAllPages env w in
    sent w' = sent w /\ tbody w' = tbody w /\ alerts w' = alerts w
    /\ data
       = match tbody w with
         | Some tb => parseRows (fun r => r) (rowsOf tb)
         | None => allPagesData (loader w)
         end
    /\ isLoadingAllPages (loader w') = true
    /\ forall env', loadAllPages env' w' = (data, w').
Proof.
  intros env w Hidle Hone.
  unfold loadAllPages. rewrite Hidle. cbv zeta.
  change (doc (withFlags true false w)) with (doc w).
  apply Z.leb_le in Hone. rewrite Hone.
  destruct w as [l d tb al se pr bu pa no]. unfold parseCurrentPage. simpl.
  destruct tb; simpl; repeat split; reflexivity.
Qed.

(** X5.  On a board of several pages, a call of [loadAllPages] on an idle
    loader always ends idle: whatever the server answers and whenever the
    cancel button is clicked, both flags are cleared, the button is
    released and the progress indicator is gone when it returns. *)
Theorem loadAllPages_ends_idle :
  forall (env : Env) (w : World),
    isLoadingAllPages (loader w) = false ->
    (1 < getTotalPages (doc w))%Z ->
    let w' := snd (loadAllPages env w) in
    isLoadingAllPages (loader w') = false
    /\ loadingAborted (loader w') = false
    /\ buttonBusy w' = false
    /\ progressShown w' = false.
Proof.
  intros env w Hidle Hmany.
  unfold loadAllPages. rewrite Hidle. cbv zeta.
  change (doc (withFlags true false w)) with (doc w).
  replace (getTotalPages (doc w) <=? 1)%Z with false
    by (symmetry; apply Z.leb_gt; exact Hmany).
  destruct (pagesLoop env _ 2 _) as [w1|w1] eqn:E; cbn [snd].
  - apply pagesLoop_cancelled_progress in E.
    split; [reflexivity|]. split; [reflexivity|]. split; [reflexivity|].
    exact E.
  - split; [reflexivity|]. split; [reflexivity|]. split; [reflexivity|].
    apply (proj1 (proj2 (complete_log w1))).
Qed.

(** X6.  The two requests for a page go to the same address.  In the query
    of the GET no name occurs twice, [page] is the page asked for, whatever
    the page's own forms and URL say, and [partial] is present; the body of
    the POST starts with the page asked for. *)
Theorem page_requests_ask_for_the_page :
  forall (d : Document) (page : Z),
    let g := buildGetRequest d page in
    let p := buildFilteredPageRequest d page in
    method g = GET /\ method p = POST /\ url g = url p
    /\ get (js "page") (params g) = Some (toString page)
    /\ NoDup (keys (params g))
    /\ has (js "partial") (params g) = true
    /\ hd_error (params p) = Some (js "page", toString page).
Proof.
  intros d page g p.
  destruct (buildGetRequest_query d page) as (H1 & H2 & H3).
  destruct (buildFilteredPageRequest_page d page) as (H4 & H5).
  split; [reflexivity|]. split; [exact H4|]. split.
  - unfold g, p, buildGetRequest, buildFilteredPageRequest. cbv zeta.
    destruct (csrfToken d) as [token|]; [destruct (truthy token)|];
      reflexivity.
  - repeat split; assumption.
Qed.


End LoaderProperties.

(* ===================================================================== *)
(** ** Facts about the order the sort produces *)
(* ===================================================================== *)

Module OrderFacts.
Import TableSorter Orders SorterFacts PatternFacts.

(** *** The insertion sort under a total preorder *)

Section Ordered.
Variable A : Type.
Variable cmp : A -> A -> Z.
Variable P : A -> Prop.
Hypothesis total :
  forall x y, P x -> P y -> (cmp x y <= 0)%Z \/ (cmp y x <= 0)%Z.
Hypothesis trans :
  forall x y z,
    P x -> P y -> P z -> (cmp x y <= 0)%Z -> (cmp y z <= 0)%Z ->
    (cmp x z <= 0)%Z.

(** Every element comes before, or with, all that follow it. *)
Fixpoint ordered (l : list A) : Prop :=
  match l with
  | [] => True
  | x :: l' => Forall (fun y => (cmp x y <= 0)%Z) l' /\ ordered l'
  end.

Lemma insert_ordered :
  forall x l,
    P x -> Forall P l -> ordered l -> ordered (insert cmp x l).
Proof.
  intros x l Px. induction l as [|y l IH]; intros Pl Hl; simpl.
  - split; [constructor | exact I].
  - inversion Pl as [|y' l' Py Pl']; subst. destruct Hl as [Hy Hl].
    destruct (cmp x y <=? 0)%Z eqn:E.
    + apply Z.leb_le in E. split; [|split; assumption].
      constructor; [exact E|].
      rewrite Forall_forall in *. intros z Hz.
      apply (trans x y z); auto.
    + apply Z.leb_gt in E. split; [|apply IH; assumption].
      eapply Permutation_Forall; [apply insert_perm|].
      constructor; [|exact Hy].
      destruct (total x y Px Py) as [H|H]; [lia | exact H].
Qed.

Lemma sort_ordered : forall l, Forall P l -> ordered (sort cmp l).
Proof.
  intros l. induction l as [|x l IH]; intros Pl; simpl.
  - exact I.
  - inversion Pl; subst. apply insert_ordered.
    + assumption.
    + eapply Permutation_Forall; [apply sort_perm | assumption].
    + apply IH. assumption.
Qed.

Lemma ordered_positions :
  forall l i j a b,
    ordered l -> i < j ->
    nth_error l i = Some a -> nth_error l j = Some b -> (cmp a b <= 0)%Z.
Proof.
  intros l. induction l as [|x l IH]; intros i j a b Hl Hij Hi Hj.
  - destruct i; discriminate Hi.
  - destruct Hl as [Hx Hl]. destruct j as [|j]; [lia|]. simpl in Hj.
    destruct i as [|i]; simpl in Hi.
    + injection Hi as <-. apply nth_error_In in Hj.
      rewrite Forall_forall in Hx. apply Hx. exact Hj.
    + apply (IH i j a b Hl); [lia | exact Hi | exact Hj].
Qed.

End Ordered.

(** *** Ties *)

Section Ties.
Variable A : Type.
Variable cmp : A -> A -> Z.
Variable p : A -> bool.
Hypothesis tie :
  forall x y, p x = true -> p y = true -> (cmp x y <= 0)%Z.

(** The elements of a class of ties stay in the order they had. *)
Lemma insert_filter :
  forall x l, filter p (insert cmp x l) = filter p (x :: l).
Proof.
  intros x l. induction l as [|y l IH].
  - reflexivity.
  - cbn [insert]. destruct (cmp x y <=? 0)%Z eqn:E; [reflexivity|].
    apply Z.leb_gt in E. cbn [filter] in *. rewrite IH.
    destruct (p y) eqn:Py; [|reflexivity].
    destruct (p x) eqn:Px; [|reflexivity].
    pose proof (tie x y Px Py). lia.
Qed.

Lemma sort_filter : forall l, filter p (sort cmp l) = filter p l.
Proof.
  intros l. induction l as [|x l IH].
  - reflexivity.
  - cbn [sort]. rewrite insert_filter. cbn [filter]. rewrite IH. reflexivity.
Qed.

End Ties.

Lemma compareUnits_refl : forall s, compareUnits s s = Eq.
Proof.
  intros s. induction s as [|c s IH]; simpl.
  - reflexivity.
  - rewrite N.compare_refl. exact IH.
Qed.

(** *** The order of strings *)

Lemma compareUnits_antisym :
  forall x y, compareUnits y x = CompOpp (compareUnits x y).
Proof.
  intros x. induction x as [|a x IH]; intros [|b y]; simpl; try reflexivity.
  rewrite (N.compare_antisym a b).
  destruct (a ?= b)%N; simpl; [apply IH | reflexivity | reflexivity].
Qed.

Lemma compareUnits_trans :
  forall x y z,
    compareUnits x y <> Gt -> compareUnits y z <> Gt -> compareUnits x z <> Gt.
Proof.
  intros x. induction x as [|a x IH]; intros [|b y] [|c z] H1 H2; simpl in *;
    try discriminate; try (exfalso; apply H1; reflexivity);
    try (exfalso; apply H2; reflexivity).
  destruct (N.compare_spec a b) as [E1|E1|E1];
    destruct (N.compare_spec b c) as [E2|E2|E2];
    destruct (N.compare_spec a c) as [E3|E3|E3];
    try discriminate;
    try (exfalso; apply H1; reflexivity);
    try (exfalso; apply H2; reflexivity);
    try (exfalso; lia).
  apply (IH y z H1 H2).
Qed.

(** *** Decimal numerals *)

Lemma readDigits_start :
  forall ds,
    ds <> [] -> Spec.allDigits ds = true ->
    readDigits 10 None ds = Some (Spec.digitsValue ds).
Proof.
  intros [|d ds] Hne H; [contradiction|].
  simpl in H. apply andb_true_iff in H. destruct H as [Hd Hds].
  simpl readDigits. rewrite (digitValue_digit d Hd).
  rewrite (readDigits_digits ds _ Hds). reflexivity.
Qed.

Lemma dropDigits_digits :
  forall ds, Spec.allDigits ds = true -> dropDigits ds = [].
Proof.
  intros ds. induction ds as [|d ds IH]; simpl; intros H.
  - reflexivity.
  - apply andb_true_iff in H. destruct H as [Hd Hds]. rewrite Hd.
    apply IH. exact Hds.
Qed.

(** [parseFloat] reads a run of digits as its decimal value. *)
Lemma parseFloat_digits :
  forall ds,
    ds <> [] -> Spec.allDigits ds = true ->
    exists q,
      parseFloat ds = Some q /\ (q == inject_Z (Spec.digitsValue ds))%Q.
Proof.
  intros ds Hne H.
  assert (T : signOf (trimStart ds) = (false, ds)).
  { destruct ds as [|d ds]; [contradiction|].
    simpl in H. apply andb_true_iff in H. destruct H as [Hd _].
    simpl trimStart. rewrite (digit_not_space d Hd).
    pose proof (digit_range d Hd) as Rd. unfold signOf.
    replace (d =? 45)%N with false by (symmetry; apply N.eqb_neq; lia).
    replace (d =? 43)%N with false by (symmetry; apply N.eqb_neq; lia).
    reflexivity. }
  unfold parseFloat. rewrite T.
  rewrite (readDigits_start ds Hne H), (dropDigits_digits ds H).
  eexists. split; [reflexivity|].
  rewrite Qred_correct. unfold Qeq, inject_Z. simpl. lia.
Qed.

Lemma removeAll_digits :
  forall s,
    forallb (fun c => isDigit c || (c =? 44)%N) s = true ->
    Spec.allDigits (removeAll 44 s) = true.
Proof.
  intros s. induction s as [|c s IH]; simpl; intros H.
  - reflexivity.
  - apply andb_true_iff in H. destruct H as [Hc Hs].
    destruct (c =? 44)%N eqn:E; simpl.
    + apply IH. exact Hs.
    + rewrite orb_false_r in Hc. rewrite Hc. apply IH. exact Hs.
Qed.

Lemma removeAll_keeps_digit :
  forall s, existsb isDigit s = true -> removeAll 44 s <> [].
Proof.
  intros s. induction s as [|c s IH]; simpl; intros H.
  - discriminate H.
  - destruct (isDigit c) eqn:D.
    + apply digit_range in D.
      replace (c =? 44)%N with false by (symmetry; apply N.eqb_neq; lia).
      simpl. discriminate.
    + simpl in H. destruct (negb (c =? 44)%N); [discriminate|].
      apply IH. exact H.
Qed.

(** What may follow the digits and commas at the head of a text, for the
    numeric pattern to stop there: nothing, or a unit that is no digit, no
    comma and no dot. *)
Definition stops (tail : jsstring) : Prop :=
  match tail with
  | [] => True
  | c :: _ => isDigit c = false /\ (c =? 44)%N = false /\ (c =? 46)%N = false
  end.

(** The numeric pattern takes the digits and commas at the head of a
    text. *)
Lemma exec_re_numeric :
  forall g tail,
    g <> [] ->
    forallb (fun c => isDigit c || (c =? 44)%N) g = true ->
    stops tail ->
    exists mt, exec false re_numeric (g ++ tail) = Some mt /\ whole mt = g.
Proof.
  intros g tail Hne H Htail.
  assert (C : forallb (oneOf [isDigit; ch ","]) g = true).
  { rewrite forallb_forall in *. intros x Hx. specialize (H x Hx).
    unfold oneOf. simpl. rewrite orb_false_r. exact H. }
  assert (M : m false re_numeric Some (MState 0 None (g ++ tail) [])
              = Some (MState (List.length g) (lastOf None g) tail [])).
  { unfold re_numeric, cats, plus, opt, star. cbn [m pos prev rest caps].
    apply repc_greedy.
    - exact C.
    - destruct tail as [|c t]; [exact I|].
      destruct Htail as (D & K & _). unfold oneOf. cbn [existsb].
      change (ch "," c) with (c =? 44)%N. rewrite D, K. reflexivity.
    - destruct g; [contradiction | simpl; lia].
    - destruct tail as [|c t]; [reflexivity|].
      destruct Htail as (D & _ & P).
      cbn [m repc pos prev rest caps].
      change (ch "." c) with (c =? 46)%N. rewrite P, D. reflexivity. }
  eexists. split.
  - unfold exec. apply search_here. unfold matchAt. rewrite M. reflexivity.
  - cbn [whole pos]. rewrite Nat.sub_0_r. apply firstn_exact. reflexivity.
Qed.

Section WithHost.
Context {host : Host}.

(** *** The comparator on the values of one kind *)

Definition inKind (k : kind) (cur : SortConfig) (r : LeaderboardRecord)
  : Prop :=
  ofKind k (getCellValue (element r) (column cur)) = true.

(** The order of two values in a direction. *)
Definition along (d : direction) (a b : value) : Prop :=
  match d with
  | asc => precedes a b
  | desc => precedes b a
  end.

Lemma precedes_total :
  forall k a b,
    ofKind k a = true -> ofKind k b = true ->
    isEmptyString a = false -> isEmptyString b = false ->
    precedes a b \/ precedes b a.
Proof.
  intros k a b Ka Kb Na Nb. unfold ofKind in Ka, Kb.
  rewrite Na in Ka. rewrite Nb in Kb. simpl in Ka, Kb.
  destruct k; destruct a as [x|x|x]; try discriminate Ka;
    destruct b as [y|y|y]; try discriminate Kb; simpl.
  - rewrite (compareUnits_antisym x y).
    destruct (compareUnits x y); simpl;
      [left; discriminate | left; discriminate | right; discriminate].
  - destruct (Qlt_le_dec x y) as [H|H]; [left; apply Qlt_le_weak; exact H|].
    right. exact H.
  - lia.
Qed.

Lemma precedes_trans :
  forall a b c, precedes a b -> precedes b c -> precedes a c.
Proof.
  intros [x|x|x] [y|y|y] [z|z|z]; simpl; try contradiction.
  - apply compareUnits_trans.
  - apply Qle_trans.
  - apply Z.le_trans.
Qed.

Lemma along_total :
  forall d k a b,
    ofKind k a = true -> ofKind k b = true ->
    isEmptyString a = false -> isEmptyString b = false ->
    along d a b \/ along d b a.
Proof.
  intros d k a b Ka Kb Na Nb. unfold along.
  destruct (precedes_total k a b Ka Kb Na Nb); destruct d; auto.
Qed.

Lemma along_trans :
  forall d a b c, along d a b -> along d b c -> along d a c.
Proof.
  intros d a b c. unfold along. destruct d; intros H1 H2.
  - eapply precedes_trans; eassumption.
  - eapply precedes_trans; eassumption.
Qed.

(** On two values that are not blank and of one kind, the comparator
    follows their order. *)
Lemma compare_values :
  forall cur k a b,
    inKind k cur a -> inKind k cur b ->
    isEmptyString (getCellValue (element a) (column cur)) = false ->
    isEmptyString (getCellValue (element b) (column cur)) = false ->
    ((compareRecords cur a b <= 0)%Z
     <-> along (dir cur) (getCellValue (element a) (column cur))
           (getCellValue (element b) (column cur))).
Proof.
  intros cur k a b Ka Kb Na Nb. unfold inKind, ofKind in Ka, Kb.
  unfold compareRecords. rewrite Na, Nb. rewrite Na in Ka. rewrite Nb in Kb.
  cbn [andb orb] in *. unfold along.
  destruct k;
    destruct (getCellValue (element a) (column cur)) as [x|x|x];
    try discriminate Ka;
    destruct (getCellValue (element b) (column cur)) as [y|y|y];
    try discriminate Kb; cbn [sameType precedes].
  - rewrite (compareUnits_antisym x y).
    destruct (compareUnits x y); destruct (dir cur); simpl; split; intros H;
      try lia; try discriminate; try (exfalso; apply H; reflexivity).
  - destruct (dir cur).
    + rewrite Qle_alt. destruct (x ?= y)%Q; split; intros H;
        try lia; try discriminate; try (exfalso; apply H; reflexivity).
    + rewrite (Qge_alt x y). destruct (x ?= y)%Q; split; intros H;
        try lia; try discriminate; try (exfalso; apply H; reflexivity).
  - destruct (Z.compare_spec x y); destruct (dir cur); simpl; split;
      intros H'; lia.
Qed.

Lemma compare_inKind :
  forall cur k a b,
    inKind k cur a -> inKind k cur b ->
    ((compareRecords cur a b <= 0)%Z
     <-> isEmptyString (getCellValue (element b) (column cur)) = true
         \/ (isEmptyString (getCellValue (element a) (column cur)) = false
             /\ isEmptyString (getCellValue (element b) (column cur)) = false
             /\ along (dir cur) (getCellValue (element a) (column cur))
                  (getCellValue (element b) (column cur)))).
Proof.
  intros cur k a b Ka Kb.
  destruct (isEmptyString (getCellValue (element a) (column cur))) eqn:Na;
    destruct (isEmptyString (getCellValue (element b) (column cur))) eqn:Nb.
  - unfold compareRecords. rewrite Na, Nb. simpl.
    split; [left; reflexivity | lia].
  - pose proof (compare_blank_after cur a b Na Nb) as C. split; [lia|].
    intros [H | (H & _)]; discriminate H.
  - pose proof (compare_before_blank cur a b Na Nb) as C.
    split; [left; reflexivity | intros _; exact C].
  - rewrite (compare_values cur k a b Ka Kb Na Nb). split.
    + intros H. right. repeat split. exact H.
    + intros [H | (_ & _ & H)]; [discriminate H | exact H].
Qed.

Lemma compare_total :
  forall cur k x y,
    inKind k cur x -> inKind k cur y ->
    (compareRecords cur x y <= 0)%Z \/ (compareRecords cur y x <= 0)%Z.
Proof.
  intros cur k x y Hx Hy.
  rewrite (compare_inKind cur k x y Hx Hy), (compare_inKind cur k y x Hy Hx).
  destruct (isEmptyString (getCellValue (element x) (column cur))) eqn:Nx;
    [right; left; reflexivity|].
  destruct (isEmptyString (getCellValue (element y) (column cur))) eqn:Ny;
    [left; left; reflexivity|].
  destruct (along_total (dir cur) k _ _ Hx Hy Nx Ny) as [H|H].
  - left. right. repeat split. exact H.
  - right. right. repeat split. exact H.
Qed.

Lemma compare_trans :
  forall cur k x y z,
    inKind k cur x -> inKind k cur y -> inKind k cur z ->
    (compareRecords cur x y <= 0)%Z -> (compareRecords cur y z <= 0)%Z ->
    (compareRecords cur x z <= 0)%Z.
Proof.
  intros cur k x y z Hx Hy Hz.
  rewrite (compare_inKind cur k x y Hx Hy), (compare_inKind cur k y z Hy Hz),
    (compare_inKind cur k x z Hx Hz).
  intros Hxy [Hz0 | (Ny & Nz & Hyz)]; [left; exact Hz0|].
  destruct Hxy as [Hy0 | (Nx & _ & Hxy)].
  - rewrite Ny in Hy0. discriminate Hy0.
  - right. repeat split; try assumption.
    eapply along_trans; eassumption.
Qed.

(** Two records with the same value are a tie for the comparator. *)
Lemma compare_tie :
  forall cur v a b,
    sameValue (getCellValue (element a) (column cur)) v = true ->
    sameValue (getCellValue (element b) (column cur)) v = true ->
    (compareRecords cur a b <= 0)%Z.
Proof.
  intros cur v a b Ha Hb. unfold compareRecords.
  destruct (getCellValue (element a) (column cur)) as [sa|qa|ta];
    destruct v as [sv|qv|tv]; try discriminate Ha;
    destruct (getCellValue (element b) (column cur)) as [sb|qb|tb];
    try discriminate Hb; simpl in Ha, Hb.
  - apply EntryFacts.jseqb_eq in Ha, Hb. subst sa sb.
    destruct sv as [|c sv]; simpl; [lia|].
    rewrite N.compare_refl, compareUnits_refl. destruct (dir cur); simpl; lia.
  - apply Qeq_bool_iff in Ha, Hb.
    assert (E : (qa ?= qb)%Q = Eq).
    { apply Qeq_alt. rewrite Ha, Hb. reflexivity. }
    simpl. rewrite E. destruct (dir cur); simpl; lia.
  - apply Z.eqb_eq in Ha, Hb. subst ta tb.
    simpl. rewrite Z.compare_refl. destruct (dir cur); simpl; lia.
Qed.

(** The sort of a column of one kind puts its values, blanks apart, in the
    order of the direction. *)
Lemma sort_along :
  forall cur k l i j a b,
    Forall (inKind k cur) l ->
    i < j ->
    nth_error (sort (compareRecords cur) l) i = Some a ->
    nth_error (sort (compareRecords cur) l) j = Some b ->
    isEmptyString (getCellValue (element a) (column cur)) = false ->
    isEmptyString (getCellValue (element b) (column cur)) = false ->
    along (dir cur) (getCellValue (element a) (column cur))
      (getCellValue (element b) (column cur)).
Proof.
  intros cur k l i j a b Hl Hij Hi Hj Na Nb.
  assert (S : Forall (inKind k cur) (sort (compareRecords cur) l)).
  { eapply Permutation_Forall; [apply sort_perm | exact Hl]. }
  rewrite Forall_forall in S.
  apply (compare_values cur k a b); try assumption.
  - apply S. eapply nth_error_In. exact Hi.
  - apply S. eapply nth_error_In. exact Hj.
  - apply (ordered_positions _ (compareRecords cur)
             (sort (compareRecords cur) l) i j a b); try assumption.
    apply (sort_ordered _ (compareRecords cur) (inKind k cur)).
    + apply compare_total.
    + apply compare_trans.
    + exact Hl.
Qed.

End WithHost.
End OrderFacts.

(* ===================================================================== *)
(** ** The sort: numbers in order *)
(* ===================================================================== *)

Section SorterProperties.
Import TableSorter Orders SorterFacts PatternFacts OrderFacts.
Context {host : Host}.

(** X7.  A click on the header of a column that is not the sorted one
    selects it in ascending direction, and the next click on it reverses
    the direction.  When the cells of that column that are not blank are all
    valued in one kind (all numbers, all strings or all dates), the array
    [sortData] returns after the first click holds their values in
    ascending order (numbers and dates by value, strings by code units),
    and after the second click in descending order. *)
Theorem clicks_sort_a_column_up_then_down :
  forall (cur : SortConfig) (c : Z) (h : Store) (data : Ref) (k : kind),
    c <> (-1)%Z ->
    column cur <> c ->
    (forall r,
        In r (read h data) -> ofKind k (getCellValue (element r) c) = true) ->
    let first := sortByColumn cur c in
    let second := sortByColumn first c in
    first = mkSort c asc /\ second = mkSort c desc
    /\ ascending c (sorted first h data)
    /\ descending c (sorted second h data).
Proof.
  intros cur c h data k Hc Hcur Hkind first second.
  assert (F : first = mkSort c asc).
  { unfold first, sortByColumn.
    destruct (column cur =? c)%Z eqn:E;
      [apply Z.eqb_eq in E; contradiction | reflexivity]. }
  assert (S : second = mkSort c desc).
  { unfold second. rewrite F. unfold sortByColumn. simpl.
    rewrite Z.eqb_refl. reflexivity. }
  split; [exact F|]. split; [exact S|].
  rewrite F, S. unfold sorted.
  rewrite !sortData_sorted by exact Hc. cbn [fst snd].
  rewrite !read_last.
  split.
  - intros i j a b Hij Hi Hj Na Nb.
    apply (sort_along (mkSort c asc) k (read h data) i j a b);
      try assumption.
    apply Forall_forall. intros r Hr. apply Hkind. exact Hr.
  - intros i j a b Hij Hi Hj Na Nb.
    apply (sort_along (mkSort c desc) k (read h data) i j a b);
      try assumption.
    apply Forall_forall. intros r Hr. apply Hkind. exact Hr.
Qed.

(** X8.  Outside the rank column, a cell whose text starts with digits and
    thousands separators, followed by nothing or by a unit that is no
    digit, comma or dot, is valued as the number those digits spell, the
    separators dropped and what follows ignored: [1,234 W] is 1234, and a
    time [9:59] is 9, the duration and date branches being reached only by
    texts that do not start in this way. *)
Theorem getCellValue_leading_digits :
  forall (row : DOM.element) (columnIndex : Z) (cell : node)
         (g tail : jsstring),
    columnIndex <> 0%Z ->
    cellAt (self row) columnIndex = Some cell ->
    text cell = g ++ tail ->
    grouped g = true ->
    match tail with
    | [] => True
    | c :: _ => isDigit c = false /\ (c =? 44)%N = false /\ (c =? 46)%N = false
    end ->
    exists q,
      getCellValue row columnIndex = VNumber q
      /\ (q == inject_Z (Spec.digitsValue (removeAll 44 g)))%Q.
Proof.
  intros row c cell g tail Hc Hcell Htext Hg Htail.
  unfold grouped in Hg. apply andb_true_iff in Hg. destruct Hg as [Hall Hex].
  assert (Hne : g <> []).
  { intros E. rewrite E in Hex. discriminate Hex. }
  destruct (exec_re_numeric g tail Hne Hall Htail) as (mt & Em & Wm).
  destruct (parseFloat_digits (removeAll 44 g)
              (removeAll_keeps_digit _ Hex) (removeAll_digits _ Hall))
    as (q & Pq & Eq).
  exists q. split; [|exact Eq].
  unfold getCellValue. rewrite Hcell.
  replace (c =? 0)%Z with false by (symmetry; apply Z.eqb_neq; exact Hc).
  assert (B : negb (truthy (text cell)) || jseqb (text cell) (js "-") = false).
  { rewrite Htext. destruct g as [|x t] eqn:T; [contradiction|].
    simpl in Hall. apply andb_true_iff in Hall. destruct Hall as [Hx _].
    simpl.
    assert (x <> 45%N).
    { intros ->. discriminate Hx. }
    replace (x =? 45)%N with false by (symmetry; apply N.eqb_neq; assumption).
    reflexivity. }
  rewrite B. unfold coerce. rewrite Htext, Em, Wm, Pq. reflexivity.
Qed.

(** X15.  When the cells of the selected column are all valued in one
    kind (all numbers, all strings or all dates, blanks apart), the
    comparator [sortData] hands to the sort is consistent on the records,
    total and transitive, and the sort keeps ties in place: in the array
    returned, in either direction, the records whose cells have one and the
    same value (strings unit by unit, numbers and dates by their value,
    blanks among them) come in the order they had in the input.  In
    particular the descending order is not the ascending one reversed. *)
Theorem sortData_keeps_ties_in_order :
  forall (cur : SortConfig) (h : Store) (data : Ref) (k : kind) (v : value),
    column cur <> (-1)%Z ->
    (forall r,
        In r (read h data) ->
        ofKind k (getCellValue (element r) (column cur)) = true) ->
    (forall x y,
        In x (read h data) -> In y (read h data) ->
        (compareRecords cur x y <= 0)%Z \/ (compareRecords cur y x <= 0)%Z)
    /\ (forall x y z,
           In x (read h data) -> In y (read h data) -> In z (read h data) ->
           (compareRecords cur x y <= 0)%Z ->
           (compareRecords cur y z <= 0)%Z ->
           (compareRecords cur x z <= 0)%Z)
    /\ filter (fun r => sameValue (getCellValue (element r) (column cur)) v)
         (sorted cur h data)
       = filter (fun r => sameValue (getCellValue (element r) (column cur)) v)
           (read h data).
Proof.
  intros cur h data k v Hc Hkind. split; [|split].
  - intros x y Hx Hy.
    apply (compare_total cur k); apply Hkind; assumption.
  - intros x y z Hx Hy Hz.
    apply (compare_trans cur k); apply Hkind; assumption.
  - unfold sorted.
    rewrite sortData_sorted by exact Hc. cbn [fst snd]. rewrite read_last.
    apply sort_filter. intros x y Hx Hy.
    apply (compare_tie cur v x y Hx Hy).
Qed.

End SorterProperties.

(* ===================================================================== *)
(** ** Facts about rows, pages and query strings *)
(* ===================================================================== *)

Module PageFacts.
Import PageLoader Orders EntryFacts LogFacts Pagination.

Lemma indexed_rows :
  forall l i, map (fun p => self (fst p)) (indexed i l) = l.
Proof.
  intros l. induction l as [|n l IH]; intros i; simpl.
  - reflexivity.
  - rewrite IH. reflexivity.
Qed.

Lemma parseRows_elements :
  forall (post : LeaderboardRecord -> LeaderboardRecord)
         (rows : list (DOM.element * Z)),
    (forall r, self (element (post r)) = self (element r)) ->
    map (fun r => self (element r)) (parseRows post rows)
    = filter wellFormed (map (fun p => self (fst p)) rows).
Proof.
  intros post rows Hpost. induction rows as [|[row index] rows IH]; simpl.
  - reflexivity.
  - unfold parseTableRow, wellFormed at 1, cellsOfRow. cbv zeta.
    destruct (List.length (querySelectorAll (self row) (sel1 [Tag "td"])))
      as [|[|[|n]]] eqn:L; simpl; try exact IH.
    rewrite Hpost. simpl. rewrite IH. reflexivity.
Qed.

Lemma firstSome_None :
  forall (A B : Type) (f : A -> option B) (l : list A),
    firstSome f l = None -> Forall (fun x => f x = None) l.
Proof.
  intros A B f l. induction l as [|x l IH]; simpl; intros H.
  - constructor.
  - destruct (f x) eqn:E; [discriminate H|].
    constructor; [exact E | apply IH; exact H].
Qed.

(** The value of a name in entries put end to end. *)
Lemma get_app :
  forall k (a b : entries),
    get k (a ++ b) = match get k a with Some v => Some v | None => get k b end.
Proof.
  intros k a b. induction a as [|[k1 v1] a IH]; simpl.
  - reflexivity.
  - destruct (jseqb k k1); [reflexivity | exact IH].
Qed.

(** A loop that sets the names passing a test: each such name ends with
    its last value. *)
Lemma kept_fold :
  forall (ok : jsstring -> bool) (ps : entries) (acc : entries)
         (k : jsstring),
    get k
      (fold_left
         (fun params '(key, value) =>
            if ok key then set key value params else params)
         ps acc)
    = match (if ok k then lastValue k ps else None) with
      | Some v => Some v
      | None => get k acc
      end.
Proof.
  intros ok ps. induction ps as [|[k1 v1] ps IH]; intros acc k.
  - cbn [fold_left]. unfold lastValue. cbn [rev get].
    destruct (ok k); reflexivity.
  - cbn [fold_left]. rewrite IH. unfold lastValue. cbn [rev].
    rewrite get_app. cbn [get].
    destruct (ok k) eqn:Kk.
    + destruct (get k (rev ps)) as [v|]; [reflexivity|].
      destruct (jseqb k k1) eqn:E.
      * apply jseqb_eq in E. subst k1. rewrite Kk. apply get_set_same.
      * destruct (ok k1); [apply get_set_other; exact E | reflexivity].
    + destruct (ok k1) eqn:K1; [|reflexivity].
      apply get_set_other.
      destruct (jseqb k k1) eqn:E; [|reflexivity].
      apply jseqb_eq in E. subst k1. rewrite Kk in K1. discriminate K1.
Qed.

End PageFacts.

(* ===================================================================== *)
(** ** Rows, pages and query strings *)
(* ===================================================================== *)

Section PageProperties.
Import PageLoader Orders EntryFacts LogFacts Pagination PagesFacts PageFacts.
Import PageNumberFacts.
Context {host : Host}.

(** X9.  The rows of a table body are parsed one by one and a row with
    fewer than three cells is passed over without stopping the others: the
    records obtained hold, in the order of the body, exactly its rows of
    three cells or more.  This is so for the rows of the page (the records
    hold the rows themselves) and for the rows of a fetched page (the
    records hold copies of them). *)
Theorem rows_of_three_cells_are_kept :
  forall (tb : node),
    map (fun r => self (element r)) (parseRows (fun r => r) (rowsOf tb))
    = filter wellFormed (querySelectorAll tb (sel1 [Tag "tr"]))
    /\ map (fun r => self (element r))
         (parseRows (fun r => withElement (cloneNode (element r)) r)
            (rowsOf tb))
       = filter wellFormed (querySelectorAll tb (sel1 [Tag "tr"])).
Proof.
  intros tb. unfold rowsOf. split.
  - rewrite parseRows_elements by reflexivity.
    rewrite indexed_rows. reflexivity.
  - rewrite parseRows_elements by reflexivity.
    rewrite indexed_rows. reflexivity.
Qed.

(** X10.  When [findPagination] finds no pagination element and the links
    of the document are plain (each link whose address holds [page=]
    carries its page number there), [getTotalPages] is the largest page
    number among the links of the whole document: no link carries a larger
    one, and one of them carries it unless the result is 1, which it is
    when there is no such link. *)
Theorem getTotalPages_without_pagination :
  forall (d : Document),
    findPagination d = None ->
    Spec.plain (Spec.docPageLinks d) ->
    (forall link n,
        In link (Spec.docPageLinks d) -> Spec.pageNumbered link n ->
        (n <= getTotalPages d)%Z)
    /\ (getTotalPages d = 1%Z
        \/ exists link,
             In link (Spec.docPageLinks d)
             /\ Spec.pageNumbered link (getTotalPages d))
    /\ (Spec.docPageLinks d = [] -> getTotalPages d = 1%Z).
Proof.
  intros d H P. unfold findPagination in H. apply firstSome_None in H.
  assert (S1 : scanSelectors (root d) paginationSelectors 1 = 1%Z).
  { rewrite <- (app_nil_r paginationSelectors).
    rewrite scanSelectors_skip; [reflexivity|].
    change findPaginationSelectors
      with (paginationSelectors ++ [sel1 [Class "pager"]]) in H.
    apply Forall_app in H. destruct H as [H _]. exact H. }
  assert (G : getTotalPages d
              = scanLinks (docQueryAll (root d) pageLinkSelector) 1).
  { unfold getTotalPages. rewrite S1. reflexivity. }
  destruct (scanLinks_document d P) as (_ & A & E).
  rewrite G. split; [exact A|]. split; [exact E|].
  intros N. rewrite pageLinks_document, N. reflexivity.
Qed.

(** X11.  [parseUrlParams] keeps, of the parameters of an address, the
    four names of its list and never [page]; no name occurs twice in what
    it returns, and when a name is repeated in the address its last value
    is the one kept. *)
Theorem parseUrlParams_last_value :
  forall (url : jsstring) (ps : entries),
    searchParamsOf url = Some ps ->
    NoDup (keys (parseUrlParams url))
    /\ forall k,
         get k (parseUrlParams url)
         = if negb (jseqb k (js "page")) && member k urlAllowedParams
           then lastValue k ps
           else None.
Proof.
  intros url ps H. unfold parseUrlParams. rewrite H. split.
  - apply (fold_left_inv _ _ _ (fun o => NoDup (keys o)) (fun _ => True)).
    + intros o [k v] Ho _.
      destruct (negb (jseqb k (js "page")) && member k urlAllowedParams);
        [apply set_NoDup; exact Ho | exact Ho].
    + apply Forall_forall. intros x _. exact I.
    + constructor.
  - intros k.
    rewrite (kept_fold
               (fun key =>
                  negb (jseqb key (js "page")) && member key urlAllowedParams)).
    cbv beta.
    destruct (negb (jseqb k (js "page")) && member k urlAllowedParams);
      [destruct (lastValue k ps)|]; reflexivity.
Qed.

End PageProperties.

(* ===================================================================== *)
(** ** Facts about the column panel *)
(* ===================================================================== *)

Module ColumnFacts.
Import ColumnControl EntryFacts LogFacts.

Lemma flagOf_define_same : forall k v o, flagOf k (define k v o) = Some v.
Proof.
  intros k v o. induction o as [|[k1 v1] o IH]; simpl.
  - rewrite jseqb_refl. reflexivity.
  - destruct (jseqb k k1) eqn:E; simpl.
    + rewrite jseqb_refl. reflexivity.
    + rewrite E. exact IH.
Qed.

Lemma flagOf_define_other :
  forall k k' v o, jseqb k k' = false -> flagOf k (define k' v o) = flagOf k o.
Proof.
  intros k k' v o H. induction o as [|[k1 v1] o IH]; simpl.
  - rewrite H. reflexivity.
  - destruct (jseqb k' k1) eqn:E; simpl.
    + apply jseqb_eq in E. subst k1. rewrite H. reflexivity.
    + rewrite IH. reflexivity.
Qed.

(** An assignment, seen from a name other than [__proto__]. *)
Lemma flagOf_assign :
  forall k k' v o,
    jseqb k proto = false ->
    flagOf k (assign k' v o) = if jseqb k k' then Some v else flagOf k o.
Proof.
  intros k k' v o P. unfold assign. destruct (jseqb k' proto) eqn:P'.
  - apply jseqb_eq in P'. subst k'. rewrite P. reflexivity.
  - destruct (jseqb k k') eqn:E.
    + apply jseqb_eq in E. subst k'. apply flagOf_define_same.
    + apply flagOf_define_other. exact E.
Qed.

(** A loop over the columns sets the flag of each of their names. *)
Lemma flagOf_assignAll :
  forall v cols o k,
    jseqb k proto = false ->
    flagOf k (assignAll v cols o)
    = if member k cols then Some v else flagOf k o.
Proof.
  intros v cols. unfold assignAll.
  induction cols as [|c cols IH]; intros o k P.
  - reflexivity.
  - cbn [fold_left]. rewrite IH by exact P. rewrite flagOf_assign by exact P.
    unfold member. cbn [existsb].
    destruct (jseqb k c); destruct (existsb (jseqb k) cols); reflexivity.
Qed.

Lemma handle_columns : forall s e, columns (handle s e) = columns s.
Proof.
  intros s [[c|] checked| |]; simpl; try reflexivity.
  destruct (truthy c); reflexivity.
Qed.

Lemma handleAll_columns : forall es s, columns (handleAll s es) = columns s.
Proof.
  intros es. unfold handleAll.
  induction es as [|e es IH]; intros s; simpl.
  - reflexivity.
  - rewrite IH. apply handle_columns.
Qed.

(** The name [__proto__] reads as shown, whatever was assigned. *)
Lemma isVisible_proto : forall s, isVisible s proto = true.
Proof. intros s. reflexivity. Qed.

(** One event, seen from a name other than [__proto__]. *)
Lemma handle_visible :
  forall s e k,
    jseqb k proto = false ->
    isVisible (handle s e) k
    = match e with
      | Change (Some c) checked =>
          if truthy c && jseqb c k then checked else isVisible s k
      | Change None _ => isVisible s k
      | SelectAll => if member k (columns s) then true else isVisible s k
      | SelectNone => if member k (columns s) then false else isVisible s k
      end.
Proof.
  intros s e k P. unfold isVisible, truthyAt. rewrite P.
  destruct e as [[c|] checked| |]; simpl.
  - destruct (truthy c); simpl; [|reflexivity].
    rewrite flagOf_assign by exact P. rewrite (jseqb_sym c k).
    destruct (jseqb k c); reflexivity.
  - reflexivity.
  - rewrite flagOf_assignAll by exact P.
    destruct (member k (columns s)); reflexivity.
  - rewrite flagOf_assignAll by exact P.
    destruct (member k (columns s)); reflexivity.
Qed.

Lemma handleAll_visible :
  forall es s k,
    jseqb k proto = false ->
    isVisible (handleAll s es) k
    = lastWord k (member k (columns s)) (isVisible s k) es.
Proof.
  intros es. induction es as [|e es IH]; intros s k P.
  - reflexivity.
  - change (handleAll s (e :: es)) with (handleAll (handle s e) es).
    rewrite IH by exact P. rewrite handle_columns.
    rewrite handle_visible by exact P. reflexivity.
Qed.

End ColumnFacts.

(* ===================================================================== *)
(** ** The column panel: who is shown *)
(* ===================================================================== *)

Section ColumnProperties.
Import ColumnControl ColumnFacts.

(** X12.  After the constructor and any sequence of events of the panel,
    the list of columns is the one read from the header row, and a column
    is shown exactly when the last word on its name says so: every column
    starts shown; a click on the button that selects all, or none, sets all
    the columns; a change of a check box sets the columns that bear its
    name, and does nothing when that name is empty.  The flag is kept by
    name: two columns whose headers read the same are shown and hidden
    together, and the cells of rank [index] get the display of the name of
    the column of that rank.  The flags are the properties of a plain
    object: the name [__proto__] cannot be stored and reads as set, so that
    a column with that header is shown whatever the events; and a name that
    is no column reads as set, until a check box changes it, when it is the
    name of a method of every object. *)
Theorem visibility_follows_the_last_word :
  forall (table : node) (es : list event),
    let s := handleAll (construct table) es in
    columns s = initializeColumns table
    /\ (forall columnName,
           isVisible s columnName
           = if jseqb columnName proto then true
             else lastWord columnName
                    (member columnName (initializeColumns table))
                    (member columnName (initializeColumns table)
                     || member columnName inherited)
                    es)
    /\ (forall index columnName,
           nth_error (initializeColumns table) index = Some columnName ->
           displayOf s index
           = Some (if jseqb columnName proto || lastWord columnName true true es
                   then []
                   else js "none")).
Proof.
  intros table es s.
  assert (C : columns s = initializeColumns table).
  { unfold s. rewrite handleAll_columns. reflexivity. }
  assert (V : forall columnName,
             isVisible s columnName
             = if jseqb columnName proto then true
               else lastWord columnName
                      (member columnName (initializeColumns table))
                      (member columnName (initializeColumns table)
                       || member columnName inherited)
                      es).
  { intros k. destruct (jseqb k proto) eqn:P.
    - apply EntryFacts.jseqb_eq in P. subst k. apply isVisible_proto.
    - unfold s. rewrite handleAll_visible by exact P. f_equal.
      unfold isVisible, truthyAt, construct, initializeColumnVisibility.
      cbn [columnVisibility]. rewrite P.
      rewrite flagOf_assignAll by exact P.
      destruct (member k (initializeColumns table)); reflexivity. }
  split; [exact C|]. split; [exact V|].
  intros index k Hk. unfold displayOf. rewrite C, Hk, V.
  replace (member k (initializeColumns table)) with true.
  - destruct (jseqb k proto); reflexivity.
  - symmetry. apply EntryFacts.member_In. apply nth_error_In in Hk. exact Hk.
Qed.

(** A header that reads [__proto__]: the column stays shown after a click
    on the button that selects none, and the other column is hidden. *)
Lemma a_column_named_proto_stays_shown :
  let table :=
    Elem "table" []
      [Elem "thead" []
         [Elem "tr" []
            [Cases.th [Text (js "__proto__")]; Cases.th [Text (js "Name")]]]]
  in
  let s := handleAll (construct table) [SelectNone] in
  columns s = [js "__proto__"; js "Name"]
  /\ displayOf s 0 = Some []
  /\ displayOf s 1 = Some (js "none").
Proof. split; [|split]; vm_compute; reflexivity. Qed.

End ColumnProperties.

(* ===================================================================== *)
(** ** Facts about the address of the requests *)
(* ===================================================================== *)

Module EndpointFacts.
Import PageLoader EntryFacts PatternFacts LogFacts.

(** What may follow the number of the segment in a path. *)
Definition closesPart (rest : jsstring) : Prop :=
  rest = [] \/ exists r, rest = 47%N :: r.

Lemma splitSlash_digits :
  forall ds cur rest,
    Spec.allDigits ds = true -> closesPart rest ->
    exists tl, splitSlash cur (ds ++ rest) = (rev cur ++ ds) :: tl.
Proof.
  intros ds. induction ds as [|d ds IH]; intros cur rest Hds Hrest.
  - simpl. rewrite app_nil_r. destruct Hrest as [-> | (r & ->)].
    + exists []. reflexivity.
    + exists (splitSlash [] r). reflexivity.
  - simpl in Hds. apply andb_true_iff in Hds. destruct Hds as [Hd Hds].
    pose proof (digit_range d Hd) as Rd. simpl.
    replace (d =? 47)%N with false by (symmetry; apply N.eqb_neq; lia).
    destruct (IH (d :: cur) rest Hds Hrest) as (tl & E).
    exists tl. rewrite E. simpl. rewrite <- app_assoc. reflexivity.
Qed.

(** The path of the endpoint on a page of a segment. *)
Lemma leaderboardPath_segment :
  forall ds rest,
    Spec.allDigits ds = true -> closesPart rest ->
    leaderboardPath (js "/segments/" ++ ds ++ rest)
    = if includes (js "/segments/" ++ ds ++ rest) (js "/leaderboard")
      then js "/segments/" ++ ds ++ rest
      else js "/segments/" ++ ds ++ js "/leaderboard".
Proof.
  intros ds rest Hds Hrest. unfold leaderboardPath.
  destruct (includes (js "/segments/" ++ ds ++ rest) (js "/leaderboard"));
    [reflexivity|].
  destruct (splitSlash_digits ds [] rest Hds Hrest) as (tl & E).
  change (splitSlash [] (js "/segments/" ++ ds ++ rest))
    with ([] :: js "segments" :: splitSlash [] (ds ++ rest)).
  rewrite E. reflexivity.
Qed.

(** The segment pattern finds the number at the start of such a path. *)
Lemma exec_re_segment :
  forall ds more,
    ds <> [] -> Spec.allDigits ds = true -> closesPart more ->
    exists mt,
      exec false re_segment (js "/segments/" ++ ds ++ more) = Some mt
      /\ group 1 mt = ds.
Proof.
  intros ds more Hne Hds Hrest.
  assert (M : m false re_segment Some
                (MState 0 None (js "/segments/" ++ ds ++ more) [])
              = Some (MState (10 + List.length ds) (lastOf (Some 47%N) ds)
                        more [(1, ds)])).
  { unfold re_segment, cats, word, plus. simpl lits.
    cbn [m pos prev rest caps app js]. simpl fold. cbn [N.eqb Pos.eqb].
    cbn [m pos prev rest caps].
    apply repc_greedy.
    - exact Hds.
    - destruct Hrest as [-> | (r & ->)]; [exact I | reflexivity].
    - destruct ds; [contradiction | simpl; lia].
    - cbn [pos prev rest caps].
      replace (10 + List.length ds - 10) with (List.length ds) by lia.
      rewrite (firstn_exact ds more) by reflexivity. reflexivity. }
  eexists. split.
  - unfold exec. apply search_here. unfold matchAt. rewrite M. reflexivity.
  - reflexivity.
Qed.

Section WithHost.
Context {host : Host}.

(** The label of a filter touches no other name than [filter]. *)
Lemma withFilterLabel_other :
  forall cf fp fd k,
    jseqb k (js "filter") = false ->
    get k (withFilterLabel cf fp fd) = get k fd.
Proof.
  intros cf fp fd k Hk. unfold withFilterLabel.
  destruct cf as [cf|]; [|reflexivity].
  destruct fp; [reflexivity|].
  destruct (truthy (filterValue cf)); [|reflexivity].
  repeat match goal with
         | |- context [if ?b then _ else _] => destruct b
         end;
    try reflexivity; apply get_set_other; exact Hk.
Qed.

End WithHost.
End EndpointFacts.

(* ===================================================================== *)
(** ** The requests on a page of a segment *)
(* ===================================================================== *)

Section EndpointProperties.
Import PageLoader EntryFacts PatternFacts LogFacts EndpointFacts.
Context {host : Host}.

(** X13.  On a page whose path is [/segments/<digits>], alone or followed
    by other parts, both requests for a page go to the leaderboard of that
    segment: to the path of the page itself when it holds [/leaderboard],
    else to [/segments/<digits>/leaderboard]; and the body of the POST
    carries the number of the segment under the name [segment_id], whatever
    the forms and the attributes of the page say. *)
Theorem requests_target_the_segment :
  forall (d : Document) (page : Z) (ds rest : jsstring),
    pathname (location d) = js "/segments/" ++ ds ++ rest ->
    ds <> [] -> Spec.allDigits ds = true ->
    rest = [] \/ (exists r, rest = 47%N :: r) ->
    let endpoint :=
      origin (location d)
      ++ (if includes (pathname (location d)) (js "/leaderboard")
          then pathname (location d)
          else js "/segments/" ++ ds ++ js "/leaderboard") in
    url (buildGetRequest d page) = endpoint
    /\ url (buildFilteredPageRequest d page) = endpoint
    /\ In (js "segment_id", ds) (params (buildFilteredPageRequest d page)).
Proof.
  intros d page ds rest Hpath Hne Hds Hrest endpoint.
  assert (P : leaderboardPath (pathname (location d))
              = if includes (pathname (location d)) (js "/leaderboard")
                then pathname (location d)
                else js "/segments/" ++ ds ++ js "/leaderboard").
  { rewrite Hpath. apply leaderboardPath_segment; assumption. }
  assert (U : url (buildFilteredPageRequest d page) = endpoint).
  { unfold buildFilteredPageRequest. cbv zeta.
    destruct (csrfToken d) as [token|]; [destruct (truthy token)|];
      cbn [url]; rewrite P; reflexivity. }
  split; [|split; [exact U|]].
  - unfold buildGetRequest. cbv zeta. cbn [url]. rewrite P. reflexivity.
  - destruct (exec_re_segment ds rest Hne Hds Hrest) as (mt & Em & Gm).
    assert (G : get (js "segment_id") (formData (getFilterRequestData d))
                = Some ds).
    { unfold getFilterRequestData. cbv zeta. cbn [formData].
      rewrite withFilterLabel_other by reflexivity.
      unfold withSegmentId. rewrite Hpath, Em, Gm. apply get_set_same. }
    assert (B : In (js "segment_id", ds)
                  ([(js "page", toString page)]
                   ++ map (fun k =>
                             (toUSV k,
                              toUSV (getOr k (formData (getFilterRequestData d)))))
                        (filter
                           (fun k =>
                              truthy (getOr k (formData (getFilterRequestData d))))
                           (ownKeys (formData (getFilterRequestData d)))))).
    { apply in_or_app. right. apply in_map_iff.
      exists (js "segment_id"). split.
      - unfold getOr. rewrite G. rewrite (toUSV_plain ds); [reflexivity|].
        unfold Spec.allDigits in Hds. rewrite forallb_forall in *.
        intros c Hc. specialize (Hds c Hc). apply digit_range in Hds.
        unfold isHighSurrogate, isLowSurrogate.
        replace (55296 <=? c)%N with false by (symmetry; apply N.leb_gt; lia).
        replace (56320 <=? c)%N with false by (symmetry; apply N.leb_gt; lia).
        reflexivity.
      - apply filter_In. split; [apply ownKeys_In; eapply get_keys; exact G|].
        unfold getOr. rewrite G. destruct ds; [contradiction | reflexivity]. }
    rewrite <- (appended (fun k => getOr k (formData (getFilterRequestData d))))
      in B.
    unfold buildFilteredPageRequest. cbv zeta.
    destruct (csrfToken d) as [token|]; [destruct (truthy token)|];
      cbn [params]; try exact B.
    apply in_or_app. left. exact B.
Qed.

End EndpointProperties.

(* ===================================================================== *)
(** ** Facts about calls under way *)
(* ===================================================================== *)

Module ScheduleFacts.
Import PageLoader Schedule LoaderFacts.

(** The number of calls under way. *)
Definition underWay (cs : list Call) : nat := List.length (filter inFlight cs).

Definition tally (c : Call) : nat := if inFlight c then 1 else 0.

Lemma underWay_app :
  forall a b, underWay (a ++ b) = underWay a + underWay b.
Proof.
  intros a b. unfold underWay. rewrite filter_app, length_app. reflexivity.
Qed.

Lemma underWay_one : forall c, underWay [c] = tally c.
Proof.
  intros c. unfold underWay, tally. simpl. destruct (inFlight c); reflexivity.
Qed.

Lemma underWay_replace :
  forall cs i c c',
    nth_error cs i = Some c ->
    underWay (replace i c' cs) + tally c = underWay cs + tally c'.
Proof.
  intros cs. induction cs as [|x cs IH]; intros i c c' H.
  - destruct i; discriminate H.
  - destruct i as [|i]; simpl in H.
    + injection H as ->. unfold underWay, tally. simpl.
      destruct (inFlight c), (inFlight c'); simpl; lia.
    + specialize (IH i c c' H). unfold underWay in *. simpl.
      destruct (inFlight x); simpl; lia.
Qed.

Lemma underWay_pos :
  forall cs i c,
    nth_error cs i = Some c -> inFlight c = true -> 0 < underWay cs.
Proof.
  intros cs. unfold underWay.
  induction cs as [|x cs IH]; intros i c E C.
  - destruct i; discriminate E.
  - destruct i as [|i]; simpl in E.
    + injection E as ->. simpl. rewrite C. simpl. lia.
    + simpl. destruct (inFlight x); simpl; [lia | apply (IH i c E C)].
Qed.

Section WithHost.
Context {host : Host}.

(** A turn that ends at an [await] leaves the in-progress flag alone. *)
Lemma turn_loading :
  forall page totalPages w,
    inFlight (mkCall (fst (turn page totalPages w)) false) = true ->
    isLoadingAllPages (loader (snd (turn page totalPages w)))
    = isLoadingAllPages (loader w).
Proof.
  intros page totalPages w. unfold turn.
  destruct (page <=? totalPages)%Z; [destruct (loadingAborted (loader w))|];
    cbn [fst snd inFlight point]; intros H;
    [discriminate H | reflexivity | discriminate H].
Qed.

Lemma answer_loading :
  forall r p w,
    isLoadingAllPages (loader (snd (answer r p w)))
    = isLoadingAllPages (loader w).
Proof.
  intros r p w. unfold answer, push.
  destruct p; cbn [fst snd]; try reflexivity.
  - destruct (Nat.ltb 0 (List.length (received r))); reflexivity.
  - destruct (Nat.ltb 0 (List.length (received r))); reflexivity.
Qed.

Lemma answer_returned :
  forall r l w, answer r (Returned l) w = (Returned l, w).
Proof. reflexivity. Qed.

Lemma elapse_returned :
  forall l w, elapse (Returned l) w = (Returned l, w).
Proof. reflexivity. Qed.

Lemma elapse_loading :
  forall p w,
    inFlight (mkCall (fst (elapse p w)) false) = true ->
    isLoadingAllPages (loader (snd (elapse p w)))
    = isLoadingAllPages (loader w).
Proof.
  intros p w. destruct p; cbn [elapse fst snd]; try reflexivity.
  apply turn_loading.
Qed.

(** A call that enters the loop has set the in-progress flag. *)
Lemma invoke_loading :
  forall w,
    isLoadingAllPages (loader w) = false ->
    inFlight (mkCall (fst (invoke w)) false) = true ->
    isLoadingAllPages (loader (snd (invoke w))) = true.
Proof.
  intros w Hidle. unfold invoke. rewrite Hidle. cbv zeta.
  destruct (getTotalPages (doc (withFlags true false w)) <=? 1)%Z.
  - cbn [fst inFlight point]. intros H. discriminate H.
  - intros H. rewrite turn_loading by exact H.
    destruct w as [l d tb al se pr bu pa no].
    unfold begin, parseCurrentPage. simpl. destruct tb; reflexivity.
Qed.

(** A call made while the in-progress flag is set returns at once. *)
Lemma invoke_guard :
  forall w,
    isLoadingAllPages (loader w) = true ->
    invoke w = (Returned (allPagesData (loader w)), w).
Proof. intros w H. unfold invoke. rewrite H. reflexivity. Qed.

(** What holds between two events when nobody cancels: no call is under
    way, or one is and the in-progress flag is set. *)
Definition exclusive (s : System) : Prop :=
  underWay (calls s) = 0
  \/ (underWay (calls s) = 1
      /\ isLoadingAllPages (loader (world s)) = true).

Lemma resume_exclusive :
  forall (f : Point -> World -> Point * World) i s,
    (forall l w, f (Returned l) w = (Returned l, w)) ->
    (forall p w,
        inFlight (mkCall (fst (f p w)) false) = true ->
        isLoadingAllPages (loader (snd (f p w)))
        = isLoadingAllPages (loader w)) ->
    exclusive s -> exclusive (resume i f s).
Proof.
  intros f i s Fret Fload I. unfold resume.
  destruct (nth_error (calls s) i) as [c|] eqn:E; [|exact I].
  destruct (f (point c) (withProgress (indicator c) (world s))) as [p w] eqn:F.
  pose proof (underWay_replace (calls s) i c (mkCall p (progressShown w)) E)
    as U.
  unfold exclusive, settle. cbn [calls world loader withProgress].
  destruct (inFlight c) eqn:C.
  - (* the call was under way: it is the only one *)
    destruct I as [I|[I L]].
    + exfalso. unfold tally in U. rewrite C in U.
      pose proof (underWay_pos (calls s) i c E C). lia.
    + unfold tally in U. rewrite C in U.
      destruct (inFlight (mkCall p (progressShown w))) eqn:P;
        rewrite ?P in U.
      * right. split; [lia|].
        specialize (Fload (point c) (withProgress (indicator c) (world s))).
        rewrite F in Fload. cbn [fst snd] in Fload.
        rewrite Fload by exact P. exact L.
      * left. lia.
  - (* the call had returned: nothing changes *)
    assert (R : exists l, point c = Returned l).
    { unfold inFlight in C. destruct (point c); try discriminate C.
      eexists. reflexivity. }
    destruct R as (l & R). rewrite R, Fret in F. injection F as <- <-.
    unfold tally in U. rewrite C in U. cbn [inFlight point] in U.
    destruct I as [I|[I L]]; [left; lia | right; split; [lia | exact L]].
Qed.

Lemma step_exclusive :
  forall s e, isCancel e = false -> exclusive s -> exclusive (step s e).
Proof.
  intros s e He I. destruct e as [|i r|i|i]; [| | |discriminate He].
  - (* a call *)
    unfold step.
    destruct (invoke (withProgress false (world s))) as [p w] eqn:V.
    unfold exclusive, settle. cbn [calls world loader withProgress].
    rewrite underWay_app.
    rewrite underWay_one.
    destruct (isLoadingAllPages (loader (world s))) eqn:L.
    + rewrite invoke_guard in V by exact L. injection V as <- <-.
      unfold tally. cbn [inFlight point].
      destruct I as [I|[I _]]; [left; lia | right; split; [lia | exact L]].
    + destruct I as [I|[_ I]]; [|rewrite I in L; discriminate L].
      unfold tally.
      destruct (inFlight (mkCall p (progressShown w))) eqn:P.
      * right. split; [lia|].
        pose proof (invoke_loading (withProgress false (world s)) L) as Q.
        rewrite V in Q. apply Q. exact P.
      * left. lia.
  - apply resume_exclusive;
      [apply answer_returned | intros p w _; apply answer_loading | exact I].
  - apply resume_exclusive;
      [apply elapse_returned | apply elapse_loading | exact I].
Qed.

Lemma play_exclusive :
  forall es s,
    existsb isCancel es = false -> exclusive s -> exclusive (play es s).
Proof.
  intros es. induction es as [|e es IH]; intros s H I.
  - exact I.
  - simpl in H. apply orb_false_iff in H. destruct H as [He Hes].
    apply IH; [exact Hes | apply step_exclusive; assumption].
Qed.

(** *** One call alone *)

(** A system of one call that sees its own indicator. *)
Definition solo (p : Point) (w : World) : System :=
  mkSystem w [mkCall p (progressShown w)].

Lemma withProgress_same : forall w, withProgress (progressShown w) w = w.
Proof. intros [l d tb al se pr bu pa no]. reflexivity. Qed.

Lemma settle_solo :
  forall p w, settle w [mkCall p (progressShown w)] = solo p w.
Proof.
  intros p w. unfold settle, solo. cbn [existsb indicator].
  rewrite orb_false_r, withProgress_same. reflexivity.
Qed.

Lemma resume_solo :
  forall f p w,
    resume 0 f (solo p w) = solo (fst (f p w)) (snd (f p w)).
Proof.
  intros f p w. unfold resume, solo.
  cbn [calls nth_error point indicator world].
  rewrite withProgress_same. destruct (f p w) as [p' w'].
  cbn [replace fst snd]. exact (settle_solo p' w').
Qed.

Lemma cancel_solo :
  forall p w,
    progressShown w = true ->
    step (solo p w) (Cancel 0) = solo p (clickCancel w).
Proof.
  intros p w H. unfold step, solo.
  cbn [calls nth_error point indicator world]. rewrite H.
  cbn [replace]. exact (settle_solo p (clickCancel w)).
Qed.

Lemma invoke_solo :
  forall w,
    progressShown w = false ->
    step (fresh w) Invoke = solo (fst (invoke w)) (snd (invoke w)).
Proof.
  intros w H. unfold step, fresh. cbn [world calls app].
  rewrite <- H, withProgress_same.
  destruct (invoke w) as [p w']. exact (settle_solo p w').
Qed.

Lemma alone_returned :
  forall env fuel l w,
    alone env fuel 0 (solo (Returned l) w) = solo (Returned l) w.
Proof. intros env [|fuel] l w; reflexivity. Qed.

(** The end of a call that leaves the loop, and of one that finishes it. *)
Definition ended (e : LoopEnd) : System :=
  match e with
  | Cancelled w => solo (Returned (allPagesData (loader w))) (finally w)
  | Finished w =>
      solo (Returned (allPagesData (loader (complete w))))
        (finally (complete w))
  end.

Definition soloOf (x : Point * World) : System := solo (fst x) (snd x).

(** The events of a call alone, one [await] after the other. *)
Lemma alone_get :
  forall env fuel page totalPages r w,
    alone env (S fuel) 0 (solo (AwaitGet page totalPages) (withSent r w))
    = alone env fuel 0
        (soloOf (answer (fetch env (List.length (sent w)) r)
                   (AwaitGet page totalPages) (withSent r w))).
Proof. intros. unfold soloOf. rewrite <- resume_solo. reflexivity. Qed.

Lemma alone_post :
  forall env fuel page totalPages r w,
    alone env (S fuel) 0 (solo (AwaitPost page totalPages) (withSent r w))
    = alone env fuel 0
        (soloOf (answer (fetch env (List.length (sent w)) r)
                   (AwaitPost page totalPages) (withSent r w))).
Proof. intros. unfold soloOf. rewrite <- resume_solo. reflexivity. Qed.

Lemma alone_pause :
  forall env fuel page totalPages w,
    progressShown w = true ->
    alone env (S fuel) 0 (solo (AwaitPause page totalPages) w)
    = alone env fuel 0
        (soloOf (turn (page + 1) totalPages
                   (if cancelClicked env page then clickCancel w else w))).
Proof.
  intros env fuel page totalPages w H. unfold soloOf.
  change (alone env (S fuel) 0 (solo (AwaitPause page totalPages) w))
    with (alone env fuel 0
            (step (if cancelClicked env page
                   then step (solo (AwaitPause page totalPages) w) (Cancel 0)
                   else solo (AwaitPause page totalPages) w)
               (Elapse 0))).
  destruct (cancelClicked env page).
  - rewrite cancel_solo by exact H. unfold step. rewrite resume_solo.
    reflexivity.
  - unfold step. rewrite resume_solo. reflexivity.
Qed.

(** One turn of the loop, event by event: the answer to the GET, the answer
    to the POST when there is one, the click when there is one, and the end
    of the pause. *)
Lemma alone_turn :
  forall env fuel page totalPages w,
    progressShown w = true ->
    exists more,
      alone env (more + fuel) 0
        (solo (AwaitGet page totalPages)
           (withSent (buildGetRequest (doc w) page) w))
      = alone env fuel 0
          (soloOf
             (turn (page + 1) totalPages
                (if cancelClicked env page
                 then clickCancel (fetchPage env page w)
                 else fetchPage env page w))).
Proof.
  intros env fuel page totalPages w Hshown.
  unfold fetchPage, loadPageData, loadPageDataGET, doFetch.
  set (get := buildGetRequest (doc w) page).
  destruct (Nat.ltb 0 (List.length (received (fetch env (List.length (sent w)) get))))
    eqn:G.
  - (* the GET gave records *)
    exists 2. cbn [Nat.add]. rewrite alone_get. unfold answer, soloOf.
    rewrite G. cbn [fst snd]. unfold push. rewrite G.
    rewrite alone_pause; [reflexivity|].
    destruct w; exact Hshown.
  - (* the fallback POST *)
    set (post := buildFilteredPageRequest (doc (withSent get w)) page).
    exists 3. cbn [Nat.add]. rewrite alone_get. unfold answer at 1, soloOf at 1.
    rewrite G. cbn [fst snd]. fold post.
    rewrite alone_post. unfold answer, soloOf at 1. cbn [fst snd].
    unfold push.
    rewrite alone_pause; [reflexivity|].
    match goal with
    | |- progressShown (if ?b then _ else _) = true => destruct b
    end; destruct w; exact Hshown.
Qed.

(** A call that leaves the loop has removed its indicator. *)
Lemma cancelled_hidden :
  forall env todo page w w2,
    pagesLoop env todo page w = Cancelled w2 -> progressShown w2 = false.
Proof.
  intros env todo. induction todo as [|todo IH]; intros page w w2 H.
  - discriminate H.
  - cbn [pagesLoop] in H. destruct (loadingAborted (loader w)).
    + injection H as <-. reflexivity.
    + apply IH in H. exact H.
Qed.

(** The loop, event by event. *)
Lemma alone_loop :
  forall env todo page totalPages w,
    totalPages = (page + Z.of_nat todo - 1)%Z ->
    (loadingAborted (loader w) = false -> progressShown w = true) ->
    exists fuel,
      alone env fuel 0 (soloOf (turn page totalPages w))
      = ended (pagesLoop env todo page w).
Proof.
  intros env todo. induction todo as [|todo IH];
    intros page totalPages w Htotal Hshown.
  - exists 0. unfold turn.
    replace (page <=? totalPages)%Z with false
      by (symmetry; apply Z.leb_gt; lia).
    reflexivity.
  - unfold turn. replace (page <=? totalPages)%Z with true
      by (symmetry; apply Z.leb_le; lia).
    cbn [pagesLoop].
    destruct (loadingAborted (loader w)) eqn:A.
    + exists 0. reflexivity.
    + specialize (Hshown eq_refl).
      set (w1 := fetchPage env page w).
      set (w2 := if cancelClicked env page then clickCancel w1 else w1).
      destruct (IH (page + 1)%Z totalPages w2) as (fuel & E).
      * lia.
      * intros A2. unfold w2 in *.
        destruct (cancelClicked env page); [discriminate A2|].
        unfold w1.
        rewrite (frame_progress _ _ (fetchPage_frame env page w)).
        exact Hshown.
      * destruct (alone_turn env fuel page totalPages w Hshown) as (more & T).
        exists (more + fuel). unfold soloOf at 1. cbn [fst snd].
        rewrite T. fold w1. unfold w2 in E.
        destruct (cancelClicked env page); exact E.
Qed.

End WithHost.
End ScheduleFacts.

(* ===================================================================== *)
(** ** Calls under way *)
(* ===================================================================== *)

Section ScheduleProperties.
Import PageLoader Schedule LoaderFacts ScheduleFacts.
Context {host : Host}.

(** X19.  As long as the cancel button is not clicked, at most one call of
    [loadAllPages] is under way, whatever the calls made, the answers and
    the pauses, and in whatever order they come.  While one is under way the
    in-progress flag is set, and a further call returns at once with the
    records accumulated so far: it hands no request to [fetch] and leaves
    the call under way as it is. *)
Theorem one_call_under_way_without_cancel :
  forall (w : World) (es : list Event),
    existsb isCancel es = false ->
    let s := play es (fresh w) in
    List.length (filter inFlight (calls s)) <= 1
    /\ (existsb inFlight (calls s) = true ->
        isLoadingAllPages (loader (world s)) = true
        /\ calls (step s Invoke)
           = calls s ++ [mkCall (Returned (allPagesData (loader (world s))))
                           false]
        /\ sent (world (step s Invoke)) = sent (world s)
        /\ loader (world (step s Invoke)) = loader (world s)
        /\ tbody (world (step s Invoke)) = tbody (world s)).
Proof.
  intros w es H s.
  assert (I : exclusive s).
  { apply play_exclusive; [exact H | left; reflexivity]. }
  fold (underWay (calls s)). split.
  - destruct I as [I|[I _]]; lia.
  - intros F.
    assert (L : isLoadingAllPages (loader (world s)) = true).
    { destruct I as [I|[_ I]]; [|exact I].
      exfalso. unfold underWay in I.
      apply existsb_exists in F. destruct F as (c & Hc & Fc).
      assert (In c (filter inFlight (calls s)))
        by (apply filter_In; split; assumption).
      destruct (filter inFlight (calls s)); [contradiction | discriminate I]. }
    split; [exact L|].
    unfold step. rewrite invoke_guard by exact L.
    cbn [calls progressShown withProgress].
    repeat split.
Qed.

(** X20.  A call of [loadAllPages] that nothing interrupts, played event
    by event (the answers to its requests, the clicks on its cancel button,
    the ends of its pauses), comes to its end, and ends as
    [PageLoader.loadAllPages] says: with the same result and the same
    loader, page, table body and log of requests. *)
Theorem a_call_alone_is_loadAllPages :
  forall (env : Env) (w : World),
    progressShown w = false ->
    exists fuel,
      alone env fuel 0 (step (fresh w) Invoke)
      = mkSystem (snd (loadAllPages env w))
          [mkCall (Returned (fst (loadAllPages env w))) false].
Proof.
  intros env w H. rewrite invoke_solo by exact H.
  unfold invoke, loadAllPages.
  destruct (isLoadingAllPages (loader w)).
  - exists 0. cbn [fst snd alone]. unfold solo. rewrite H. reflexivity.
  - cbv zeta.
    destruct (getTotalPages (doc (withFlags true false w)) <=? 1)%Z eqn:T.
    + exists 0. cbn [fst snd alone]. unfold solo.
      replace (progressShown
                 (showLoadedDataInfo (parseCurrentPage (withFlags true false w))))
        with false; [reflexivity|].
      destruct w as [l d tb al se pr bu pa no]. simpl in H. subst pr.
      unfold parseCurrentPage. simpl. destruct tb; reflexivity.
    + apply Z.leb_gt in T.
      set (total := getTotalPages (doc (withFlags true false w))) in *.
      destruct (alone_loop env (Z.to_nat (total - 1)) 2 total
                  (begin (withFlags true false w))) as (fuel & E).
      * lia.
      * intros _. destruct w as [l d tb al se pr bu pa no].
        unfold begin, parseCurrentPage. simpl. destruct tb; reflexivity.
      * exists fuel. fold (soloOf (turn 2 total (begin (withFlags true false w)))).
        rewrite E.
        destruct (pagesLoop env (Z.to_nat (total - 1)) 2
                    (begin (withFlags true false w))) as [w2|w2] eqn:L;
          unfold ended, solo; cbn [fst snd].
        -- apply cancelled_hidden in L.
           change (progressShown (finally w2)) with (progressShown w2).
           rewrite L. reflexivity.
        -- reflexivity.
Qed.

End ScheduleProperties.

(** C4 on the code.  On a leaderboard of three pages the load button is
    clicked, and the cancel button is clicked while the request for page 2
    is awaited: the call is still under way, and the handler has cleared
    the in-progress flag and enabled the load button again.  The load
    button is clicked once more: the second call passes the guard, so that
    two calls are under way, each has handed its request for page 2 to
    [fetch], and the second call has cleared the abort flag the first one
    was to read.  Both then run to their end: four requests are made where
    two were needed, and the records of pages 2 and 3 are accumulated and
    merged twice, six rows for four athletes. *)
Lemma a_call_after_cancel_starts_a_second_run :
  let ok := PageLoader.Http 200 Sample.served in
  let cancelled :=
    Schedule.play [Schedule.Invoke; Schedule.Cancel 0]
      (Schedule.fresh Sample.threePages) in
  let s := Schedule.step cancelled Schedule.Invoke in
  let s' :=
    Schedule.play
      [Schedule.Answer 0 ok; Schedule.Answer 1 ok; Schedule.Elapse 0;
       Schedule.Elapse 1; Schedule.Answer 0 ok; Schedule.Answer 1 ok;
       Schedule.Elapse 0; Schedule.Elapse 1] s in
  (map Schedule.point (Schedule.calls cancelled) = [Schedule.AwaitGet 2 3]
   /\ PageLoader.isLoadingAllPages
        (PageLoader.loader (Schedule.world cancelled)) = false
   /\ PageLoader.buttonBusy (Schedule.world cancelled) = false)
  /\ map Schedule.point (Schedule.calls s)
     = [Schedule.AwaitGet 2 3; Schedule.AwaitGet 2 3]
  /\ map Sample.pageOf (PageLoader.sent (Schedule.world s)) = [js "2"; js "2"]
  /\ PageLoader.loadingAborted (PageLoader.loader (Schedule.world s)) = false
  /\ map Schedule.inFlight (Schedule.calls s') = [false; false]
  /\ map Sample.pageOf (PageLoader.sent (Schedule.world s'))
     = [js "3"; js "3"; js "2"; js "2"]
  /\ map name (PageLoader.allPagesData (PageLoader.loader (Schedule.world s')))
     = [js "Ann"; js "Bob"; js "Zed"; js "Zed"; js "Zed"; js "Zed"]
  /\ option_map (fun tb => List.length (children tb))
       (PageLoader.tbody (Schedule.world s')) = Some 6.
Proof.
  cbv zeta.
  split; [split; [|split]; vm_compute; reflexivity|].
  split; [vm_compute; reflexivity|].
  split; [vm_compute; reflexivity|].
  split; [vm_compute; reflexivity|].
  split; [vm_compute; reflexivity|].
  split; [vm_compute; reflexivity|].
  split; vm_compute; reflexivity.
Qed.

(* ===================================================================== *)
(** ** Facts about what a match consumes *)
(* ===================================================================== *)

Module MatchFacts.
Import EntryFacts PatternFacts Orders.

(** A pattern every match of which consumes a unit of the class [P]. *)
Inductive needs (ci : bool) (P : N -> bool) : re -> Prop :=
| n_lit :
    forall c,
      (forall x, N.eqb (fold ci x) (fold ci c) = true -> P x = true) ->
      needs ci P (Lit c)
| n_cls :
    forall p, (forall x, p x = true -> P x = true) -> needs ci P (Cls p)
| n_rep :
    forall mn mx p,
      1 <= mn -> (forall x, p x = true -> P x = true) ->
      needs ci P (RepC mn mx p)
| n_cat_l : forall a b, needs ci P a -> needs ci P (Cat a b)
| n_cat_r : forall a b, needs ci P b -> needs ci P (Cat a b)
| n_alt : forall a b, needs ci P a -> needs ci P b -> needs ci P (Alt a b)
| n_grp : forall i r, needs ci P r -> needs ci P (Grp i r).

(** A greedy quantifier hands over to its continuation after a run of
    units of its class, at least [mn] of them. *)
Lemma repc_sound :
  forall (p : N -> bool) (k : K) (cs : list (nat * jsstring)) (s : jsstring)
         (mn : nat) (mx : option nat) (n : nat) (pv : option N) (res : mstate),
    repc p mn mx k n pv cs s = Some res ->
    exists consumed s' n' pv',
      s = consumed ++ s'
      /\ forallb p consumed = true
      /\ mn <= List.length consumed
      /\ k (MState n' pv' s' cs) = Some res.
Proof.
  intros p k cs s. induction s as [|c s IH]; intros mn mx n pv res H.
  - assert (S0 : mn = 0 /\ k (MState n pv [] cs) = Some res).
    { simpl in H. destruct mn as [|mn'].
      - split; [reflexivity|]. destruct mx as [[|j]|]; exact H.
      - destruct mx as [[|j]|]; discriminate H. }
    destruct S0 as [-> Hk].
    exists [], [], n, pv. repeat split; [lia | exact Hk].
  - assert (Stop : forall (Hs : match mn with
                                | 0 => k (MState n pv (c :: s) cs)
                                | S _ => None
                                end = Some res),
               exists consumed s' n' pv',
                 c :: s = consumed ++ s'
                 /\ forallb p consumed = true
                 /\ mn <= List.length consumed
                 /\ k (MState n' pv' s' cs) = Some res).
    { intros Hs. destruct mn as [|mn']; [|discriminate Hs].
      exists [], (c :: s), n, pv. repeat split; [simpl; lia | exact Hs]. }
    cbn [repc] in H.
    assert (Step :
              (if p c then
                 match repc p (Nat.pred mn) (option_map Nat.pred mx) k (S n)
                         (Some c) cs s with
                 | Some r => Some r
                 | None =>
                     match mn with
                     | 0 => k (MState n pv (c :: s) cs)
                     | S _ => None
                     end
                 end
               else
                 match mn with
                 | 0 => k (MState n pv (c :: s) cs)
                 | S _ => None
                 end) = Some res ->
              exists consumed s' n' pv',
                c :: s = consumed ++ s'
                /\ forallb p consumed = true
                /\ mn <= List.length consumed
                /\ k (MState n' pv' s' cs) = Some res).
    { intros Hc. destruct (p c) eqn:Pc; [|apply Stop; exact Hc].
      destruct (repc p (Nat.pred mn) (option_map Nat.pred mx) k (S n)
                  (Some c) cs s) as [r|] eqn:R; [|apply Stop; exact Hc].
      injection Hc as ->.
      destruct (IH _ _ _ _ _ R) as (consumed & s' & n' & pv' & E & F & L & Hk).
      exists (c :: consumed), s', n', pv'. split; [rewrite E; reflexivity|].
      split; [simpl; rewrite Pc; exact F|].
      split; [simpl; lia | exact Hk]. }
    destruct mx as [[|j]|].
    + apply Stop. exact H.
    + apply Step. exact H.
    + apply Step. exact H.
Qed.

(** What a pattern does before it hands over to its continuation: it
    consumes a part of the input, in which there is a unit of the class when
    the pattern needs one. *)
Lemma m_sound :
  forall (ci : bool) (P : N -> bool) (r : re) (k : K) (st res : mstate),
    m ci r k st = Some res ->
    exists st' consumed,
      k st' = Some res
      /\ rest st = consumed ++ rest st'
      /\ (needs ci P r -> existsb P consumed = true).
Proof.
  intros ci P r.
  induction r as [|c|p|a IHa b IHb|a IHa b IHb|mn mx p|i r IHr| | |];
    intros k st res H; simpl in H.
  - exists st, []. repeat split; [exact H|]. intros N; inversion N.
  - destruct (rest st) as [|x s'] eqn:R; [discriminate H|].
    destruct (N.eqb (fold ci x) (fold ci c)) eqn:E; [|discriminate H].
    eexists. exists [x]. split; [exact H|]. split; [reflexivity|].
    intros N. inversion N as [c' Hc| | | | | |]; subst.
    simpl. rewrite (Hc x E). reflexivity.
  - destruct (rest st) as [|x s'] eqn:R; [discriminate H|].
    destruct (p x) eqn:E; [|discriminate H].
    eexists. exists [x]. split; [exact H|]. split; [reflexivity|].
    intros N. inversion N as [|p' Hp| | | | |]; subst.
    simpl. rewrite (Hp x E). reflexivity.
  - destruct (IHa _ _ _ H) as (st1 & c1 & H1 & R1 & D1).
    destruct (IHb _ _ _ H1) as (st2 & c2 & H2 & R2 & D2).
    exists st2, (c1 ++ c2). split; [exact H2|].
    split; [rewrite R1, R2, app_assoc; reflexivity|].
    intros N. rewrite existsb_app. inversion N; subst.
    + rewrite D1 by assumption. reflexivity.
    + rewrite D2 by assumption. apply orb_true_r.
  - destruct (m ci a k st) as [ra|] eqn:A.
    + injection H as ->.
      destruct (IHa _ _ _ A) as (st1 & c1 & H1 & R1 & D1).
      exists st1, c1. repeat split; try assumption.
      intros N. inversion N; subst. apply D1. assumption.
    + destruct (IHb _ _ _ H) as (st1 & c1 & H1 & R1 & D1).
      exists st1, c1. repeat split; try assumption.
      intros N. inversion N; subst. apply D1. assumption.
  - destruct (repc_sound _ _ _ _ _ _ _ _ _ H)
      as (consumed & s' & n' & pv' & E & F & L & Hk).
    eexists. exists consumed. split; [exact Hk|]. split; [exact E|].
    intros N. inversion N as [| |mn' mx' p' Hmn Hp| | | |]; subst.
    destruct consumed as [|x t]; [simpl in L; lia|].
    simpl in F. apply andb_true_iff in F. destruct F as [Fx _].
    simpl. rewrite (Hp x Fx). reflexivity.
  - destruct (IHr _ _ _ H) as (st1 & c1 & H1 & R1 & D1).
    eexists. exists c1. split; [exact H1|]. split; [exact R1|].
    intros N. inversion N; subst. apply D1. assumption.
  - destruct (prev st); [discriminate H|].
    exists st, []. repeat split; [exact H|]. intros N; inversion N.
  - destruct (rest st) eqn:R; [|discriminate H].
    exists st, []. split; [exact H|]. split; [rewrite R; reflexivity|].
    intros N; inversion N.
  - destruct (xorb _ _); [|discriminate H].
    exists st, []. repeat split; [exact H|]. intros N; inversion N.
Qed.

(** A pattern that needs a unit of a class matches nowhere in a text
    without such a unit. *)
Lemma search_needs :
  forall ci P r s n pv,
    needs ci P r -> existsb P s = false -> search ci r n pv s = None.
Proof.
  intros ci P r s. induction s as [|c s IH]; intros n pv Nr Hs.
  - simpl. unfold matchAt.
    destruct (m ci r Some (MState n pv [] [])) as [st|] eqn:M; [|reflexivity].
    destruct (m_sound ci P _ _ _ _ M) as (st' & consumed & _ & R & D).
    simpl in R. specialize (D Nr).
    destruct consumed; [discriminate D | discriminate R].
  - simpl in Hs. apply orb_false_iff in Hs. destruct Hs as [Hc Hs].
    cbn [search]. unfold matchAt.
    destruct (m ci r Some (MState n pv (c :: s) [])) as [st|] eqn:M.
    + destruct (m_sound ci P _ _ _ _ M) as (st' & consumed & _ & R & D).
      simpl in R. specialize (D Nr).
      assert (X : existsb P (consumed ++ rest st') = false).
      { rewrite <- R. simpl. rewrite Hc. exact Hs. }
      rewrite existsb_app, D in X. discriminate X.
    + apply IH; assumption.
Qed.

Lemma exec_needs :
  forall ci P r s,
    needs ci P r -> existsb P s = false -> exec ci r s = None.
Proof. intros ci P r s. apply search_needs. Qed.

(** A pattern that needs a digit and a mark matches nowhere in a text
    [without] them. *)
Lemma exec_without :
  forall ci marks r s,
    needs ci isDigit r -> needs ci (isMark marks) r ->
    without marks s = true -> exec ci r s = None.
Proof.
  intros ci marks r s Nd Nm H. unfold without in H.
  apply negb_true_iff in H. apply andb_false_iff in H. destruct H as [H|H].
  - apply (exec_needs ci isDigit); assumption.
  - apply (exec_needs ci (isMark marks)); assumption.
Qed.

(** The units a literal matches: itself and, when the case is ignored, the
    letter of the other case. *)
Lemma fold_eq :
  forall ci x c,
    N.eqb (fold ci x) (fold ci c) = true ->
    x = c
    \/ (((65 <=? c) && (c <=? 90))%N = true /\ x = (c + 32)%N)
    \/ (((97 <=? c) && (c <=? 122))%N = true /\ x = (c - 32)%N).
Proof.
  intros ci x c H. apply N.eqb_eq in H. unfold fold in H.
  destruct ci; simpl in H; [|left; exact H].
  destruct ((97 <=? x)%N && (x <=? 122)%N) eqn:Rx;
    destruct ((97 <=? c)%N && (c <=? 122)%N) eqn:Rc.
  - apply andb_true_iff in Rx, Rc. destruct Rx as [X1 X2], Rc as [C1 C2].
    apply N.leb_le in X1, X2, C1, C2. left. lia.
  - apply andb_true_iff in Rx. destruct Rx as [X1 X2].
    apply N.leb_le in X1, X2. right. left. split; [|lia].
    apply andb_true_iff. split; apply N.leb_le; lia.
  - right. right. split; [reflexivity | exact H].
  - left. exact H.
Qed.

(** The search for the unit a pattern needs. *)
Ltac literal :=
  let x := fresh "x" in
  let H := fresh "H" in
  let R := fresh "R" in
  intros x H; apply fold_eq in H;
  destruct H as [H | [[R H] | [R H]]];
  [ rewrite H; vm_compute; reflexivity
  | first [vm_compute in R; discriminate R
          | rewrite H; vm_compute; reflexivity] .. ].

Ltac mark :=
  match goal with
  | |- needs _ _ (RepC _ _ _) =>
      apply n_rep; [apply le_n | intros ? Hx; exact Hx]
  | |- needs _ _ (Lit _) => apply n_lit; literal
  | |- needs _ _ (Grp _ _) => apply n_grp; mark
  | |- needs _ _ (Cat _ _) =>
      first [apply n_cat_l; mark | apply n_cat_r; mark]
  | |- needs _ _ (Alt _ _) => apply n_alt; mark
  end.

Ltac marks :=
  cbv [cats decimal decimalComma plus re_time word lits js]; mark.

(** A scan that finds nothing. *)
Lemma firstSome_none :
  forall (A B : Type) (f : A -> option B) (l : list A),
    (forall x, In x l -> f x = None) -> firstSome f l = None.
Proof.
  intros A B f l. induction l as [|x l IH]; intros H; simpl.
  - reflexivity.
  - rewrite (H x) by (left; reflexivity).
    apply IH. intros y Hy. apply H. right. exact Hy.
Qed.

(** The cells a loop visits from the third on are among the cells from the
    third on. *)
Lemma slice_from_third :
  forall (A : Type) (a b : nat) (l : list A) (x : A),
    2 <= a -> In x (slice a b l) -> In x (skipn 2 l).
Proof.
  intros A a b l x Ha H. unfold slice in H.
  assert (H1 : In x (skipn a l)).
  { rewrite <- (firstn_skipn (b - a) (skipn a l)).
    apply in_or_app. left. exact H. }
  replace a with ((a - 2) + 2) in H1 by lia.
  rewrite <- skipn_skipn in H1.
  rewrite <- (firstn_skipn (a - 2) (skipn 2 l)).
  apply in_or_app. right. exact H1.
Qed.

Lemma speedMatch_none :
  forall t, without speedMarks t = true -> speedMatch t = None.
Proof.
  intros t H. unfold speedMatch.
  rewrite !(exec_without _ speedMarks); try exact H; try reflexivity; marks.
Qed.

Lemma heartRateMatch_none :
  forall t, without heartMarks t = true -> heartRateMatch t = None.
Proof.
  intros t H. unfold heartRateMatch.
  rewrite !(exec_without _ heartMarks); try exact H; try reflexivity; marks.
Qed.

Lemma powerMatch_none :
  forall t, without powerMarks t = true -> powerMatch t = None.
Proof.
  intros t H. unfold powerMatch.
  rewrite !(exec_without _ powerMarks); try exact H; try reflexivity; marks.
Qed.

Lemma re_time_none :
  forall t, without timeMarks t = true -> exec false re_time t = None.
Proof.
  intros t H. apply (exec_without _ timeMarks); [| |exact H]; marks.
Qed.

Lemma climbingSpeedMatch_none :
  forall t, existsb isDigit t = false -> climbingSpeedMatch t = None.
Proof.
  intros t H. unfold climbingSpeedMatch.
  rewrite !(exec_needs _ isDigit); try exact H; try reflexivity; marks.
Qed.

End MatchFacts.

(* ===================================================================== *)
(** ** A row without metrics *)
(* ===================================================================== *)

Section MetricProperties.
Import EntryFacts PatternFacts RowFacts MatchFacts Orders.

(** X16.  A row of three cells or more is always parsed, and a metric is
    read only where its unit stands: when no cell from the third on holds
    both a digit and one of the letters of the units of speed (k, m), the
    speed is 0; without a digit and b or the heart in one cell, there is no
    heart rate; without a digit and w, no power; without a digit and a
    colon, the time is empty and its seconds are 0; and without any digit
    the climbing speed is 0. *)
Theorem metrics_need_their_units :
  forall (row : DOM.element) (index : Z),
    3 <= List.length (cellsOfRow row) ->
    let others := skipn 2 (map text (cellsOfRow row)) in
    exists r,
      parseTableRow row index = Some r
      /\ element r = row
      /\ (forallb (without speedMarks) others = true -> speed r = 0%Q)
      /\ (forallb (without heartMarks) others = true -> heartRate r = None)
      /\ (forallb (without powerMarks) others = true -> power r = None)
      /\ (forallb (without timeMarks) others = true ->
          time r = [] /\ timeInSeconds r = 0%Z)
      /\ (forallb (fun t => negb (existsb isDigit t)) others = true ->
          averageClimbingSpeed r = 0%Q).
Proof.
  intros row index Hlen others.
  rewrite (parseTableRow_some row index Hlen).
  set (texts := map text (cellsOfRow row)) in *.
  eexists. split; [reflexivity|].
  cbn [element speed heartRate power averageClimbingSpeed time timeInSeconds].
  split; [reflexivity|].
  split; [|split; [|split; [|split]]]; intros Hno;
    rewrite forallb_forall in Hno.
  - unfold extractSpeed. rewrite firstSome_none; [reflexivity|].
    intros t Ht. apply speedMatch_none. apply Hno.
    eapply slice_from_third; [|exact Ht]. lia.
  - unfold extractHeartRate. rewrite firstSome_none; [reflexivity|].
    intros t Ht. apply heartRateMatch_none. apply Hno.
    eapply slice_from_third; [|exact Ht]. lia.
  - unfold extractPower. rewrite firstSome_none; [reflexivity|].
    intros t Ht. apply powerMatch_none. apply Hno.
    eapply slice_from_third; [|exact Ht]. lia.
  - assert (Tm : extractTime texts = ([], 0%Z)).
    { unfold extractTime. rewrite firstSome_none; [reflexivity|].
      intros t Ht. rewrite re_time_none; [reflexivity|]. apply Hno.
      eapply slice_from_third; [|exact Ht]. lia. }
    rewrite Tm. split; reflexivity.
  - assert (Hd : forall t, In t others -> existsb isDigit t = false).
    { intros t Ht. apply negb_true_iff. apply Hno. exact Ht. }
    unfold extractClimbingSpeed. rewrite firstSome_none.
    + cbv zeta. change (Qeq_bool 0 0) with true. cbn [andb].
      destruct (Nat.ltb 6 (List.length texts)) eqn:L6; [|reflexivity].
      apply Nat.ltb_lt in L6.
      rewrite (exec_needs _ isDigit); [reflexivity | marks |].
      apply Hd. unfold others.
      rewrite <- (firstn_skipn 4 (skipn 2 texts)).
      apply in_or_app. right. rewrite skipn_skipn.
      change (4 + 2) with 6.
      assert (E : skipn 6 texts = nth 6 texts [] :: skipn 7 texts).
      { clear - L6. revert L6. generalize 6 as n. generalize texts as l.
        intros l. induction l as [|x l IH]; intros n Hn.
        - simpl in Hn. lia.
        - destruct n as [|n]; [reflexivity|].
          simpl. apply IH. simpl in Hn. lia. }
      rewrite E. left. reflexivity.
    + intros t Ht. apply climbingSpeedMatch_none. apply Hd.
      eapply slice_from_third; [|exact Ht]. lia.
Qed.

End MetricProperties.

(* ===================================================================== *)
(** ** Examples *)
(* ===================================================================== *)

Section MoreExamples.
Import PageLoader TableSorter Orders CsvExport CsvReader Pagination.

(** The export of a table whose first athlete has a comma and quotes in
    the name: the file reads back as the three headers and two rows. *)
Lemma exportToCSV_round_trip_witness :
  getTableHeaders Cases.board = [js "Rank"; js "Name"; js "Time"]
  /\ exists csvContent,
       exportToCSV Cases.board Cases.idle = Downloaded (bom :: csvContent) 2
       /\ readCsv csvContent
          = Some (getTableHeaders Cases.board
                  :: map (fun record => map stringOf (values record))
                       (dataToExport Cases.board Cases.idle)).
Proof.
  assert (H : getTableHeaders Cases.board = [js "Rank"; js "Name"; js "Time"])
    by (vm_compute; reflexivity).
  split; [exact H|].
  destruct (exportToCSV_round_trip Cases.board Cases.idle)
    as (csvContent & E & R).
  - vm_compute. discriminate.
  - vm_compute. reflexivity.
  - exists csvContent. split; [exact E|]. rewrite R, H. reflexivity.
Defined.

(** The header that bears the sort indicator is exported without it. *)
Lemma getTableHeaders_clean_witness :
  In (js "Name") (getTableHeaders Cases.board)
  /\ js "Name" <> [] /\ ~ In indicator (js "Name").
Proof.
  assert (H : In (js "Name") (getTableHeaders Cases.board))
    by (vm_compute; right; left; reflexivity).
  split; [exact H|].
  destruct (getTableHeaders_clean Cases.board) as (C & _).
  apply (C (js "Name") H).
Defined.

(** Three pages, the second of which fails twice: a GET and a POST for
    page 2, then a GET for page 3. *)
Lemma loadAllPages_request_log_witness :
  isLoadingAllPages (loader Sample.threePages) = false
  /\ exists (n : nat) (log : list Request),
       n <= Z.to_nat (getTotalPages (doc Sample.threePages) - 1)
       /\ sent (snd (loadAllPages Sample.flaky Sample.threePages))
          = rev log ++ sent Sample.threePages
       /\ pageLog 2 n log
       /\ List.length log <= 2 * n.
Proof.
  split; [reflexivity|].
  apply (loadAllPages_request_log Sample.flaky Sample.threePages).
  reflexivity.
Defined.

(** One page: the two rows are returned, and the loader stays marked as
    loading. *)
Lemma loadAllPages_single_page_witness :
  getTotalPages (doc Cases.onePage) = 1%Z
  /\ List.length (fst (loadAllPages Sample.flaky Cases.onePage)) = 2
  /\ isLoadingAllPages (loader (snd (loadAllPages Sample.flaky Cases.onePage)))
     = true.
Proof.
  split; [vm_compute; reflexivity|].
  pose proof (loadAllPages_single_page Sample.flaky Cases.onePage) as H.
  destruct (loadAllPages Sample.flaky Cases.onePage) as [data w'] eqn:E.
  destruct H as (_ & _ & _ & D & L & _).
  - reflexivity.
  - vm_compute. discriminate.
  - split; [|exact L]. cbn [fst]. rewrite D. vm_compute. reflexivity.
Defined.

(** Five pages and a click while the third is awaited. *)
Lemma loadAllPages_ends_idle_witness :
  (1 < getTotalPages (doc Sample.fivePages))%Z
  /\ isLoadingAllPages
       (loader (snd (loadAllPages Sample.impatient Sample.fivePages))) = false
  /\ buttonBusy (snd (loadAllPages Sample.impatient Sample.fivePages)) = false.
Proof.
  assert (T : (1 < getTotalPages (doc Sample.fivePages))%Z)
    by (vm_compute; reflexivity).
  split; [exact T|].
  destruct (loadAllPages_ends_idle Sample.impatient Sample.fivePages)
    as (A & _ & B & _).
  - reflexivity.
  - exact T.
  - split; [exact A | exact B].
Defined.


(** Powers of 250, 1,000 and 90 W and a blank: the first click on the
    column gives 90, 250, 1000, the second 1000, 250, 90. *)
Lemma clicks_sort_a_column_up_then_down_witness :
  ascending 2 (sorted (sortByColumn (mkSort (-1) asc) 2) Cases.powers 0)
  /\ descending 2
       (sorted (sortByColumn (sortByColumn (mkSort (-1) asc) 2) 2)
          Cases.powers 0)
  /\ sorted (sortByColumn (mkSort (-1) asc) 2) Cases.powers 0
     = [Cases.watts "90"; Cases.watts "250"; Cases.watts "1,000";
        Cases.watts "-"].
Proof.
  destruct (clicks_sort_a_column_up_then_down (mkSort (-1) asc) 2
              Cases.powers 0 KNumber) as (_ & _ & U & D).
  - discriminate.
  - simpl. discriminate.
  - intros r [<-|[<-|[<-|[<-|[]]]]]; vm_compute; reflexivity.
  - split; [exact U|]. split; [exact D|]. vm_compute. reflexivity.
Defined.

(** The time 9:59 is valued 9. *)
Lemma getCellValue_leading_digits_witness :
  text (Sample.td "9:59") = js "9" ++ js ":59"
  /\ exists q,
       getCellValue Cases.timed 2 = VNumber q /\ (q == inject_Z 9)%Q.
Proof.
  split; [vm_compute; reflexivity|].
  apply (getCellValue_leading_digits Cases.timed 2 (Sample.td "9:59")
           (js "9") (js ":59")).
  - discriminate.
  - reflexivity.
  - vm_compute. reflexivity.
  - reflexivity.
  - split; [|split]; reflexivity.
Defined.

(** Times of 9:59, 10:05 and 9:01, sorted downwards: the two times valued
    9 stay in the order they had. *)
Lemma sortData_keeps_ties_in_order_witness :
  column (mkSort 2 desc) <> (-1)%Z
  /\ (forall r,
         In r (TableSorter.read Cases.clocks 0) ->
         ofKind KNumber (getCellValue (element r) (column (mkSort 2 desc)))
         = true)
  /\ sorted (mkSort 2 desc) Cases.clocks 0
     = [Cases.clocked "10:05"; Cases.clocked "9:59"; Cases.clocked "9:01"]
  /\ filter
       (fun r =>
          sameValue (getCellValue (element r) (column (mkSort 2 desc)))
            (VNumber 9))
       (sorted (mkSort 2 desc) Cases.clocks 0)
     = [Cases.clocked "9:59"; Cases.clocked "9:01"].
Proof.
  assert (C : column (mkSort 2 desc) <> (-1)%Z) by (simpl; discriminate).
  assert (K : forall r,
             In r (TableSorter.read Cases.clocks 0) ->
             ofKind KNumber
               (getCellValue (element r) (column (mkSort 2 desc))) = true).
  { intros r [<-|[<-|[<-|[]]]]; vm_compute; reflexivity. }
  split; [exact C|]. split; [exact K|]. split; [vm_compute; reflexivity|].
  destruct (sortData_keeps_ties_in_order (mkSort 2 desc) Cases.clocks 0
              KNumber (VNumber 9) C K) as (_ & _ & T).
  rewrite T. vm_compute. reflexivity.
Defined.

(** No pagination block, and a link to page 4 in the page. *)
Lemma getTotalPages_without_pagination_witness :
  findPagination Cases.loose = None
  /\ Spec.plain (Spec.docPageLinks Cases.loose)
  /\ getTotalPages Cases.loose = 4%Z.
Proof.
  assert (H : findPagination Cases.loose = None) by (vm_compute; reflexivity).
  assert (L : Spec.docPageLinks Cases.loose
              = [Sample.a "/segments/123?page=4" "last"])
    by (vm_compute; reflexivity).
  assert (N : Spec.pageNumbered (Sample.a "/segments/123?page=4" "last") 4).
  { exists (js "/segments/123?page=4"). split; [reflexivity|].
    exists (js "/segments/123"), 63%N, (js "4"), [].
    split; [reflexivity|]. split; [left; reflexivity|].
    split; [vm_compute; reflexivity|]. split; [discriminate|].
    split; [reflexivity|]. split; [exact I | reflexivity]. }
  assert (P : Spec.plain (Spec.docPageLinks Cases.loose)).
  { intros link Hin. rewrite L in Hin. destruct Hin as [<-|[]].
    exists 4%Z. exact N. }
  split; [exact H|]. split; [exact P|].
  destruct (getTotalPages_without_pagination Cases.loose H P)
    as (A & E & _).
  revert A E. generalize (getTotalPages Cases.loose) as total.
  intros total A E.
  assert (U : (4 <= total)%Z).
  { apply (A (Sample.a "/segments/123?page=4" "last"));
      [rewrite L; left; reflexivity | exact N]. }
  destruct E as [E|(link & Hin & Hl)]; [lia|].
  rewrite L in Hin. destruct Hin as [<-|[]].
  apply PageNumberFacts.hrefPage_numbered in Hl.
  vm_compute in Hl. injection Hl as Hl. symmetry. exact Hl.
Defined.

(** The second value of [filter] is kept, and [page] and [utm] are not. *)
Lemma parseUrlParams_last_value_witness :
  searchParamsOf Cases.address = Some Cases.addressParams
  /\ get (js "filter") (parseUrlParams Cases.address) = Some (js "my_results")
  /\ get (js "page") (parseUrlParams Cases.address) = None
  /\ get (js "utm") (parseUrlParams Cases.address) = None.
Proof.
  assert (H : searchParamsOf Cases.address = Some Cases.addressParams)
    by (vm_compute; reflexivity).
  split; [exact H|].
  destruct (parseUrlParams_last_value Cases.address Cases.addressParams H)
    as (_ & G).
  split; [|split]; rewrite G; vm_compute; reflexivity.
Defined.

(** On the page of segment 123, the requests go to its leaderboard. *)
Lemma requests_target_the_segment_witness :
  pathname (location Cases.loose) = js "/segments/" ++ js "123" ++ []
  /\ url (buildGetRequest Cases.loose 2)
     = js "https://www.strava.com/segments/123/leaderboard"
  /\ In (js "segment_id", js "123")
       (params (buildFilteredPageRequest Cases.loose 2)).
Proof.
  assert (H : pathname (location Cases.loose) = js "/segments/" ++ js "123" ++ [])
    by reflexivity.
  split; [exact H|].
  destruct (requests_target_the_segment Cases.loose 2 (js "123") [] H)
    as (U & _ & S).
  - discriminate.
  - reflexivity.
  - left. reflexivity.
  - split; [rewrite U; vm_compute; reflexivity | exact S].
Defined.

(** The row of Flo holds a speed, a heart rate, a power and a time; a row
    with a date and a time only has no heart rate and no power, though its
    cells hold digits. *)
Lemma metrics_need_their_units_witness :
  3 <= List.length (cellsOfRow Sample.longRide)
  /\ exists r,
       parseTableRow Sample.longRide 0 = Some r
       /\ speed r = 0%Q /\ heartRate r = None /\ power r = None.
Proof.
  assert (L : 3 <= List.length (cellsOfRow Sample.longRide))
    by (vm_compute; lia).
  split; [exact L|].
  destruct (metrics_need_their_units Sample.longRide 0 L)
    as (r & P & _ & S & H & W & _).
  exists r. split; [exact P|].
  split; [apply S; vm_compute; reflexivity|].
  split; [apply H; vm_compute; reflexivity|].
  apply W. vm_compute. reflexivity.
Defined.

(** Three pages, two calls in a row: the second returns at once, and one
    call is under way. *)
Lemma one_call_under_way_without_cancel_witness :
  existsb Schedule.isCancel [Schedule.Invoke; Schedule.Invoke] = false
  /\ map Schedule.inFlight
       (Schedule.calls
          (Schedule.play [Schedule.Invoke; Schedule.Invoke]
             (Schedule.fresh Sample.threePages)))
     = [true; false]
  /\ List.length
       (filter Schedule.inFlight
          (Schedule.calls
             (Schedule.play [Schedule.Invoke; Schedule.Invoke]
                (Schedule.fresh Sample.threePages)))) <= 1.
Proof.
  split; [reflexivity|]. split; [vm_compute; reflexivity|].
  apply (one_call_under_way_without_cancel Sample.threePages
           [Schedule.Invoke; Schedule.Invoke]).
  reflexivity.
Defined.

(** Five pages and a click while the third is awaited, event by event. *)
Lemma a_call_alone_is_loadAllPages_witness :
  progressShown Sample.fivePages = false
  /\ exists fuel,
       Schedule.alone Sample.impatient fuel 0
         (Schedule.step (Schedule.fresh Sample.fivePages) Schedule.Invoke)
       = Schedule.mkSystem
           (snd (loadAllPages Sample.impatient Sample.fivePages))
           [Schedule.mkCall
              (Schedule.Returned
                 (fst (loadAllPages Sample.impatient Sample.fivePages)))
              false].
Proof.
  split; [reflexivity|].
  apply (a_call_alone_is_loadAllPages Sample.impatient Sample.fivePages).
  reflexivity.
Defined.

End MoreExamples.
